(** * Progressive plan streaming and reconciliation: a shallow embedding

    The development follows the TypeScript/JavaScript sources of the
    itinerary planner:

    - [frontend/src/components/Chat.tsx]: the SSE frame decoder
      ([parseSSEStream]), the title canonicalizer ([normalizeTitleKey]), the
      within-day dedup ([dedupeWithinDay], [sanitizePlanDays]), the progressive
      merge ([mergePlanProgress]), the partial JSON extractor
      ([extractCompletedActivities]) and the stream event handler;
    - [frontend/src/components/Content.tsx]: the drag-and-drop mutators
      ([performReorder], [performCrossDayMove], [computeFinalTarget]);
    - [server/dist/routers/chat.js]: the cost normalizer ([coerceCost]) and
      the final clamp ([suggestionsToStrictDays], [enforceDayCount3to5]).

    A JavaScript string is modelled by [string], the sequence of its UTF-8
    bytes: every character the sources test for is ASCII, except the en and
    em dashes of [coerceCost], which appear as their three-byte encodings.
    White space is the ASCII part of the class [\s]; [toLowerCase] acts on
    the ASCII letters: on texts of ASCII characters ([Js.isAscii]) both are
    JavaScript's, and the properties that depend on the value of a key are
    stated for such texts.  JavaScript numbers used as indices are integers
    ([Z]); [undefined] and thrown exceptions are [None]. *)

From Stdlib Require Import List String Ascii ZArith Bool Arith Lia.
From Stdlib Require Import DecimalString Permutation.
Import ListNotations.

Open Scope string_scope.
Open Scope nat_scope.
Open Scope list_scope.

(** String concatenation, kept apart from the [++] of lists. *)
Infix "+:+" := String.append (at level 60, right associativity) : string_scope.

(* ===================================================================== *)
(** * Part I: the programs *)
(* ===================================================================== *)

(** ** String primitives of the JavaScript runtime *)

Module Js.

Definition LF : ascii := "010"%char.
Definition CR : ascii := "013"%char.

(** The one-character text of a line feed. *)
Definition NL : string := String LF EmptyString.

(** The class [\s] on bytes: TAB, LF, VT, FF, CR and the space. *)
Definition is_space (c : ascii) : bool :=
  let n := nat_of_ascii c in
  ((9 <=? n) && (n <=? 13)) || (n =? 32).

Definition is_digit (c : ascii) : bool :=
  let n := nat_of_ascii c in (48 <=? n) && (n <=? 57).

Definition is_lower (c : ascii) : bool :=
  let n := nat_of_ascii c in (97 <=? n) && (n <=? 122).

Definition is_upper (c : ascii) : bool :=
  let n := nat_of_ascii c in (65 <=? n) && (n <=? 90).

(** The class [\w]: letters, digits and the underscore. *)
Definition is_word (c : ascii) : bool :=
  is_lower c || is_upper c || is_digit c || (nat_of_ascii c =? 95).

Definition lower_char (c : ascii) : ascii :=
  if is_upper c then ascii_of_nat (nat_of_ascii c + 32) else c.

Fixpoint toLowerCase (s : string) : string :=
  match s with
  | EmptyString => EmptyString
  | String c s' => String (lower_char c) (toLowerCase s')
  end.

(** [s.slice(n)] for [0 <= n]. *)
Fixpoint drop (n : nat) (s : string) : string :=
  match n, s with
  | O, _ => s
  | S _, EmptyString => EmptyString
  | S n', String _ s' => drop n' s'
  end.

(** [s.slice(a, b)] for [0 <= a]. *)
Definition slice (a b : nat) (s : string) : string := substring a (b - a) s.

Definition startsWith (s p : string) : bool := prefix p s.

(** [s.includes(c)] for a character [c]. *)
Fixpoint hasChar (c : ascii) (s : string) : bool :=
  match s with
  | EmptyString => false
  | String c' s' => Ascii.eqb c c' || hasChar c s'
  end.

Fixpoint trimStart (s : string) : string :=
  match s with
  | EmptyString => EmptyString
  | String c s' => if is_space c then trimStart s' else s
  end.

Fixpoint trimEnd (s : string) : string :=
  match s with
  | EmptyString => EmptyString
  | String c s' =>
      match trimEnd s' with
      | EmptyString => if is_space c then EmptyString else String c EmptyString
      | t => String c t
      end
  end.

Definition trim (s : string) : string := trimEnd (trimStart s).

(** [s.replace(/\r$/, '')]: one carriage return at the very end goes. *)
Fixpoint stripTrailingCR (s : string) : string :=
  match s with
  | EmptyString => EmptyString
  | String c EmptyString => if Ascii.eqb c CR then EmptyString else s
  | String c s' => String c (stripTrailingCR s')
  end.

(** Prepending a character to the first fragment of a split. *)
Definition consHead (c : ascii) (l : list string) : list string :=
  match l with
  | [] => [String c EmptyString]
  | f :: fs => String c f :: fs
  end.

(** [p] holds of every character of [s]. *)
Fixpoint allChars (p : ascii -> bool) (s : string) : bool :=
  match s with
  | EmptyString => true
  | String c s' => p c && allChars p s'
  end.

(** A text of ASCII characters only.  On such a text the bytes are the
    characters of the JavaScript string, and [is_space], [toLowerCase] and
    the trims below are JavaScript's [\s], [toLowerCase] and [trim]; a text
    with other characters (U+00A0, U+0130, U+212A, ...) is outside of what
    these definitions render. *)
Definition isAscii (s : string) : bool :=
  allChars (fun c => nat_of_ascii c <? 128) s.

(** Prepending a text to the first fragment of a split. *)
Definition prependHead (p : string) (l : list string) : list string :=
  match l with
  | [] => [p]
  | f :: fs => (p +:+ f) :: fs
  end.

(** [s.split('\n')]. *)
Fixpoint splitLines (s : string) : list string :=
  match s with
  | EmptyString => [EmptyString]
  | String c s' =>
      if Ascii.eqb c LF then EmptyString :: splitLines s'
      else consHead c (splitLines s')
  end.

(** [s.split('\n\n')]: delimiters are taken left to right, the leftmost
    first, and never overlap. *)
Fixpoint splitFrames (s : string) : list string :=
  match s with
  | EmptyString => [EmptyString]
  | String c s' =>
      match s' with
      | String c' s'' =>
          if Ascii.eqb c LF && Ascii.eqb c' LF
          then EmptyString :: splitFrames s''
          else consHead c (splitFrames s')
      | EmptyString => consHead c (splitFrames s')
      end
  end.

(** [Subseq l1 l2]: [l1] is [l2] with some elements left out, the others
    in their order. *)
Inductive Subseq {A : Type} : list A -> list A -> Prop :=
| Subseq_nil : Subseq [] []
| Subseq_skip : forall x l1 l2, Subseq l1 l2 -> Subseq l1 (x :: l2)
| Subseq_keep : forall x l1 l2, Subseq l1 l2 -> Subseq (x :: l1) (x :: l2).

(** [l[i]] for an array [l] and an integer [i]: [undefined] outside of
    [l]. *)
Definition at_ {A : Type} (l : list A) (i : Z) : option A :=
  if (i <? 0)%Z then None else nth_error l (Z.to_nat i).

End Js.

(** ** The frame decoder ([Chat.tsx], [parseSSEStream]) *)

Module Sse.

Import Js.

(** One callback [onEvent(event, data)]. *)
Definition Event : Type := (string * string)%type.

(** The value of an [event:] or [data:] line after its [n]-character tag:
    at most one leading space and one trailing carriage return go. *)
Definition fieldValue (n : nat) (raw : string) : string :=
  let v := drop n raw in
  let v := if startsWith v " " then drop 1 v else v in
  stripTrailingCR v.

(** The body of [for (const raw of lines)], on the pair [(ev, data)]. *)
Definition lineStep (acc : string * string) (raw : string) : string * string :=
  let '(ev, data) := acc in
  if startsWith raw "event:" then (fieldValue 6 raw, data)
  else if startsWith raw "data:" then
    let v := fieldValue 5 raw in
    (ev, data +:+ (if String.eqb data EmptyString then EmptyString else String LF EmptyString) +:+ v)
  else (ev, data).

Definition parseFrame (frame : string) : Event :=
  fold_left lineStep (splitLines frame) ("message", EmptyString).

(** [if (data !== '[DONE]') onEvent(ev, data)]. *)
Definition emitFrame (frame : string) : list Event :=
  let '(ev, data) := parseFrame frame in
  if String.eqb data "[DONE]" then [] else [(ev, data)].

(** One call of the closure returned by [parseSSEStream]: the state is the
    residual [buffer]; the result is the new buffer and the callbacks made,
    in order. *)
Definition feed (buffer chunk : string) : string * list Event :=
  let buffer := buffer +:+ chunk in
  let frames := splitFrames buffer in
  (last frames EmptyString, flat_map emitFrame (removelast frames)).

(** Feeding a sequence of chunks, first to last. *)
Fixpoint feedAll (buffer : string) (chunks : list string) : string * list Event :=
  match chunks with
  | [] => (buffer, [])
  | c :: cs =>
      let '(b1, e1) := feed buffer c in
      let '(b2, e2) := feedAll b1 cs in
      (b2, e1 ++ e2)
  end.

(** All the chunks of a stream, as one text. *)
Definition joinChunks (chunks : list string) : string :=
  fold_right String.append EmptyString chunks.

End Sse.

(** ** Plan items, dedup and progressive merge ([Chat.tsx]) *)

Module Plan.

Import Js.

(** A JavaScript value as [typeof] sees it in [isStrictItem]. *)
Inductive JsVal : Type :=
| JUndefined
| JString (s : string)
| JOther.   (* a value whose [typeof] is neither 'undefined' nor 'string' *)

(** An object in item position, through the fields the code reads.  The
    type [StrictPlanItem] of [types/plan.ts] promises strings; objects
    decoded by [JSON.parse] need not keep the promise.  Items are objects:
    the tests [!!x] and [typeof x === 'object'] of [isStrictItem] hold of
    every [Item]. *)
Record Item : Type := mkItem {
  title : JsVal;
  short_description : JsVal;
  estimated_cost : JsVal;
  image_url : JsVal
}.

Definition StrictPlanDays : Type := list (list Item).

Definition is_string (v : JsVal) : bool :=
  match v with JString _ => true | _ => false end.

Definition is_undefined (v : JsVal) : bool :=
  match v with JUndefined => true | _ => false end.

Definition isStrictItem (x : Item) : bool :=
  is_string (title x) &&
  is_string (short_description x) &&
  (is_undefined (estimated_cost x) || is_string (estimated_cost x)).

(** *** [normalizeTitleKey] *)

Definition genericPrefixes : list string :=
  ["visit"; "explore"; "walk"; "tour"; "see"; "go to"; "discover"].

(** The alternative of [(visit|...|discover)\s+] that matches at the head
    of [t], if any: what follows the word and its white space. *)
Fixpoint afterGenericPrefix (alts : list string) (t : string) : option string :=
  match alts with
  | [] => None
  | a :: alts' =>
      if startsWith t a then
        match drop (String.length a) t with
        | String c r => if is_space c then Some (trimStart r)
                        else afterGenericPrefix alts' t
        | EmptyString => afterGenericPrefix alts' t
        end
      else afterGenericPrefix alts' t
  end.

(** [.replace(/^[\s]*(visit|explore|walk|tour|see|go to|discover)\s+/g, '')] *)
Definition stripGenericPrefix (s : string) : string :=
  match afterGenericPrefix genericPrefixes (trimStart s) with
  | Some r => r
  | None => s
  end.

(** [.replace(/&/g, 'and')] *)
Fixpoint replaceAmp (s : string) : string :=
  match s with
  | EmptyString => EmptyString
  | String c s' =>
      if Ascii.eqb c "&"%char then "and" +:+ replaceAmp s'
      else String c (replaceAmp s')
  end.

(** [.replace(/[^a-z0-9\s]/g, '')] *)
Fixpoint dropPunctuation (s : string) : string :=
  match s with
  | EmptyString => EmptyString
  | String c s' =>
      if is_lower c || is_digit c || is_space c
      then String c (dropPunctuation s')
      else dropPunctuation s'
  end.

(** [.replace(/\s+/g, ' ')]: [inRun] tells that the run of white space
    under the cursor has already been replaced. *)
Fixpoint collapseFrom (inRun : bool) (s : string) : string :=
  match s with
  | EmptyString => EmptyString
  | String c s' =>
      if is_space c then
        if inRun then collapseFrom true s'
        else String " "%char (collapseFrom true s')
      else String c (collapseFrom false s')
  end.

Definition collapseSpaces (s : string) : string := collapseFrom false s.

Definition normalizeTitleKey (t : string) : string :=
  trim (collapseSpaces (dropPunctuation (replaceAmp
    (stripGenericPrefix (toLowerCase t))))).

(** The characters a key is made of: [a-z], [0-9] and the space. *)
Definition keyChar (c : ascii) : bool :=
  is_lower c || is_digit c || Ascii.eqb c " "%char.

(** [normalizeTitleKey(it.title)]; [None] is the TypeError raised when the
    title is not a string. *)
Definition itemKey (it : Item) : option string :=
  match title it with
  | JString t => Some (normalizeTitleKey t)
  | _ => None
  end.

(** [seen.has(key)], for the set [seen] kept as the list of its elements,
    the latest first. *)
Definition has (key : string) (seen : list string) : bool :=
  existsb (String.eqb key) seen.

(** *** [dedupeWithinDay]

    The loop over [day], on the set [seen] and the array [out]. *)
Fixpoint dedupeLoop (day : list Item) (seen : list string) (out : list Item)
  : list Item :=
  match day with
  | [] => out
  | it :: rest =>
      if negb (isStrictItem it) then dedupeLoop rest seen out
      else
        match itemKey it with
        | None => dedupeLoop rest seen out   (* not reached: the title is a string *)
        | Some key =>
            if has key seen then dedupeLoop rest seen out
            else
              let out' := out ++ [it] in
              if 5 <=? List.length out' then out'
              else dedupeLoop rest (key :: seen) out'
        end
  end.

Definition dedupeWithinDay (day : list Item) : list Item :=
  dedupeLoop day [] [].

(** [(days || []).map((day) => dedupeWithinDay(day)).slice(0)] *)
Definition sanitizePlanDays (days : StrictPlanDays) : StrictPlanDays :=
  map dedupeWithinDay days.

(** *** [mergePlanProgress] *)

(** [existing.map((it) => normalizeTitleKey(it.title))] *)
Fixpoint keysOf (day : list Item) : option (list string) :=
  match day with
  | [] => Some []
  | it :: rest =>
      match itemKey it, keysOf rest with
      | Some k, Some ks => Some (k :: ks)
      | _, _ => None
      end
  end.

(** The loop [for (const it of incoming[d])] on [existing] and [seen]. *)
Fixpoint appendLoop (inc : list Item) (seen : list string) (existing : list Item)
  : list Item :=
  match inc with
  | [] => existing
  | it :: rest =>
      if negb (isStrictItem it) then appendLoop rest seen existing
      else if 5 <=? List.length existing then existing
      else
        match itemKey it with
        | None => appendLoop rest seen existing   (* not reached *)
        | Some key =>
            if has key seen then appendLoop rest seen existing
            else appendLoop rest (key :: seen) (existing ++ [it])
        end
  end.

(** The body of [for (let d = 0; ...)] for one day: [existing] is [out[d]],
    or the fresh [[]] when [out] had no day [d]. *)
Definition mergeDay (existing inc : list Item) : option (list Item) :=
  match keysOf existing with
  | None => None
  | Some seen => Some (dedupeWithinDay (appendLoop inc seen existing))
  end.

(** The loop over [d], walking [out] and [incoming] side by side: days of
    [out] beyond [incoming.length] are kept as they are. *)
Fixpoint mergeDays (out incoming : StrictPlanDays) : option StrictPlanDays :=
  match incoming with
  | [] => Some out
  | inc :: incoming' =>
      let existing := match out with [] => [] | e :: _ => e end in
      match mergeDay existing inc with
      | None => None
      | Some day =>
          match mergeDays (tl out) incoming' with
          | None => None
          | Some days => Some (day :: days)
          end
      end
  end.

(** [None] is the TypeError of [normalizeTitleKey] on an existing item
    whose title is not a string. *)
Definition mergePlanProgress (prev incoming : StrictPlanDays)
  : option StrictPlanDays :=
  mergeDays prev incoming.

(** *** The within-day invariant

    A day is well kept when the normalized title keys of its items are
    defined and pairwise distinct and it has at most five items. *)
Definition DayOk (day : list Item) : Prop :=
  exists ks, keysOf day = Some ks /\ NoDup ks /\ List.length day <= 5.

Definition DocOk (doc : StrictPlanDays) : Prop := Forall DayOk doc.

(** A day is clean when, moreover, every item passes [isStrictItem]. *)
Definition DayClean (day : list Item) : Prop :=
  Forall (fun it => isStrictItem it = true) day /\ DayOk day.

Definition DocClean (doc : StrictPlanDays) : Prop := Forall DayClean doc.

(** An item with the given title, for examples. *)
Definition activity (t : string) : Item :=
  mkItem (JString t) (JString "todo") JUndefined JUndefined.

End Plan.

(** ** The partial plan extractor ([Chat.tsx], [extractCompletedActivities]) *)

Module Extract.

Import Js Plan.

Definition DQUOTE : ascii := "034"%char.
Definition BACKSLASH : ascii := "092"%char.
Definition lbracket : ascii := "["%char.

(** The text ["planDays"], quotes included. *)
Definition planDaysKey : string :=
  String DQUOTE ("planDays" +:+ String DQUOTE EmptyString).

(** [\s*]: the number of characters taken and what follows them. *)
Fixpoint skipSpaces (s : string) : nat * string :=
  match s with
  | EmptyString => (0, EmptyString)
  | String c s' =>
      if is_space c then let '(n, r) := skipSpaces s' in (S n, r)
      else (0, s)
  end.

(** A match of ["planDays"\s*:\s*\[] at the head of [s]: its length and
    the text after it. *)
Definition matchHere (s : string) : option (nat * string) :=
  if startsWith s planDaysKey then
    let '(n1, r1) := skipSpaces (drop 10 s) in
    match r1 with
    | String c r2 =>
        if Ascii.eqb c ":"%char then
          let '(n2, r3) := skipSpaces r2 in
          match r3 with
          | String c' r4 =>
              if Ascii.eqb c' "["%char then Some (10 + n1 + 1 + n2 + 1, r4)
              else None
          | EmptyString => None
          end
        else None
    | EmptyString => None
    end
  else None.

(** [/"planDays"\s*:\s*\[/m.exec(jsonText)], searching from offset [pos]
    of which [s] is the text: the leftmost match gives
    [match.index + match[0].length] and the text from there on. *)
Fixpoint execPlanDays (s : string) (pos : nat) : option (nat * string) :=
  match matchHere s with
  | Some (len, rest) => Some (pos + len, rest)
  | None =>
      match s with
      | EmptyString => None
      | String _ s' => execPlanDays s' (S pos)
      end
  end.

(** The local variables of the scan (the cursor [i] apart). *)
Record Cursor : Type := mkCursor {
  inString : bool;
  escape : bool;
  depthSquare : Z;
  depthCurly : Z;
  currentDay : option (list Item);   (* [null] is [None] *)
  days : list (list Item);
  objStart : Z
}.

Definition initCursor : Cursor :=
  mkCursor false false 1 0 None [] (-1).

(** A cursor whose collected items all pass [isStrictItem] and whose
    closed days are not empty. *)
Definition CursorOk (st : Cursor) : Prop :=
  Forall (fun d => d <> [] /\ Forall (fun it => isStrictItem it = true) d) (days st) /\
  forall day, currentDay st = Some day ->
              Forall (fun it => isStrictItem it = true) day.

Section WithParser.

(** [JSON.parse] on a slice that starts with an opening and ends with a
    closing brace: the object read, or [None] for a SyntaxError. *)
Variable JSON_parse : string -> option Item.

(** One turn of the [while] loop at offset [i], where [jsonText[i]] is
    [ch]. *)
Definition step (jsonText : string) (i : nat) (ch : ascii) (st : Cursor)
  : Cursor :=
  let '(mkCursor inStr esc dSq dCu cur ds oStart) := st in
  if inStr then
    if esc then mkCursor inStr false dSq dCu cur ds oStart
    else if Ascii.eqb ch BACKSLASH then mkCursor inStr true dSq dCu cur ds oStart
    else if Ascii.eqb ch DQUOTE then mkCursor false esc dSq dCu cur ds oStart
    else st
  else if Ascii.eqb ch DQUOTE then mkCursor true esc dSq dCu cur ds oStart
  else if Ascii.eqb ch "["%char then
    let dSq' := (dSq + 1)%Z in
    mkCursor inStr esc dSq' dCu (if (dSq' =? 2)%Z then Some [] else cur) ds oStart
  else if Ascii.eqb ch "]"%char then
    match (dSq =? 2)%Z, cur with
    | true, Some day =>
        mkCursor inStr esc (dSq - 1)%Z dCu None
                 (if 0 <? List.length day then ds ++ [day] else ds) oStart
    | _, _ => mkCursor inStr esc (dSq - 1)%Z dCu cur ds oStart
    end
  else if Ascii.eqb ch "{"%char then
    let dCu' := (dCu + 1)%Z in
    mkCursor inStr esc dSq dCu' cur ds
             (if (dSq =? 2)%Z && (dCu' =? 1)%Z then Z.of_nat i else oStart)
  else if Ascii.eqb ch "}"%char then
    match (dSq =? 2)%Z && (dCu =? 1)%Z && (0 <=? oStart)%Z, cur with
    | true, Some day =>
        let text := slice (Z.to_nat oStart) (i + 1) jsonText in
        let day' :=
          match JSON_parse text with
          | Some obj => if isStrictItem obj then day ++ [obj] else day
          | None => day   (* ignore malformed partial *)
          end in
        mkCursor inStr esc dSq (dCu - 1)%Z (Some day') ds (-1)
    | _, _ => mkCursor inStr esc dSq (dCu - 1)%Z cur ds oStart
    end
  else st.

(** [while (i < jsonText.length && depthSquare > 0)]: [rest] is the text
    from offset [i] on. *)
Fixpoint scan (jsonText rest : string) (i : nat) (st : Cursor) : Cursor :=
  match rest with
  | EmptyString => st
  | String ch rest' =>
      if (0 <? depthSquare st)%Z
      then scan jsonText rest' (S i) (step jsonText i ch st)
      else st
  end.

Definition extractCompletedActivities (jsonText : string) : StrictPlanDays :=
  match execPlanDays jsonText 0 with
  | None => []
  | Some (i, rest) =>
      let st := scan jsonText rest i initCursor in
      map dedupeWithinDay
          (filter (fun d => 0 <? List.length d) (days st))
  end.

End WithParser.

End Extract.

(** ** A reader for flat JSON objects, to run the extractor on examples

    It reads objects whose members are strings without escapes, such as
    [{"title":"Zoo","short_description":"Animals"}], with no white space
    between tokens; anything else is a SyntaxError.  The theorems below hold
    for every parser and do not depend on it. *)

Module FlatJson.

Import Js Plan Extract.

(** The text up to the next double quote, and the text after that quote. *)
Fixpoint untilQuote (s : string) : option (string * string) :=
  match s with
  | EmptyString => None
  | String c s' =>
      if Ascii.eqb c DQUOTE then Some (EmptyString, s')
      else if Ascii.eqb c BACKSLASH then None
      else match untilQuote s' with
           | Some (a, r) => Some (String c a, r)
           | None => None
           end
  end.

Definition quoted (s : string) : option (string * string) :=
  match s with
  | String c s' => if Ascii.eqb c DQUOTE then untilQuote s' else None
  | EmptyString => None
  end.

Definition setField (k v : string) (it : Item) : Item :=
  if String.eqb k "title" then
    mkItem (JString v) (short_description it) (estimated_cost it) (image_url it)
  else if String.eqb k "short_description" then
    mkItem (title it) (JString v) (estimated_cost it) (image_url it)
  else if String.eqb k "estimated_cost" then
    mkItem (title it) (short_description it) (JString v) (image_url it)
  else if String.eqb k "image_url" then
    mkItem (title it) (short_description it) (estimated_cost it) (JString v)
  else it.

(** Members [ "k":"v" ] separated by commas, up to the closing brace that
    ends the text; [fuel] bounds the number of members. *)
Fixpoint members (fuel : nat) (s : string) (it : Item) : option Item :=
  match fuel with
  | O => None
  | S fuel' =>
      match quoted s with
      | Some (k, String c1 r1) =>
          if Ascii.eqb c1 ":"%char then
            match quoted r1 with
            | Some (v, String c2 r2) =>
                if Ascii.eqb c2 ","%char then members fuel' r2 (setField k v it)
                else if Ascii.eqb c2 "}"%char then
                  match r2 with
                  | EmptyString => Some (setField k v it)
                  | _ => None
                  end
                else None
            | _ => None
            end
          else None
      | _ => None
      end
  end.

Definition parse (s : string) : option Item :=
  match s with
  | String c s' =>
      if Ascii.eqb c "{"%char
      then members (String.length s) s' (mkItem JUndefined JUndefined JUndefined JUndefined)
      else None
  | EmptyString => None
  end.

(** Writing an example text with ['] for the double quote. *)
Fixpoint q (s : string) : string :=
  match s with
  | EmptyString => EmptyString
  | String c s' => String (if Ascii.eqb c "'"%char then DQUOTE else c) (q s')
  end.

End FlatJson.

(** ** The stream event handler ([Chat.tsx], the callback given to
    [parseSSEStream], and [handleSubmit]) *)

Module Chat.

Import Js Plan Extract.

(** The part of the component's state that decides the plan document:
    [finalizedRef.current], [jsonBufferRef.current] and the [planDays]
    state.  The reply text, the messages and the error text are written by
    the handler but never read back into these three. *)
Record State : Type := mkState {
  finalized : bool;
  jsonBuffer : string;
  planDays : StrictPlanDays
}.

(** The [planDays] member of a decoded [jsonFinal] payload. *)
Inductive FinalDays : Type :=
| DaysFalsy                          (* absent, [null], ...: [|| []] applies *)
| DaysArray (ds : StrictPlanDays)    (* an array of arrays *)
| DaysMalformed.                     (* any other truthy value: [sanitizePlanDays] throws *)

(** A decoded [jsonFinal] payload. *)
Inductive FinalDoc : Type :=
| FinalNull                          (* [null]: reading [parsed.replyText] throws *)
| FinalObj (pd : FinalDays).

(** A decoded [planImage] payload whose [dayIdx] and [itemIdx] are
    integers.  A payload with another value as an index (a fraction, a
    string such as ["length"], ...) is outside of what [applyPlanImage]
    renders: the source indexes the arrays with whatever value was
    decoded. *)
Record PlanImage : Type := mkPlanImage {
  dayIdx : Z;
  itemIdx : Z;
  pi_image_url : JsVal
}.

(** [l[i] = x] in place, for [i] inside [l]. *)
Fixpoint setNth {A : Type} (i : nat) (x : A) (l : list A) : list A :=
  match l, i with
  | [], _ => []
  | _ :: t, O => x :: t
  | h :: t, S i' => h :: setNth i' x t
  end.

(** The updater of the [planImage] case. *)
Definition applyPlanImage (p : PlanImage) (prev : StrictPlanDays) : StrictPlanDays :=
  match at_ prev (dayIdx p) with
  | Some day =>
      match at_ day (itemIdx p) with
      | Some it =>
          let it' := mkItem (title it) (short_description it) (estimated_cost it)
                            (pi_image_url p) in
          setNth (Z.to_nat (dayIdx p)) (setNth (Z.to_nat (itemIdx p)) it' day) prev
      | None => prev
      end
  | None => prev
  end.

Section WithParsers.

(** [JSON.parse] at its three call sites; [None] is a thrown exception
    (for [planImage], also one thrown by the destructuring).  The
    [planImage] payloads that decode are those with integer indices. *)
Variable JSON_parse : string -> option Item.
Variable parseFinal : string -> option FinalDoc.
Variable parsePlanImage : string -> option PlanImage.

Definition onJsonDelta (st : State) (data : string) : option State :=
  let buf := jsonBuffer st +:+ data in
  let progress := extractCompletedActivities JSON_parse buf in
  if 0 <? List.length progress then
    match mergePlanProgress (planDays st) progress with
    | Some merged => Some (mkState (finalized st) buf merged)
    | None => None
    end
  else Some (mkState (finalized st) buf (planDays st)).

Definition onPlanImage (st : State) (data : string) : State :=
  match parsePlanImage data with
  | Some p => mkState (finalized st) (jsonBuffer st) (applyPlanImage p (planDays st))
  | None => st
  end.

(** The [try]/[catch]/[finally] of the [jsonFinal] case: the latch is set
    as soon as the payload has been decoded, and the buffer is cleared in
    every case. *)
Definition onJsonFinal (st : State) (data : string) : State :=
  match parseFinal data with
  | None => mkState (finalized st) EmptyString (planDays st)
  | Some FinalNull => mkState true EmptyString (planDays st)
  | Some (FinalObj DaysFalsy) => mkState true EmptyString (sanitizePlanDays [])
  | Some (FinalObj (DaysArray ds)) => mkState true EmptyString (sanitizePlanDays ds)
  | Some (FinalObj DaysMalformed) => mkState true EmptyString (planDays st)
  end.

(** The callback [(event, data) => ...]; [None] is an exception that
    nothing catches (the TypeError of [mergePlanProgress]). *)
Definition onEvent (st : State) (event data : string) : option State :=
  if finalized st &&
     (String.eqb event "jsonDelta" || String.eqb event "planImage"
      || String.eqb event "planImageError")
  then Some st
  else if String.eqb event "jsonDelta" then onJsonDelta st data
  else if String.eqb event "planImage" then Some (onPlanImage st data)
  else if String.eqb event "planImageError" then Some st
  else if String.eqb event "jsonFinal" then Some (onJsonFinal st data)
  else if String.eqb event "error" then Some st
  else Some st.

(** A run of [jsonDelta] events, one per payload. *)
Fixpoint onJsonDeltas (st : State) (payloads : list string) : option State :=
  match payloads with
  | [] => Some st
  | data :: rest =>
      match onEvent st "jsonDelta" data with
      | Some st' => onJsonDeltas st' rest
      | None => None
      end
  end.

(** A run of events of any kind, as the reader loop delivers them: the
    first uncaught exception ends the run. *)
Fixpoint runEvents (st : State) (events : list (string * string)) : option State :=
  match events with
  | [] => Some st
  | (event, data) :: rest =>
      match onEvent st event data with
      | Some st' => runEvents st' rest
      | None => None
      end
  end.

End WithParsers.

(** [handleSubmit] on the trimmed input [text]: a new planning turn starts
    unless the text is empty or a turn is loading. *)
Definition handleSubmit (text : string) (loading : bool) (st : State) : State :=
  if String.eqb text EmptyString || loading then st
  else mkState false EmptyString [].

End Chat.

(** ** The drag-and-drop mutators ([Content.tsx]) *)

Module Reorder.

Import Js Plan.

Record Pos : Type := mkPos { day : Z; index : Z }.

(** The fields of [DragState] read at drop time. *)
Record DragState : Type := mkDrag {
  fromDay : Z;
  fromIndex : Z;
  data : Item
}.

(** [l.splice(i, 1)] and [l.splice(i, 0, x)], for [i] inside [l]. *)
Definition removeAt {A : Type} (i : nat) (l : list A) : list A :=
  firstn i l ++ skipn (S i) l.

Definition insertAt {A : Type} (i : nat) (x : A) (l : list A) : list A :=
  firstn i l ++ x :: skipn i l.

(** The array [copy] after [copy[d]] has become [d']. *)
Definition setDay (d : nat) (d' : list Item) (copy : StrictPlanDays) : StrictPlanDays :=
  firstn d copy ++ d' :: skipn (S d) copy.

(** [Math.max(0, Math.min(i, n))] *)
Definition clamp (i : Z) (n : nat) : nat :=
  Z.to_nat (Z.max 0 (Z.min i (Z.of_nat n))).

(** The updater of [performReorder]. *)
Definition performReorder (prev : StrictPlanDays) (day fromIndex toIndex : Z)
  : StrictPlanDays :=
  match at_ prev day with
  | None => prev
  | Some d =>
      if (fromIndex <? 0)%Z || (Z.of_nat (List.length d) <=? fromIndex)%Z then prev
      else
        match nth_error d (Z.to_nat fromIndex) with
        | None => prev   (* not reached *)
        | Some moved =>
            let d1 := removeAt (Z.to_nat fromIndex) d in
            let clamped := clamp toIndex (List.length d1) in
            setDay (Z.to_nat day) (insertAt clamped moved d1) prev
        end
  end.

(** The updater of [performCrossDayMove].  When both positions name the
    same day, [src] and [dst] are one array: the insertion sees the
    removal. *)
Definition performCrossDayMove (prev : StrictPlanDays) (from to : Pos) (data : Item)
  : StrictPlanDays :=
  match at_ prev (day from), at_ prev (day to) with
  | Some src, Some dst =>
      if (index from <? 0)%Z || (Z.of_nat (List.length src) <=? index from)%Z then prev
      else
        let moved := nth_error src (Z.to_nat (index from)) in
        let src' := removeAt (Z.to_nat (index from)) src in
        let dst0 := if (day from =? day to)%Z then src' else dst in
        let insertIndex := clamp (index to) (List.length dst0) in
        let item := match moved with Some m => m | None => data end in
        setDay (Z.to_nat (day to)) (insertAt insertIndex item dst0)
               (setDay (Z.to_nat (day from)) src' prev)
  | _, _ => prev
  end.

Definition computeFinalTarget (d : DragState) (t : option Pos) (days : StrictPlanDays)
  : Pos :=
  match t with
  | None => mkPos (fromDay d) (fromIndex d)
  | Some t =>
      let maxDay := Z.max 0 (Z.of_nat (List.length days) - 1) in
      let day := Z.max 0 (Z.min (day t) maxDay) in
      let maxIndex := match at_ days day with
                      | Some l => Z.of_nat (List.length l)
                      | None => 0%Z
                      end in
      mkPos day (Z.max 0 (Z.min (index t) maxIndex))
  end.

(** The plan update of [onGlobalPointerUp]: the target is computed from
    the rendered [planDays], the move is applied to the state [prev]. *)
Definition onGlobalPointerUp (drag : DragState) (dropTarget : option Pos)
           (planDays prev : StrictPlanDays) : StrictPlanDays :=
  let finalTarget := computeFinalTarget drag dropTarget planDays in
  if negb (day finalTarget =? fromDay drag)%Z then
    performCrossDayMove prev (mkPos (fromDay drag) (fromIndex drag)) finalTarget (data drag)
  else performReorder prev (fromDay drag) (fromIndex drag) (index finalTarget).

End Reorder.

(** ** The pager of the calendar and map views ([Content.tsx], [onPrev],
    [onNext], [switchToCalendar]) *)

Module Pager.

Inductive View : Type := Map | Calendar.

Definition PAGE_SIZE : nat := 4.

(** The navigation state: [view], [currentDay] and [pageStart].  The three
    are non-negative integers at every write; the truncated subtraction of
    [nat] is [Math.max(0, a - b)]. *)
Record Nav : Type := mkNav {
  view : View;
  currentDay : nat;
  pageStart : nat
}.

(** [Math.min(pageStart + PAGE_SIZE, totalDays)] *)
Definition pageEnd (totalDays : nat) (nav : Nav) : nat :=
  Nat.min (pageStart nav + PAGE_SIZE) totalDays.

(** [planDays.slice(pageStart, pageEnd)] *)
Definition daysForPage {A : Type} (planDays : list A) (nav : Nav) : list A :=
  firstn (pageEnd (List.length planDays) nav - pageStart nav)
         (skipn (pageStart nav) planDays).

Definition canPrev (nav : Nav) : bool :=
  match view nav with
  | Map => 0 <? currentDay nav
  | Calendar => 0 <? pageStart nav
  end.

(** In the Map view the test is [currentDay < totalDays - 1]; no
    [currentDay] passes it when [totalDays] is 0, with either subtraction. *)
Definition canNext (totalDays : nat) (nav : Nav) : bool :=
  match view nav with
  | Map => currentDay nav <? totalDays - 1
  | Calendar => pageEnd totalDays nav <? totalDays
  end.

(** [Math.max(0, Math.floor(Math.max(0, totalDays - 1) / PAGE_SIZE) * PAGE_SIZE)] *)
Definition maxStart (totalDays : nat) : nat :=
  ((totalDays - 1) / PAGE_SIZE) * PAGE_SIZE.

Definition onPrev (nav : Nav) : Nav :=
  match view nav with
  | Map => mkNav Map (currentDay nav - 1) (pageStart nav)
  | Calendar =>
      let ns := pageStart nav - PAGE_SIZE in
      mkNav Calendar ns ns
  end.

Definition onNext (totalDays : nat) (nav : Nav) : Nav :=
  match view nav with
  | Map => mkNav Map (Nat.min (totalDays - 1) (currentDay nav + 1)) (pageStart nav)
  | Calendar =>
      let ns := Nat.min (maxStart totalDays) (pageStart nav + PAGE_SIZE) in
      mkNav Calendar ns ns
  end.

Definition switchToCalendar (nav : Nav) : Nav :=
  let aligned := (currentDay nav / PAGE_SIZE) * PAGE_SIZE in
  mkNav Calendar aligned aligned.

(** A page start the calendar can show: a multiple of the page size, not
    beyond the last page. *)
Definition PageOk (totalDays : nat) (nav : Nav) : Prop :=
  pageStart nav mod PAGE_SIZE = 0 /\ pageStart nav <= maxStart totalDays.

End Pager.

(** ** The server side ([server/dist/routers/chat.js]) *)

Module Server.

Import Js.

(** *** [coerceCost] *)

Definition headIsWord (s : string) : bool :=
  match s with
  | EmptyString => false
  | String c _ => is_word c
  end.

(** [w] at the head of [s], with a word boundary after it. *)
Definition wordHere (w s : string) : bool :=
  startsWith s w && negb (headIsWord (drop (String.length w) s)).

(** [/\bw\b/.test(s)] for a word [w]; [prevWord] tells that the character
    before [s] is a word character. *)
Fixpoint hasWordFrom (w : string) (prevWord : bool) (s : string) : bool :=
  match s with
  | EmptyString => false
  | String c s' =>
      (negb prevWord && wordHere w s) || hasWordFrom w (is_word c) s'
  end.

(** [/\$0\b/.test(s)] *)
Fixpoint hasDollarZero (s : string) : bool :=
  match s with
  | EmptyString => false
  | String _ s' => wordHere "$0" s || hasDollarZero s'
  end.

(** The en dash U+2013 and the em dash U+2014, as UTF-8 texts. *)
Definition enDash : string := "–".
Definition emDash : string := "—".

(** [.replace(/[–—]/g, "-")] *)
Fixpoint replaceDashes (s : string) : string :=
  match s with
  | EmptyString => EmptyString
  | String c1 s1 =>
      match s1 with
      | String c2 (String c3 r) =>
          if (nat_of_ascii c1 =? 226) && (nat_of_ascii c2 =? 128)
             && ((nat_of_ascii c3 =? 147) || (nat_of_ascii c3 =? 148))
          then String "-"%char (replaceDashes r)
          else String c1 (replaceDashes s1)
      | _ => String c1 (replaceDashes s1)
      end
  end.

(** [.replace(/\bto\b/g, "-")] *)
Fixpoint replaceTo (prevWord : bool) (s : string) : string :=
  match s with
  | EmptyString => EmptyString
  | String c1 s1 =>
      match s1 with
      | String c2 s2 =>
          if negb prevWord && Ascii.eqb c1 "t"%char && Ascii.eqb c2 "o"%char
             && negb (headIsWord s2)
          then String "-"%char (replaceTo true s2)
          else String c1 (replaceTo (is_word c1) s1)
      | EmptyString => String c1 EmptyString
      end
  end.

(** [.replace(/~|\s+/g, " ")] *)
Fixpoint replaceTildeSpaces (inRun : bool) (s : string) : string :=
  match s with
  | EmptyString => EmptyString
  | String c s' =>
      if Ascii.eqb c "~"%char then String " "%char (replaceTildeSpaces false s')
      else if is_space c then
        if inRun then replaceTildeSpaces true s'
        else String " "%char (replaceTildeSpaces true s')
      else String c (replaceTildeSpaces false s')
  end.

(** [.match(/\d{1,6}/g) || []]: [run] is the match under way. *)
Fixpoint digitRuns (run : string) (s : string) : list string :=
  match s with
  | EmptyString => if String.eqb run EmptyString then [] else [run]
  | String c s' =>
      if is_digit c then
        if String.length run =? 6 then run :: digitRuns (String c EmptyString) s'
        else digitRuns (run +:+ String c EmptyString) s'
      else if String.eqb run EmptyString then digitRuns EmptyString s'
      else run :: digitRuns EmptyString s'
  end.

(** [parseInt(n, 10)] on a run of digits. *)
Definition parseInt (ds : string) : N :=
  fold_left (fun acc c => (acc * 10 + (N_of_ascii c - 48))%N)
            (list_ascii_of_string ds) 0%N.

(** The decimal text of a number, as in a template literal. *)
Definition showN (n : N) : string := NilZero.string_of_uint (N.to_uint n).

Fixpoint allDollars (s : string) : bool :=
  match s with
  | EmptyString => true
  | String c s' => Ascii.eqb c "$"%char && allDollars s'
  end.

Definition coerceCost (input : option string) : option string :=
  match input with
  | None => None
  | Some input =>
      if String.eqb input EmptyString then None   (* [!input] *)
      else
        let raw := toLowerCase (trim input) in
        if hasWordFrom "free" false raw || hasDollarZero raw then Some "free"
        else
          let sepNormalized :=
            trim (replaceTildeSpaces false (replaceTo false (replaceDashes raw))) in
          let nums := map parseInt (digitRuns EmptyString sepNormalized) in
          match nums with
          | [n] => Some ("$" +:+ showN n)
          | a :: b :: _ =>
              let '(a, b) := if (b <? a)%N then (b, a) else (a, b) in
              if (a =? b)%N then Some ("$" +:+ showN a)
              else Some ("$" +:+ showN a +:+ enDash +:+ "$" +:+ showN b)
          | [] =>
              if allDollars raw && (String.length raw =? 2)
              then Some ("$10" +:+ enDash +:+ "$25")
              else if allDollars raw && (String.length raw =? 3)
              then Some ("$25" +:+ enDash +:+ "$50")
              else if allDollars raw && (4 <=? String.length raw)
              then Some ("$50" +:+ enDash +:+ "$100")
              else None
          end
  end.

(** A run of [n] dollar signs. *)
Fixpoint dollars (n : nat) : string :=
  match n with
  | O => EmptyString
  | S n' => String "$"%char (dollars n')
  end.

(** *** Items and suggestions *)

(** An entry (other than [null]) of the array [parsed.suggestions], which
    the handlers do not validate, through the four members that are read.
    [name] is [None] when the member is missing or is not a string.  [why]
    and [category] are the texts of the members, the empty string for a
    falsy one.  [estSpend] is [None] for a falsy member, else its text
    [String(s.estSpend)]. *)
Record Suggestion : Type := mkSuggestion {
  name : option string;
  category : string;
  why : string;
  estSpend : option string
}.

Record StrictItem : Type := mkStrictItem {
  title : string;
  short_description : string;
  estimated_cost : option string
}.

(** The router's [normalizeTitleKey] has the text of the one in
    [Chat.tsx]. *)
Definition normalizeTitleKey : string -> string := Plan.normalizeTitleKey.

Definition has (key : string) (seen : list string) : bool :=
  existsb (String.eqb key) seen.

Fixpoint dedupeLoop (day : list StrictItem) (seen : list string) : list StrictItem :=
  match day with
  | [] => []
  | item :: rest =>
      let key := normalizeTitleKey (title item) in
      if has key seen then dedupeLoop rest seen
      else item :: dedupeLoop rest (key :: seen)
  end.

Definition dedupeWithinDayByTitle (day : list StrictItem) : list StrictItem :=
  dedupeLoop day [].

(** *** [suggestionsToStrictDays] *)

(** The item made of a suggestion.  [None] stands for the item of a
    suggestion without a string [name]: its [title] is not a string, and
    every reader of the fallback computes [normalizeTitleKey] of the title
    before anything else, which throws a TypeError on it. *)
Definition itemOfSuggestion (s : Suggestion) : option StrictItem :=
  match name s with
  | Some n =>
      Some (mkStrictItem n
              (if negb (String.eqb (why s) EmptyString) then why s else category s)
              (coerceCost (estSpend s)))
  | None => None
  end.

(** The days of the fallback pool, for [nights] an integer or absent.  An
    entry is [None] where the source stores [undefined] ([items[i % denom]]
    for an empty [items]) or an item whose title is not a string: reading
    the title key of either throws a TypeError. *)
Definition suggestionsToStrictDays (suggestions : list Suggestion) (nights : option Z)
  : list (list (option StrictItem)) :=
  let days := Z.to_nat (Z.max 1 (match nights with Some n => n | None => 1%Z end)) in
  let items := map itemOfSuggestion suggestions in
  let perDay := (List.length items + days - 1) / days in   (* Math.ceil *)
  let perDay := Nat.min 5 (Nat.max 3 perDay) in
  let needed := days * perDay in
  let denom := Nat.max 1 (List.length items) in
  let pool := map (fun i => match nth_error items (i mod denom) with
                            | Some entry => entry
                            | None => None
                            end) (seq 0 needed) in
  map (fun d => firstn perDay (skipn (d * perDay) pool)) (seq 0 days).

(** *** [enforceDayCount3to5] *)

Definition needMin : nat := 3.

(** [for (const cand of pool)]: [None] is the TypeError of
    [normalizeTitleKey(cand.title)] on a candidate that is [undefined] or
    has no string title. *)
Fixpoint fillFromPool (pool : list (option StrictItem))
         (day : list StrictItem) (titles : list string)
  : option (list StrictItem * list string) :=
  match pool with
  | [] => Some (day, titles)
  | None :: _ => None
  | Some cand :: rest =>
      let key := normalizeTitleKey (title cand) in
      if has key titles then fillFromPool rest day titles
      else
        let day' := day ++ [cand] in
        let titles' := key :: titles in
        if needMin <=? List.length day' then Some (day', titles')
        else fillFromPool rest day' titles'
  end.

(** [for (const pool of tryPools)] *)
Fixpoint fillFromPools (tryPools : list (list (option StrictItem)))
         (day : list StrictItem) (titles : list string)
  : option (list StrictItem) :=
  match tryPools with
  | [] => Some day
  | pool :: rest =>
      match fillFromPool pool day titles with
      | None => None
      | Some (day', titles') =>
          if needMin <=? List.length day' then Some day'
          else fillFromPools rest day' titles'
      end
  end.

(** The body of [for (let i = 0; i < daysCount; i++)]. *)
Definition enforceDay (fallback : list (list (option StrictItem)))
           (planDays : list (list StrictItem)) (i : nat) : option (list StrictItem) :=
  let day := dedupeWithinDayByTitle (nth i planDays []) in
  let day := firstn 5 day in
  let titles := map (fun a => normalizeTitleKey (title a)) day in
  let filled :=
    if List.length day <? needMin then
      let tryPools :=
        (match nth_error fallback i with Some p => [p] | None => [] end)
        ++ (if 0 <? List.length fallback then [List.concat fallback] else []) in
      fillFromPools tryPools day titles
    else Some day in
  option_map (firstn 5) filled.

Fixpoint sequence {A : Type} (l : list (option A)) : option (list A) :=
  match l with
  | [] => Some []
  | None :: _ => None
  | Some x :: t =>
      match sequence t with
      | Some xs => Some (x :: xs)
      | None => None
      end
  end.

(** [suggestionsToStrictDays(suggestions || [], nights ?? daysCount)] *)
Definition fallbackDays (planDays : list (list StrictItem))
           (suggestions : list Suggestion) (nights : option Z)
  : list (list (option StrictItem)) :=
  let daysCount := Nat.max (List.length planDays) 1 in
  suggestionsToStrictDays suggestions
    (Some (match nights with Some n => n | None => Z.of_nat daysCount end)).

(** [None] is a TypeError raised while a day is filled. *)
Definition enforceDayCount3to5 (planDays : list (list StrictItem))
           (suggestions : list Suggestion) (nights : option Z)
  : option (list (list StrictItem)) :=
  let daysCount := Nat.max (List.length planDays) 1 in
  let fallback := fallbackDays planDays suggestions nights in
  sequence (map (enforceDay fallback planDays) (seq 0 daysCount)).

(** The dedup key of an item. *)
Definition keyOf (a : StrictItem) : string := normalizeTitleKey (title a).

(** Sample data for the examples: a suggestion and the item made of it. *)
Definition place (n : string) : Suggestion :=
  mkSuggestion (Some n) "sight" EmptyString None.
Definition placeItem (n : string) : StrictItem := mkStrictItem n "sight" None.

(** A suggestion that has a string [name], as the JSON schema asks. *)
Definition Named (s : Suggestion) : Prop := name s <> None.

(** *** [sseEvent] *)

(** What [sseEvent(res, event, data)] writes for a payload that is a
    string (or has been through [JSON.stringify]). *)
Definition sseEvent (event payload : string) : string :=
  "event: " +:+ event +:+ NL +:+ "data: " +:+ payload +:+ NL +:+ NL.

(** The text of a response that sends the given events in order. *)
Fixpoint sseStream (events : list (string * string)) : string :=
  match events with
  | [] => EmptyString
  | (event, payload) :: rest => sseEvent event payload +:+ sseStream rest
  end.

(** An event that the framing carries unchanged: no line feed in the name
    or the payload, no carriage return at the end of either, and a payload
    other than the end marker. *)
Definition Framable (e : string * string) : Prop :=
  hasChar LF (fst e) = false /\ hasChar LF (snd e) = false /\
  stripTrailingCR (fst e) = fst e /\ stripTrailingCR (snd e) = snd e /\
  snd e <> "[DONE]".

(** *** The canonical cost forms *)

(** ["free"], ["$N"] or ["$A–$B"] with [A < B]. *)
Definition CanonicalCost (s : string) : Prop :=
  s = "free" \/
  (exists n, s = "$" +:+ showN n) \/
  (exists a b, (a < b)%N /\ s = "$" +:+ showN a +:+ enDash +:+ "$" +:+ showN b).

(** *** [normalizeStrictDays] *)

(** A JavaScript value as [typeof] and [??] see it. *)
Inductive Raw : Type :=
| RUndefined
| RNull
| RString (s : string)
| ROther.   (* neither nullish nor a string *)

(** [a ?? b] *)
Definition nullish (a b : Raw) : Raw :=
  match a with
  | RUndefined | RNull => b
  | _ => a
  end.

(** A value in item position, through the six members that are read with
    [it?.member]; a value that is not an object has them all [undefined]. *)
Record RawItem : Type := mkRawItem {
  raw_title : Raw;
  raw_short_description : Raw;
  raw_short_desc : Raw;
  raw_estimated_cost : Raw;
  raw_est_cost : Raw;
  raw_estSpend : Raw
}.

Inductive RawDay : Type :=
| DayNotArray
| DayArray (items : list RawItem).

Inductive RawPlan : Type :=
| PlanNotArray
| PlanArray (days : list RawDay).

(** The body of [for (const it of day)]; [None] is [return null]. *)
Definition normalizeItem (it : RawItem) : option StrictItem :=
  let shortDesc := nullish (raw_short_description it) (raw_short_desc it) in
  let estRaw :=
    nullish (nullish (raw_estimated_cost it) (raw_est_cost it)) (raw_estSpend it) in
  match raw_title it, shortDesc with
  | RString title, RString shortDesc =>
      let normalized :=
        coerceCost (match estRaw with RString e => Some e | _ => None end) in
      Some (mkStrictItem title shortDesc normalized)
  | _, _ => None
  end.

Fixpoint normalizeItems (items : list RawItem) : option (list StrictItem) :=
  match items with
  | [] => Some []
  | it :: rest =>
      match normalizeItem it with
      | None => None
      | Some one =>
          match normalizeItems rest with
          | None => None
          | Some strictDay => Some (one :: strictDay)
          end
      end
  end.

(** The body of [for (const day of input)]. *)
Definition normalizeDay (day : RawDay) : option (list StrictItem) :=
  match day with
  | DayNotArray => None
  | DayArray items =>
      if (List.length items <? 3) || (5 <? List.length items) then None
      else normalizeItems items
  end.

Fixpoint normalizeDays (days : list RawDay) : option (list (list StrictItem)) :=
  match days with
  | [] => Some []
  | day :: rest =>
      match normalizeDay day with
      | None => None
      | Some strictDay =>
          match normalizeDays rest with
          | None => None
          | Some out => Some (strictDay :: out)
          end
      end
  end.

(** [None] is the [null] result. *)
Definition normalizeStrictDays (input : RawPlan) : option (list (list StrictItem)) :=
  match input with
  | PlanNotArray => None
  | PlanArray days => normalizeDays days
  end.

(** *** The plan of a response, when no Places key is configured

    The steps of [postChat] and [postChatStream] between the decoding of
    the model's JSON and the reply, with [PLACES_API_KEY] empty:
    [normalizeStrictDays] on a truthy [parsed.planDays] ([None] is a falsy
    one), the suggestions as the fallback, then [enforceDayCount3to5].
    [None] is a TypeError: the fallback of an empty suggestion list holds
    [undefined] items, and the fallback of a suggestion without a string
    name holds an item without a string title; [dedupeWithinDayByTitle]
    fails on both. *)
Definition planWithoutPlaces (planDays : option RawPlan)
           (suggestions : list Suggestion) (nights : option Z)
  : option (list (list StrictItem)) :=
  let normalized :=
    match planDays with
    | Some input => normalizeStrictDays input
    | None => None
    end in
  let chosen :=
    match normalized with
    | Some (d :: ds) => Some (d :: ds)
    | _ => sequence (map sequence (suggestionsToStrictDays suggestions nights))
    end in
  match chosen with
  | Some days => enforceDayCount3to5 days suggestions nights
  | None => None
  end.

(** An item as [normalizeStrictDays] reads it from a raw one: the title
    and the description are the raw strings, the cost, if kept, is
    canonical. *)
Definition NormalizedFrom (it : RawItem) (one : StrictItem) : Prop :=
  raw_title it = RString (title one) /\
  nullish (raw_short_description it) (raw_short_desc it)
  = RString (short_description one) /\
  forall c, estimated_cost one = Some c -> CanonicalCost c.

(** The day that [enforceDayCount3to5] starts from at position [i]:
    [dedupeWithinDayByTitle(planDays[i] || []).slice(0, 5)]. *)
Definition baseDay (planDays : list (list StrictItem)) (i : nat) : list StrictItem :=
  firstn 5 (dedupeWithinDayByTitle (nth i planDays [])).

End Server.

(* ===================================================================== *)
(** * Part II: the properties *)
(* ===================================================================== *)

(** ** Strings *)

Lemma append_empty_r (s : string) : s +:+ EmptyString = s.
Proof. induction s as [|c s IH]; simpl; [reflexivity | now rewrite IH]. Qed.

Lemma append_assoc (a b c : string) : (a +:+ b) +:+ c = a +:+ (b +:+ c).
Proof. induction a as [|x a IH]; simpl; [reflexivity | now rewrite IH]. Qed.

Lemma length_append (a b : string) :
  String.length (a +:+ b) = String.length a + String.length b.
Proof. induction a as [|x a IH]; simpl; [reflexivity | now rewrite IH]. Qed.

(** Induction that follows a recursion two characters at a time. *)
Lemma string_pair_ind (P : string -> Prop) :
  P EmptyString ->
  (forall c, P (String c EmptyString)) ->
  (forall c c' s, P s -> P (String c' s) -> P (String c (String c' s))) ->
  forall s, P s.
Proof.
  intros H0 H1 H2 s.
  assert (H : P s /\ forall c, P (String c s)).
  { induction s as [|c' s [IHa IHb]].
    - split; [exact H0 | exact H1].
    - split; [apply IHb | intro c; apply H2; [exact IHa | apply IHb]]. }
  exact (proj1 H).
Qed.

(** ** The frame decoder: chunk boundaries do not matter *)

Section FrameDecoder.

Import Js Sse.

Lemma consHead_not_nil c l : consHead c l <> [].
Proof. destruct l; discriminate. Qed.

Lemma splitFrames_not_nil s : splitFrames s <> [].
Proof.
  destruct s as [|c [|c' s]]; simpl; try discriminate.
  destruct (Ascii.eqb c LF && Ascii.eqb c' LF); [discriminate | apply consHead_not_nil].
Qed.

(** Unfolding [splitFrames] at a text of two characters or more. *)
Lemma splitFrames_step c c' s :
  splitFrames (String c (String c' s)) =
  if Ascii.eqb c LF && Ascii.eqb c' LF
  then EmptyString :: splitFrames s
  else consHead c (splitFrames (String c' s)).
Proof. reflexivity. Qed.

(** A text that splits into one fragment is that fragment. *)
Lemma splitFrames_single s f : splitFrames s = [f] -> f = s.
Proof.
  revert f. induction s as [|c|c c' s IHs IHs'] using string_pair_ind; intros f.
  - simpl. congruence.
  - simpl. congruence.
  - rewrite splitFrames_step.
    destruct (Ascii.eqb c LF && Ascii.eqb c' LF).
    + intros H. injection H as _ H. now apply splitFrames_not_nil in H.
    + destruct (splitFrames (String c' s)) as [|g [|g' gs]] eqn:E; simpl.
      * now apply splitFrames_not_nil in E.
      * intros H. injection H as <-. now rewrite (IHs' g eq_refl).
      * discriminate.
Qed.

Lemma removelast_consHead c f g l :
  removelast (consHead c (f :: g :: l)) = String c f :: removelast (g :: l).
Proof. reflexivity. Qed.

(** The fragments of [s1 +:+ s2]: the complete ones of [s1], then those
    of the residue of [s1] followed by [s2]. *)
Lemma splitFrames_app s1 s2 :
  splitFrames (s1 +:+ s2) =
  removelast (splitFrames s1)
    ++ splitFrames (last (splitFrames s1) EmptyString +:+ s2).
Proof.
  induction s1 as [|c|c c' s IHs IHs'] using string_pair_ind.
  - reflexivity.
  - reflexivity.
  - change (String c (String c' s) +:+ s2) with (String c (String c' (s +:+ s2))).
    rewrite !splitFrames_step.
    destruct (Ascii.eqb c LF && Ascii.eqb c' LF) eqn:Hd.
    + rewrite IHs.
      destruct (splitFrames s) as [|f fs] eqn:E;
        [now apply splitFrames_not_nil in E|].
      reflexivity.
    + change (String c' (s +:+ s2)) with (String c' s +:+ s2).
      rewrite IHs'.
      destruct (splitFrames (String c' s)) as [|f [|g fs]] eqn:E.
      * now apply splitFrames_not_nil in E.
      * apply splitFrames_single in E. subst f.
        cbn [removelast consHead last app].
        change ((String c (String c' s)) +:+ s2)
          with (String c (String c' (s +:+ s2))).
        rewrite splitFrames_step, Hd. reflexivity.
      * rewrite removelast_consHead.
        cbn [consHead last]. cbn [removelast app]. reflexivity.
Qed.

(** The residue of a split holds no delimiter. *)
Lemma splitFrames_last s :
  splitFrames (last (splitFrames s) EmptyString) = [last (splitFrames s) EmptyString].
Proof.
  induction s as [|c|c c' s IHs IHs'] using string_pair_ind.
  - reflexivity.
  - reflexivity.
  - rewrite splitFrames_step.
    destruct (Ascii.eqb c LF && Ascii.eqb c' LF) eqn:Hd.
    + destruct (splitFrames s) as [|f fs] eqn:E;
        [now apply splitFrames_not_nil in E|].
      exact IHs.
    + destruct (splitFrames (String c' s)) as [|f [|g fs]] eqn:E.
      * now apply splitFrames_not_nil in E.
      * apply splitFrames_single in E. subst f.
        cbn [consHead last].
        rewrite splitFrames_step, Hd.
        cbn [last] in IHs'. rewrite IHs'. reflexivity.
      * exact IHs'.
Qed.

Lemma last_app_not_nil {A} (l1 l2 : list A) d :
  l2 <> [] -> last (l1 ++ l2) d = last l2 d.
Proof.
  intros H. induction l1 as [|x l1 IH]; [reflexivity|].
  simpl. rewrite IH. destruct (l1 ++ l2) eqn:E; [|reflexivity].
  apply app_eq_nil in E. tauto.
Qed.

(** Feeding [c1 +:+ c2] at once is feeding [c1], then [c2]. *)
Lemma feed_app buffer c1 c2 :
  feed buffer (c1 +:+ c2) =
  (fst (feed (fst (feed buffer c1)) c2),
   snd (feed buffer c1) ++ snd (feed (fst (feed buffer c1)) c2)).
Proof.
  unfold feed. cbn [fst snd].
  rewrite <- append_assoc, splitFrames_app.
  set (r := last (splitFrames (buffer +:+ c1)) EmptyString).
  rewrite last_app_not_nil by apply splitFrames_not_nil.
  rewrite removelast_app by apply splitFrames_not_nil.
  now rewrite flat_map_app.
Qed.

(** A buffer without delimiter is given back by an empty chunk. *)
Lemma feed_empty buffer :
  splitFrames buffer = [buffer] -> feed buffer EmptyString = (buffer, []).
Proof.
  intros H. unfold feed. rewrite append_empty_r, H. reflexivity.
Qed.

Lemma feed_residue buffer chunk :
  splitFrames (fst (feed buffer chunk)) = [fst (feed buffer chunk)].
Proof. unfold feed. cbn [fst]. apply splitFrames_last. Qed.

Lemma feedAll_join buffer chunks :
  splitFrames buffer = [buffer] ->
  feedAll buffer chunks = feed buffer (joinChunks chunks).
Proof.
  revert buffer. induction chunks as [|c cs IH]; intros buffer Hb.
  - simpl. now rewrite feed_empty.
  - cbn [feedAll].
    change (joinChunks (c :: cs)) with (c +:+ joinChunks cs).
    rewrite feed_app.
    destruct (feed buffer c) as [b1 e1] eqn:E1. cbn [fst snd].
    assert (Hb1 : splitFrames b1 = [b1]).
    { pose proof (feed_residue buffer c) as H. now rewrite E1 in H. }
    rewrite (IH b1 Hb1).
    now destruct (feed b1 (joinChunks cs)).
Qed.

(** Claim C4.  The frame decoder is invariant under chunk splitting: for
    every way of cutting a text into chunks (two or more, or any number,
    empty chunks included), feeding the chunks in order to a fresh
    [parseSSEStream] closure makes exactly the callbacks, in the same order,
    that feeding the whole text as one chunk makes; the residual buffer is
    the same as well. *)
Theorem parseSSEStream_chunk_invariant (chunks : list string) :
  feedAll EmptyString chunks = feed EmptyString (joinChunks chunks).
Proof. apply feedAll_join. reflexivity. Qed.

End FrameDecoder.

(** ** Dedup and merge: the within-day invariant *)

Section WithinDay.

Import Js Plan.

Lemma has_In key seen : has key seen = true <-> In key seen.
Proof.
  unfold has. rewrite existsb_exists. split.
  - intros [x [Hx He]]. apply String.eqb_eq in He. now subst.
  - intros H. exists key. split; [exact H | apply String.eqb_refl].
Qed.

Lemma has_not_In key seen : has key seen = false <-> ~ In key seen.
Proof.
  rewrite <- has_In. destruct (has key seen); split; intro H; congruence.
Qed.

Lemma isStrictItem_key it :
  isStrictItem it = true -> exists t, title it = JString t.
Proof.
  unfold isStrictItem. destruct (title it) as [|t|]; simpl; try discriminate.
  intros _. now exists t.
Qed.

Lemma keysOf_app a b :
  keysOf (a ++ b) =
  match keysOf a, keysOf b with
  | Some x, Some y => Some (x ++ y)
  | _, _ => None
  end.
Proof.
  induction a as [|it a IH]; simpl.
  - now destruct (keysOf b).
  - rewrite IH. destruct (itemKey it), (keysOf a), (keysOf b); reflexivity.
Qed.

Lemma keysOf_length day ks : keysOf day = Some ks -> List.length ks = List.length day.
Proof.
  revert ks. induction day as [|it day IH]; simpl; intros ks H.
  - now injection H as <-.
  - destruct (itemKey it); [|discriminate].
    destruct (keysOf day) as [ks'|]; [|discriminate].
    injection H as <-. simpl. now rewrite (IH ks').
Qed.

Lemma NoDup_snoc (ks : list string) k : NoDup ks -> ~ In k ks -> NoDup (ks ++ [k]).
Proof.
  intros Hnd Hk. apply NoDup_app; [exact Hnd | repeat constructor; intros [] | ].
  intros x Hx [<-|[]]. exact (Hk Hx).
Qed.

Lemma dedupeLoop_cons it rest seen out :
  dedupeLoop (it :: rest) seen out =
  if negb (isStrictItem it) then dedupeLoop rest seen out
  else
    match itemKey it with
    | None => dedupeLoop rest seen out
    | Some key =>
        if has key seen then dedupeLoop rest seen out
        else if 5 <=? List.length (out ++ [it]) then out ++ [it]
             else dedupeLoop rest (key :: seen) (out ++ [it])
    end.
Proof. reflexivity. Qed.

Lemma appendLoop_cons it rest seen existing :
  appendLoop (it :: rest) seen existing =
  if negb (isStrictItem it) then appendLoop rest seen existing
  else if 5 <=? List.length existing then existing
  else
    match itemKey it with
    | None => appendLoop rest seen existing
    | Some key =>
        if has key seen then appendLoop rest seen existing
        else appendLoop rest (key :: seen) (existing ++ [it])
    end.
Proof. reflexivity. Qed.

(** The result of the dedup loop keeps the invariant, given that [seen]
    holds the keys of [out] and [out] has room. *)
Lemma dedupeLoop_ok day : forall seen out kso,
  keysOf out = Some kso -> NoDup kso ->
  (forall k, In k kso -> In k seen) ->
  List.length out <= 4 ->
  DayOk (dedupeLoop day seen out).
Proof.
  induction day as [|it day IH]; intros seen out kso Hk Hnd Hsub Hlen.
  - exists kso. repeat split; [exact Hk | exact Hnd | simpl; lia].
  - rewrite dedupeLoop_cons.
    destruct (isStrictItem it); cbn [negb]; [|now apply (IH seen out kso)].
    destruct (itemKey it) as [key|] eqn:Ekey; [|now apply (IH seen out kso)].
    destruct (has key seen) eqn:Hhas; [now apply (IH seen out kso)|].
    apply has_not_In in Hhas.
    assert (Hk' : keysOf (out ++ [it]) = Some (kso ++ [key])).
    { rewrite keysOf_app, Hk. simpl. now rewrite Ekey. }
    assert (Hnd' : NoDup (kso ++ [key])).
    { apply NoDup_snoc; [exact Hnd | intro Hin; exact (Hhas (Hsub _ Hin))]. }
    destruct (5 <=? List.length (out ++ [it])) eqn:E5.
    + exists (kso ++ [key]). repeat split; [exact Hk' | exact Hnd' |].
      rewrite length_app. simpl. lia.
    + apply (IH (key :: seen) (out ++ [it]) (kso ++ [key]) Hk' Hnd').
      * intros k Hin. apply in_app_or in Hin. destruct Hin as [Hin|[<-|[]]].
        -- right. now apply Hsub.
        -- now left.
      * apply Nat.leb_gt in E5. lia.
Qed.

Lemma dedupeWithinDay_ok day : DayOk (dedupeWithinDay day).
Proof.
  apply (dedupeLoop_ok day [] [] []); simpl;
    [reflexivity | constructor | tauto | lia].
Qed.

Lemma sanitizePlanDays_ok days : DocOk (sanitizePlanDays days).
Proof.
  unfold DocOk, sanitizePlanDays. apply Forall_forall. intros d Hd.
  apply in_map_iff in Hd. destruct Hd as [day [<- _]]. apply dedupeWithinDay_ok.
Qed.

Lemma DayOk_nil : DayOk [].
Proof. exists []. repeat split; [constructor | simpl; lia]. Qed.

Lemma mergeDay_ok existing inc :
  DayOk existing -> exists day, mergeDay existing inc = Some day /\ DayOk day.
Proof.
  intros [ks [Hk _]]. unfold mergeDay. rewrite Hk.
  eexists. split; [reflexivity | apply dedupeWithinDay_ok].
Qed.

Lemma mergeDays_ok incoming : forall out,
  DocOk out -> exists merged, mergeDays out incoming = Some merged /\ DocOk merged.
Proof.
  induction incoming as [|inc incoming IH]; intros out Hout; simpl.
  - now exists out.
  - assert (He : DayOk (match out with [] => [] | e :: _ => e end)).
    { destruct out as [|e out]; [apply DayOk_nil | now inversion Hout]. }
    destruct (mergeDay_ok _ inc He) as [day [-> Hday]].
    assert (Ht : DocOk (tl out)).
    { destruct out as [|e out]; [constructor | now inversion Hout]. }
    destruct (IH _ Ht) as [days [-> Hdays]].
    exists (day :: days). split; [reflexivity | now constructor].
Qed.

(** Claim C3.  Both write paths keep the within-day invariant: when every
    day of [prev] has pairwise distinct normalized title keys and at most 5
    items, [mergePlanProgress prev incoming] returns, for any candidate
    [incoming], a document of which every day again has pairwise distinct
    keys and at most 5 items; and the output of [sanitizePlanDays] has the
    property whatever its input is. *)
Theorem write_paths_keep_day_invariant (prev incoming days : StrictPlanDays) :
  (DocOk prev ->
   exists merged, mergePlanProgress prev incoming = Some merged /\ DocOk merged)
  /\ DocOk (sanitizePlanDays days).
Proof.
  split; [apply mergeDays_ok | apply sanitizePlanDays_ok].
Qed.

Lemma write_paths_keep_day_invariant_witness :
  exists merged,
    mergePlanProgress [[activity "Zoo"; activity "Pier"]]
                      [[activity "Visit Zoo"; activity "Museum"]; [activity "Beach"]]
    = Some merged /\ DocOk merged.
Proof.
  apply (write_paths_keep_day_invariant
           [[activity "Zoo"; activity "Pier"]]
           [[activity "Visit Zoo"; activity "Museum"]; [activity "Beach"]] []).
  constructor; [|constructor].
  exists ["zoo"; "pier"]. split; [reflexivity|]. split; [|simpl; lia].
  constructor; [simpl; intros [H|[]]; discriminate|].
  constructor; [intros []|constructor].
Defined.

(** *** Idempotence of the merge on clean documents *)

(** On strict items with fresh, pairwise distinct keys and enough room,
    the dedup loop appends them all. *)
Lemma dedupeLoop_id day : forall seen out ks,
  Forall (fun it => isStrictItem it = true) day ->
  keysOf day = Some ks -> NoDup ks ->
  (forall k, In k ks -> ~ In k seen) ->
  List.length out + List.length day <= 5 ->
  dedupeLoop day seen out = out ++ day.
Proof.
  induction day as [|it day IH]; intros seen out ks Hs Hk Hnd Hfresh Hlen.
  - now rewrite app_nil_r.
  - rewrite dedupeLoop_cons.
    inversion Hs as [|? ? Hit Hs']; subst. rewrite Hit. cbn [negb].
    simpl in Hk. destruct (itemKey it) as [key|]; [|discriminate].
    destruct (keysOf day) as [ks'|] eqn:Ek; [|discriminate].
    injection Hk as <-. inversion Hnd as [|? ? Hnotin Hnd']; subst.
    assert (Hh : has key seen = false).
    { apply has_not_In. apply Hfresh. now left. }
    rewrite Hh. cbn [List.length] in Hlen. rewrite length_app. cbn [List.length].
    destruct (5 <=? List.length out + 1) eqn:E5.
    + apply Nat.leb_le in E5.
      destruct day; [reflexivity | simpl in Hlen; lia].
    + rewrite (IH (key :: seen) (out ++ [it]) ks' Hs' eq_refl Hnd').
      * now rewrite <- app_assoc.
      * intros k Hin [<-|Hin']; [exact (Hnotin Hin)|].
        apply (Hfresh k); [now right | exact Hin'].
      * rewrite length_app. simpl. lia.
Qed.

Lemma dedupeWithinDay_clean day : DayClean day -> dedupeWithinDay day = day.
Proof.
  intros [Hs [ks [Hk [Hnd Hlen]]]].
  apply (dedupeLoop_id day [] [] ks Hs Hk Hnd); [intros k _ [] | simpl; lia].
Qed.

(** What the append loop adds: strict items with fresh, pairwise distinct
    keys, within the cap; and afterwards either the day is full or every
    strict candidate has its key in the day. *)
Lemma appendLoop_spec inc : forall seen existing,
  exists added ka,
    appendLoop inc seen existing = existing ++ added /\
    Forall (fun it => isStrictItem it = true) added /\
    keysOf added = Some ka /\ NoDup ka /\
    (forall k, In k ka -> ~ In k seen) /\
    (List.length existing <= 5 -> List.length (existing ++ added) <= 5) /\
    (5 <= List.length (existing ++ added) \/
     forall it, In it inc -> isStrictItem it = true ->
                exists k, itemKey it = Some k /\ (In k seen \/ In k ka)).
Proof.
  induction inc as [|it inc IH]; intros seen existing.
  - exists [], []. rewrite app_nil_r.
    split; [reflexivity|]. split; [constructor|]. split; [reflexivity|].
    split; [constructor|]. split; [intros k []|]. split; [tauto|].
    right. intros it [].
  - rewrite appendLoop_cons.
    destruct (isStrictItem it) eqn:Hit; cbn [negb].
    2:{ destruct (IH seen existing) as (added & ka & -> & Hs & Hk & Hnd & Hf & Hl & Hsat).
        exists added, ka. repeat split; try assumption.
        destruct Hsat as [Hsat|Hsat]; [now left | right].
        intros it' [<-|Hin] Hst; [congruence | now apply Hsat]. }
    destruct (5 <=? List.length existing) eqn:E5.
    { apply Nat.leb_le in E5. exists [], []. rewrite app_nil_r.
      split; [reflexivity|]. split; [constructor|]. split; [reflexivity|].
      split; [constructor|]. split; [intros k []|]. split; [tauto|].
      now left. }
    apply Nat.leb_gt in E5.
    destruct (isStrictItem_key it Hit) as [t Ht].
    assert (Ekey : itemKey it = Some (normalizeTitleKey t)).
    { unfold itemKey. now rewrite Ht. }
    rewrite Ekey. set (key := normalizeTitleKey t) in *.
    destruct (has key seen) eqn:Hh.
    + apply has_In in Hh.
      destruct (IH seen existing) as (added & ka & -> & Hs & Hk & Hnd & Hf & Hl & Hsat).
      exists added, ka. repeat split; try assumption.
      destruct Hsat as [Hsat|Hsat]; [now left | right].
      intros it' [<-|Hin] Hst; [|now apply Hsat].
      exists key. split; [exact Ekey | now left].
    + apply has_not_In in Hh.
      destruct (IH (key :: seen) (existing ++ [it]))
        as (added & ka & -> & Hs & Hk & Hnd & Hf & Hl & Hsat).
      exists (it :: added), (key :: ka).
      rewrite <- app_assoc. simpl. rewrite Ekey, Hk.
      repeat split.
      * now constructor.
      * constructor; [|exact Hnd]. intros Hin. apply (Hf key Hin). now left.
      * intros k [<-|Hin]; [exact Hh|]. intros Hks. apply (Hf k Hin). now right.
      * intros _. rewrite <- app_assoc in Hl. apply Hl.
        rewrite length_app. simpl. lia.
      * rewrite <- app_assoc in Hsat. simpl in Hsat.
        destruct Hsat as [Hsat|Hsat]; [now left | right].
        intros it' [<-|Hin] Hst.
        -- exists key. split; [exact Ekey | right; now left].
        -- destruct (Hsat it' Hin Hst) as [k [Hk' [[Hkey|Hs']|Hka]]];
             exists k; (split; [exact Hk'|]).
           ++ right. now left.
           ++ now left.
           ++ right. now right.
Qed.

(** On a full day, or on a day that has every strict candidate's key, the
    append loop adds nothing. *)
Lemma appendLoop_noop inc : forall seen existing,
  5 <= List.length existing \/
  (forall it, In it inc -> isStrictItem it = true ->
              exists k, itemKey it = Some k /\ In k seen) ->
  appendLoop inc seen existing = existing.
Proof.
  induction inc as [|it inc IH]; intros seen existing H; [reflexivity|].
  rewrite appendLoop_cons.
  destruct (isStrictItem it) eqn:Hit; cbn [negb].
  - destruct (5 <=? List.length existing) eqn:E5; [reflexivity|].
    apply Nat.leb_gt in E5. destruct H as [H|H]; [lia|].
    destruct (H it (or_introl eq_refl) Hit) as [k [-> Hin]].
    apply has_In in Hin. rewrite Hin.
    apply IH. right. intros it' Hin'. apply H. now right.
  - apply IH. destruct H as [H|H]; [now left | right].
    intros it' Hin'. apply H. now right.
Qed.

Lemma mergeDay_idempotent existing inc :
  DayClean existing ->
  exists day, mergeDay existing inc = Some day /\ DayClean day /\
              mergeDay day inc = Some day.
Proof.
  intros [Hs [ks [Hk [Hnd Hlen]]]].
  destruct (appendLoop_spec inc ks existing)
    as (added & ka & Happ & Hsa & Hka & Hnda & Hfresh & Hcap & Hsat).
  assert (Hkeys : keysOf (existing ++ added) = Some (ks ++ ka)).
  { now rewrite keysOf_app, Hk, Hka. }
  assert (Hclean : DayClean (existing ++ added)).
  { split; [apply Forall_app; now split|].
    exists (ks ++ ka). split; [exact Hkeys|]. split; [|now apply Hcap].
    apply NoDup_app; [exact Hnd | exact Hnda |].
    intros k Hin1 Hin2. exact (Hfresh k Hin2 Hin1). }
  exists (existing ++ added). unfold mergeDay.
  rewrite Hk, Happ, (dedupeWithinDay_clean _ Hclean), Hkeys.
  split; [reflexivity|]. split; [exact Hclean|].
  rewrite appendLoop_noop, (dedupeWithinDay_clean _ Hclean); [reflexivity|].
  destruct Hsat as [Hsat|Hsat]; [now left | right].
  intros it Hin Hst. destruct (Hsat it Hin Hst) as [k [Hk' Hor]].
  exists k. split; [exact Hk' | apply in_or_app; tauto].
Qed.

Lemma DayClean_nil : DayClean [].
Proof. split; [constructor | apply DayOk_nil]. Qed.

Lemma mergeDays_idempotent incoming : forall out,
  DocClean out ->
  exists merged, mergeDays out incoming = Some merged /\ DocClean merged /\
                 mergeDays merged incoming = Some merged.
Proof.
  induction incoming as [|inc incoming IH]; intros out Hout; simpl.
  - now exists out.
  - assert (He : DayClean (match out with [] => [] | e :: _ => e end)).
    { destruct out as [|e out]; [apply DayClean_nil | now inversion Hout]. }
    destruct (mergeDay_idempotent _ inc He) as [day (-> & Hday & Hday2)].
    assert (Ht : DocClean (tl out)).
    { destruct out as [|e out]; [constructor | now inversion Hout]. }
    destruct (IH _ Ht) as [days (-> & Hdays & Hdays2)].
    exists (day :: days). split; [reflexivity|]. split; [now constructor|].
    simpl. now rewrite Hday2, Hdays2.
Qed.

(** Claim C2, as the code has it.  [mergePlanProgress] is idempotent on
    clean documents: when every day of [prev] holds only strict items, with
    pairwise distinct normalized title keys and at most 5 of them, then for
    every candidate [incoming] the merge returns a document [merged], and
    merging the same [incoming] into [merged] again returns [merged]: no
    item is added and no day grows. *)
Theorem mergePlanProgress_idempotent_clean (prev incoming : StrictPlanDays) :
  DocClean prev ->
  exists merged,
    mergePlanProgress prev incoming = Some merged /\
    mergePlanProgress merged incoming = Some merged.
Proof.
  intros H. destruct (mergeDays_idempotent incoming prev H) as [m (H1 & _ & H2)].
  now exists m.
Qed.

Lemma mergePlanProgress_idempotent_clean_witness :
  exists merged,
    mergePlanProgress [[activity "Zoo"]] [[activity "Visit Zoo"; activity "Pier"]]
    = Some merged /\
    mergePlanProgress merged [[activity "Visit Zoo"; activity "Pier"]] = Some merged.
Proof.
  apply (mergePlanProgress_idempotent_clean
           [[activity "Zoo"]] [[activity "Visit Zoo"; activity "Pier"]]).
  constructor; [|constructor]. split.
  - constructor; [reflexivity | constructor].
  - exists ["zoo"]. split; [reflexivity|]. split; [|simpl; lia].
    constructor; [intros [] | constructor].
Defined.

(** Claim C2 as stated fails.  A day of five items of which two share a
    key ("Zoo" and "Visit Zoo") is full when the first merge runs, so the
    candidate is refused; the safety pass then drops the duplicate, and
    the second merge of the same candidate finds room and appends it. *)
Lemma mergePlanProgress_not_idempotent :
  let prev := [[activity "Zoo"; activity "Visit Zoo"; activity "Pier";
                activity "Museum"; activity "Beach"]] in
  let incoming := [[activity "Harbor"]] in
  exists m1 m2,
    mergePlanProgress prev incoming = Some m1 /\
    mergePlanProgress m1 incoming = Some m2 /\
    m1 <> m2 /\
    List.length (nth 0 m2 []) = S (List.length (nth 0 m1 [])).
Proof.
  exists [[activity "Zoo"; activity "Pier"; activity "Museum"; activity "Beach"]],
         [[activity "Zoo"; activity "Pier"; activity "Museum"; activity "Beach";
           activity "Harbor"]].
  split; [vm_compute; reflexivity|]. split; [vm_compute; reflexivity|].
  split; [discriminate | reflexivity].
Qed.

End WithinDay.

(** ** The extractor: a longer buffer only adds days *)

Section StringFacts.

Import Js.

Lemma prefix_split p : forall s, prefix p s = true -> s = p +:+ drop (String.length p) s.
Proof.
  induction p as [|a p IH]; intros s H; [reflexivity|].
  destruct s as [|b s]; [discriminate|]. simpl in H.
  destruct (ascii_dec a b) as [->|]; [|discriminate].
  simpl. now rewrite <- (IH s H).
Qed.

Lemma prefix_append p s : prefix p (p +:+ s) = true.
Proof.
  induction p as [|a p IH]; simpl; [now destruct s|].
  destruct (ascii_dec a a); [exact IH | congruence].
Qed.

Lemma prefix_app_l p s x : prefix p s = true -> prefix p (s +:+ x) = true.
Proof.
  intros H. rewrite (prefix_split p s H), append_assoc. apply prefix_append.
Qed.

(** When [p] starts [s +:+ x] but not [s], the text [s] is a piece of [p]. *)
Lemma prefix_app_short p : forall s x c,
  prefix p (s +:+ x) = true -> prefix p s = false ->
  hasChar c s = true -> hasChar c p = true.
Proof.
  induction p as [|a p IH]; intros s x c H1 H2 Hc.
  - now destruct s.
  - destruct s as [|b s]; [discriminate|]. simpl in *.
    destruct (ascii_dec a b) as [->|]; [|discriminate].
    destruct (Ascii.eqb c b); [reflexivity|]. simpl in *.
    now apply (IH s x c).
Qed.

Lemma drop_app n : forall s x,
  n <= String.length s -> drop n (s +:+ x) = drop n s +:+ x.
Proof.
  induction n as [|n IH]; intros s x H; [reflexivity|].
  destruct s as [|c s]; simpl in *; [lia | apply IH; lia].
Qed.

Lemma drop_length n : forall s,
  n <= String.length s -> n + String.length (drop n s) = String.length s.
Proof.
  induction n as [|n IH]; intros s H; [reflexivity|].
  destruct s as [|c s]; simpl in *; [lia | rewrite <- (IH s); lia].
Qed.

Lemma prefix_length p : forall s, prefix p s = true -> String.length p <= String.length s.
Proof.
  induction p as [|a p IH]; intros s H; simpl; [lia|].
  destruct s as [|b s]; [discriminate|]. simpl in *.
  destruct (ascii_dec a b); [|discriminate]. apply IH in H. lia.
Qed.

Lemma hasChar_app c a b : hasChar c (a +:+ b) = hasChar c a || hasChar c b.
Proof.
  induction a as [|x a IH]; simpl; [reflexivity|].
  now rewrite IH, orb_assoc.
Qed.

Lemma hasChar_drop c n : forall s, hasChar c (drop n s) = true -> hasChar c s = true.
Proof.
  induction n as [|n IH]; intros s H; [exact H|].
  destruct s as [|x s]; [exact H|]. simpl in *.
  rewrite (IH s H). apply orb_true_r.
Qed.

Lemma substring_zero n : forall s, substring n 0 s = EmptyString.
Proof.
  induction n as [|n IH]; intros s; destruct s; simpl; auto.
Qed.

Lemma substring_app a : forall m s x,
  a + m <= String.length s -> substring a m (s +:+ x) = substring a m s.
Proof.
  induction a as [|a IHa]; intros m.
  - induction m as [|m IHm]; intros s x H.
    + now rewrite !substring_zero.
    + destruct s as [|c s]; simpl in *; [lia|]. rewrite IHm; [reflexivity | lia].
  - intros s x H. destruct s as [|c s]; simpl in *; [lia | apply IHa; lia].
Qed.

Lemma slice_app a b s x :
  b <= String.length s -> slice a b (s +:+ x) = slice a b s.
Proof.
  intros H. unfold slice. destruct (Nat.le_gt_cases a b) as [Hab|Hab].
  - apply substring_app. lia.
  - replace (b - a) with 0 by lia. now rewrite !substring_zero.
Qed.

Lemma prefix_exists p : forall s, prefix p s = true -> exists x, s = p +:+ x.
Proof. intros s H. exists (drop (String.length p) s). now apply prefix_split. Qed.

End StringFacts.

Section ExtractorFacts.

Import Js Plan Extract.

Variable JSON_parse : string -> option Item.

(** *** The search for the [planDays] key *)

Lemma skipSpaces_length s : forall n r,
  skipSpaces s = (n, r) -> n + String.length r = String.length s.
Proof.
  induction s as [|c s IH]; intros n r H; simpl in H.
  - now injection H as <- <-.
  - destruct (is_space c).
    + destruct (skipSpaces s) as [n' r'] eqn:E. injection H as <- <-.
      simpl. now rewrite (IH n' r' eq_refl).
    + now injection H as <- <-.
Qed.

(** What [skipSpaces] leaves is empty or starts with a character that is
    not white space. *)
Lemma skipSpaces_head s : forall n c r,
  skipSpaces s = (n, String c r) -> is_space c = false.
Proof.
  induction s as [|c' s IH]; intros n c r H; simpl in H; [discriminate|].
  destruct (is_space c') eqn:Ec.
  - destruct (skipSpaces s) as [n' r'] eqn:E. injection H as <- ->.
    now apply (IH n' c r).
  - injection H as <- -> ->. exact Ec.
Qed.

Lemma skipSpaces_app s x : forall n c r,
  skipSpaces s = (n, String c r) ->
  skipSpaces (s +:+ x) = (n, String c r +:+ x).
Proof.
  induction s as [|c' s IH]; intros n c r H; simpl in H; [discriminate|].
  simpl. destruct (is_space c') eqn:Ec.
  - destruct (skipSpaces s) as [n' r'] eqn:E. injection H as <- ->.
    now rewrite (IH n' c r eq_refl).
  - injection H as <- <- <-. reflexivity.
Qed.

(** A character that is not white space survives [skipSpaces]. *)
Lemma skipSpaces_hasChar c s : forall n r,
  skipSpaces s = (n, r) -> is_space c = false ->
  hasChar c s = hasChar c r.
Proof.
  induction s as [|c' s IH]; intros n r H Hc; simpl in H.
  - now injection H as <- <-.
  - destruct (is_space c') eqn:Ec.
    + destruct (skipSpaces s) as [n' r'] eqn:E. injection H as <- <-.
      simpl. rewrite (IH n' r' eq_refl Hc).
      destruct (Ascii.eqb_spec c c'); [congruence | reflexivity].
    + now injection H as <- <-.
Qed.

Lemma planDaysKey_no_bracket : hasChar lbracket planDaysKey = false.
Proof. reflexivity. Qed.

Lemma matchHere_app s x n r :
  matchHere s = Some (n, r) -> matchHere (s +:+ x) = Some (n, r +:+ x).
Proof.
  unfold matchHere, startsWith. intros H.
  destruct (prefix planDaysKey s) eqn:Hp; [|discriminate].
  rewrite (prefix_app_l _ _ x Hp).
  rewrite drop_app by (apply prefix_length in Hp; exact Hp).
  destruct (skipSpaces (drop 10 s)) as [n1 [|c r2]] eqn:E1; [discriminate|].
  rewrite (skipSpaces_app _ x _ _ _ E1). cbn [String.append].
  destruct (Ascii.eqb c ":"); [|discriminate].
  destruct (skipSpaces r2) as [n2 [|c' r4]] eqn:E2; [discriminate|].
  rewrite (skipSpaces_app _ x _ _ _ E2). cbn [String.append].
  destruct (Ascii.eqb c' "["); [|discriminate].
  now injection H as <- <-.
Qed.

Lemma matchHere_length s n r :
  matchHere s = Some (n, r) -> n + String.length r = String.length s.
Proof.
  unfold matchHere, startsWith. intros H.
  destruct (prefix planDaysKey s) eqn:Hp; [|discriminate].
  pose proof (drop_length 10 s (prefix_length _ _ Hp)) as Hd.
  destruct (skipSpaces (drop 10 s)) as [n1 [|c r2]] eqn:E1; [discriminate|].
  apply skipSpaces_length in E1.
  destruct (Ascii.eqb c ":"); [|discriminate].
  destruct (skipSpaces r2) as [n2 [|c' r4]] eqn:E2; [discriminate|].
  apply skipSpaces_length in E2.
  destruct (Ascii.eqb c' "["); [|discriminate].
  injection H as <- <-. simpl in *. lia.
Qed.

Lemma matchHere_bracket s y : matchHere s = Some y -> hasChar lbracket s = true.
Proof.
  unfold matchHere, startsWith. intros H.
  destruct (prefix planDaysKey s) eqn:Hp; [|discriminate].
  apply (hasChar_drop _ 10).
  destruct (skipSpaces (drop 10 s)) as [n1 [|c r2]] eqn:E1; [discriminate|].
  rewrite (skipSpaces_hasChar lbracket _ _ _ E1 eq_refl).
  destruct (Ascii.eqb c ":"); [|discriminate].
  destruct (skipSpaces r2) as [n2 [|c' r4]] eqn:E2; [discriminate|].
  simpl. rewrite (skipSpaces_hasChar lbracket _ _ _ E2 eq_refl).
  destruct (Ascii.eqb_spec c' "["); [|discriminate].
  subst c'. simpl. apply orb_true_r.
Qed.

(** A match that needs the characters of [x] to complete starts in a text
    without an opening bracket. *)
Lemma matchHere_short s x y :
  matchHere (s +:+ x) = Some y -> matchHere s = None ->
  hasChar lbracket s = false.
Proof.
  unfold matchHere, startsWith. intros H Hs.
  destruct (prefix planDaysKey s) eqn:Hp.
  - rewrite (prefix_app_l _ _ x Hp) in H.
    rewrite drop_app in H by (apply prefix_length in Hp; exact Hp).
    rewrite (prefix_split _ _ Hp), hasChar_app, planDaysKey_no_bracket.
    cbn [orb]. change (String.length planDaysKey) with 10.
    destruct (skipSpaces (drop 10 s)) as [n1 [|c r2]] eqn:E1.
    + now rewrite (skipSpaces_hasChar lbracket _ _ _ E1 eq_refl).
    + rewrite (skipSpaces_hasChar lbracket _ _ _ E1 eq_refl).
      rewrite (skipSpaces_app _ x _ _ _ E1) in H. cbn [String.append] in H.
      destruct (Ascii.eqb_spec c ":"); [subst c | discriminate].
      cbn [hasChar]. change (Ascii.eqb lbracket ":") with false. cbn [orb].
      destruct (skipSpaces r2) as [n2 [|c' r4]] eqn:E2.
      * now rewrite (skipSpaces_hasChar lbracket _ _ _ E2 eq_refl).
      * rewrite (skipSpaces_app _ x _ _ _ E2) in H. cbn [String.append] in H.
        destruct (Ascii.eqb c' "["); discriminate.
  - destruct (prefix planDaysKey (s +:+ x)) eqn:Hpx; [|discriminate].
    destruct (hasChar lbracket s) eqn:Hb; [|reflexivity].
    pose proof (prefix_app_short _ _ _ _ Hpx Hp Hb) as Hk.
    now rewrite planDaysKey_no_bracket in Hk.
Qed.

Lemma execPlanDays_unfold s pos :
  execPlanDays s pos =
  match matchHere s with
  | Some (len, rest) => Some (pos + len, rest)
  | None =>
      match s with
      | EmptyString => None
      | String _ s' => execPlanDays s' (S pos)
      end
  end.
Proof. destruct s; reflexivity. Qed.

Lemma execPlanDays_bracket s : forall pos y,
  execPlanDays s pos = Some y -> hasChar lbracket s = true.
Proof.
  induction s as [|c s IH]; intros pos y H; rewrite execPlanDays_unfold in H.
  - discriminate.
  - destruct (matchHere (String c s)) as [[len rest]|] eqn:E.
    + now apply matchHere_bracket in E.
    + cbn [hasChar]. rewrite (IH _ _ H). apply orb_true_r.
Qed.

(** The leftmost match of a buffer stays the leftmost match of every
    longer buffer. *)
Lemma execPlanDays_app s x : forall pos i r,
  execPlanDays s pos = Some (i, r) ->
  execPlanDays (s +:+ x) pos = Some (i, r +:+ x).
Proof.
  induction s as [|c s IH]; intros pos i r H; rewrite execPlanDays_unfold in H.
  - discriminate.
  - rewrite execPlanDays_unfold.
    destruct (matchHere (String c s)) as [[len rest]|] eqn:E.
    + rewrite (matchHere_app _ x _ _ E). now injection H as <- <-.
    + destruct (matchHere (String c s +:+ x)) as [y|] eqn:Ex.
      * pose proof (matchHere_short _ _ _ Ex E) as Hno.
        pose proof (execPlanDays_bracket _ _ _ H) as Hyes.
        cbn [hasChar] in Hno. rewrite Hyes, orb_true_r in Hno. discriminate.
      * cbn [String.append]. now apply IH.
Qed.

Lemma execPlanDays_length s : forall pos i r,
  execPlanDays s pos = Some (i, r) -> i + String.length r = pos + String.length s.
Proof.
  induction s as [|c s IH]; intros pos i r H; rewrite execPlanDays_unfold in H.
  - discriminate.
  - destruct (matchHere (String c s)) as [[len rest]|] eqn:E.
    + injection H as <- <-. apply matchHere_length in E. lia.
    + apply IH in H. simpl. lia.
Qed.

(** *** The scan *)

Lemma step_ext T X i ch st :
  i < String.length T ->
  step JSON_parse (T +:+ X) i ch st = step JSON_parse T i ch st.
Proof.
  intros H. unfold step. destruct st.
  now rewrite slice_app by lia.
Qed.

Lemma scan_ext T X r : forall i st,
  i + String.length r <= String.length T ->
  scan JSON_parse (T +:+ X) r i st = scan JSON_parse T r i st.
Proof.
  induction r as [|ch r IH]; intros i st H; [reflexivity|].
  cbn [scan]. destruct (0 <? depthSquare st)%Z; [|reflexivity].
  cbn [String.length] in H.
  rewrite step_ext by lia. apply IH. lia.
Qed.

Lemma scan_stopped T r i st :
  (0 <? depthSquare st)%Z = false -> scan JSON_parse T r i st = st.
Proof. intros H. destruct r; [reflexivity|]. cbn [scan]. now rewrite H. Qed.

Lemma scan_app T r1 r2 : forall i st,
  scan JSON_parse T (r1 +:+ r2) i st =
  scan JSON_parse T r2 (i + String.length r1) (scan JSON_parse T r1 i st).
Proof.
  induction r1 as [|ch r1 IH]; intros i st.
  - cbn. now rewrite Nat.add_0_r.
  - cbn [String.append scan String.length].
    destruct (0 <? depthSquare st)%Z eqn:E.
    + rewrite IH. f_equal. lia.
    + now rewrite scan_stopped.
Qed.

(** A step only ever appends to [days]. *)
Lemma step_days T i ch st :
  exists more, days (step JSON_parse T i ch st) = days st ++ more.
Proof.
  unfold step. destruct st as [inStr esc dSq dCu cur ds oStart].
  repeat match goal with
         | |- context [if ?b then _ else _] => destruct b
         | |- context [match ?o with Some _ => _ | None => _ end] => destruct o
         end;
    cbn [days];
    solve [ exists []; now rewrite app_nil_r | eexists; reflexivity ].
Qed.

Lemma scan_days T r : forall i st,
  exists more, days (scan JSON_parse T r i st) = days st ++ more.
Proof.
  induction r as [|ch r IH]; intros i st.
  - exists []. now rewrite app_nil_r.
  - cbn [scan]. destruct (0 <? depthSquare st)%Z.
    + destruct (IH (S i) (step JSON_parse T i ch st)) as [m1 ->].
      destruct (step_days T i ch st) as [m2 ->].
      exists (m2 ++ m1). now rewrite app_assoc.
    + exists []. now rewrite app_nil_r.
Qed.

Lemma extract_app B1 X :
  exists more,
    extractCompletedActivities JSON_parse (B1 +:+ X) =
    extractCompletedActivities JSON_parse B1 ++ more.
Proof.
  unfold extractCompletedActivities.
  destruct (execPlanDays B1 0) as [[i r]|] eqn:E.
  - rewrite (execPlanDays_app _ X _ _ _ E).
    pose proof (execPlanDays_length _ _ _ _ E) as Hlen.
    rewrite scan_app, (scan_ext B1 X r i initCursor) by lia.
    destruct (scan_days (B1 +:+ X) X (i + String.length r)
                        (scan JSON_parse B1 r i initCursor)) as [more ->].
    rewrite filter_app, map_app. eexists. reflexivity.
  - eexists. reflexivity.
Qed.

(** Claim C1.  Extraction is monotone over a growing buffer: when the
    buffer [B2] starts with the buffer [B1], the days returned for [B1] are
    the first days returned for [B2].  So every day returned for [B1] is
    returned for [B2] at the same position with the same items in the same
    order: none is lost, none is repeated, and whatever is new comes after
    them. *)
Theorem extractCompletedActivities_monotone (B1 B2 : string) :
  prefix B1 B2 = true ->
  (exists more,
      extractCompletedActivities JSON_parse B2 =
      extractCompletedActivities JSON_parse B1 ++ more)
  /\ (forall d day,
        nth_error (extractCompletedActivities JSON_parse B1) d = Some day ->
        nth_error (extractCompletedActivities JSON_parse B2) d = Some day).
Proof.
  intros Hp. destruct (prefix_exists _ _ Hp) as [X ->].
  destruct (extract_app B1 X) as [more Hm].
  split; [now exists more|].
  intros d day Hd. rewrite Hm. rewrite nth_error_app1; [exact Hd|].
  apply nth_error_Some. congruence.
Qed.

End ExtractorFacts.

Lemma extractCompletedActivities_monotone_witness :
  let B1 := FlatJson.q "{'replyText':'Hi','planDays':[[{'title':'Zoo','short_description':'Animals'}]" in
  let B2 := B1 +:+ FlatJson.q ",[{'title':'Pier','short_description':'Walk'}]]}" in
  (exists more,
      Extract.extractCompletedActivities FlatJson.parse B2 =
      Extract.extractCompletedActivities FlatJson.parse B1 ++ more)
  /\ (forall d day,
        nth_error (Extract.extractCompletedActivities FlatJson.parse B1) d = Some day ->
        nth_error (Extract.extractCompletedActivities FlatJson.parse B2) d = Some day).
Proof.
  apply (extractCompletedActivities_monotone FlatJson.parse).
  vm_compute. reflexivity.
Defined.

(** The scenario of the specification: three items of which the second
    collapses onto the first. *)
Example extract_balboa :
  map (map Plan.title)
      (Extract.extractCompletedActivities FlatJson.parse
         (FlatJson.q "{'replyText':'Hi','planDays':[[{'title':'Balboa Park','short_description':'Walk'},{'title':'Visit Balboa Park','short_description':'Again'},{'title':'Zoo','short_description':'Animals'}]]}"))
  = [[Plan.JString "Balboa Park"; Plan.JString "Zoo"]].
Proof. vm_compute. reflexivity. Qed.

(** ** The stream handler: finalize is a latch *)

Section Latch.

Import Js Plan Extract Chat.

Variable JSON_parse : string -> option Item.
Variable parseFinal : string -> option FinalDoc.
Variable parsePlanImage : string -> option PlanImage.

Local Abbreviation onEvent := (Chat.onEvent JSON_parse parseFinal parsePlanImage).
Local Abbreviation onJsonDeltas := (Chat.onJsonDeltas JSON_parse parseFinal parsePlanImage).

Lemma onEvent_jsonFinal st data :
  onEvent st "jsonFinal" data = Some (onJsonFinal parseFinal st data).
Proof. unfold Chat.onEvent. cbn. now rewrite !andb_false_r. Qed.

Lemma onJsonFinal_latched st data fd :
  parseFinal data = Some fd -> finalized (onJsonFinal parseFinal st data) = true.
Proof. unfold onJsonFinal. intros ->. now destruct fd as [|[]]. Qed.

(** Once the latch is set, a [jsonDelta] is dropped before anything is
    read or written. *)
Lemma onEvent_jsonDelta_latched st data :
  finalized st = true -> onEvent st "jsonDelta" data = Some st.
Proof. unfold Chat.onEvent. now intros ->. Qed.

Lemma onJsonDeltas_latched payloads st :
  finalized st = true -> onJsonDeltas st payloads = Some st.
Proof.
  intros H. induction payloads as [|d ds IH]; [reflexivity|].
  cbn [Chat.onJsonDeltas]. now rewrite onEvent_jsonDelta_latched.
Qed.

(** The latch holds for every event but another [jsonFinal]. *)
Lemma onEvent_latched st event data :
  finalized st = true -> event <> "jsonFinal" -> onEvent st event data = Some st.
Proof.
  intros H Hne. unfold Chat.onEvent. rewrite H. cbn [andb].
  destruct (String.eqb event "jsonDelta"); [reflexivity|].
  destruct (String.eqb event "planImage"); [reflexivity|].
  destruct (String.eqb event "planImageError"); [reflexivity|]. cbn [orb].
  destruct (String.eqb_spec event "jsonFinal"); [contradiction|].
  now destruct (String.eqb event "error").
Qed.


End Latch.


(** ** The drag-and-drop mutators *)

Section Moves.

Import Js Plan Reorder.

Lemma at_None {A} (l : list A) (i : Z) :
  at_ l i = None <-> (i < 0)%Z \/ (Z.of_nat (List.length l) <= i)%Z.
Proof.
  unfold at_. destruct (Z.ltb_spec i 0) as [Hi|Hi].
  - split; [now left | reflexivity].
  - rewrite nth_error_None. split; [right; lia | intros [H|H]; lia].
Qed.

Lemma at_Some {A} (l : list A) (i : nat) (x : A) :
  nth_error l i = Some x -> at_ l (Z.of_nat i) = Some x.
Proof.
  intros H. unfold at_. destruct (Z.ltb_spec (Z.of_nat i) 0); [lia|].
  now rewrite Nat2Z.id.
Qed.

(** *** Stale drops *)

Lemma performReorder_stale prev day fromIndex toIndex :
  (day < 0)%Z \/ (Z.of_nat (List.length prev) <= day)%Z \/
  (fromIndex < 0)%Z \/
  (Z.of_nat (List.length (nth (Z.to_nat day) prev [])) <= fromIndex)%Z ->
  performReorder prev day fromIndex toIndex = prev.
Proof.
  intros H. unfold performReorder.
  destruct (at_ prev day) as [d|] eqn:E; [|reflexivity].
  assert (Hd : nth (Z.to_nat day) prev [] = d).
  { unfold at_ in E. destruct (day <? 0)%Z; [discriminate|].
    now apply nth_error_nth. }
  assert (Hnot : ~ ((day < 0)%Z \/ (Z.of_nat (List.length prev) <= day)%Z)).
  { intros Hn. apply at_None in Hn. congruence. }
  rewrite Hd in H.
  destruct (Z.ltb_spec fromIndex 0); [reflexivity|].
  destruct (Z.leb_spec (Z.of_nat (List.length d)) fromIndex); [reflexivity|].
  exfalso. destruct H as [H|[H|[H|H]]]; try lia; apply Hnot; tauto.
Qed.

Lemma performCrossDayMove_stale prev from to data :
  (day from < 0)%Z \/ (Z.of_nat (List.length prev) <= day from)%Z \/
  (index from < 0)%Z \/
  (Z.of_nat (List.length (nth (Z.to_nat (day from)) prev [])) <= index from)%Z ->
  performCrossDayMove prev from to data = prev.
Proof.
  intros H. unfold performCrossDayMove.
  destruct (at_ prev (day from)) as [src|] eqn:E; [|reflexivity].
  destruct (at_ prev (day to)) as [dst|]; [|reflexivity].
  assert (Hd : nth (Z.to_nat (day from)) prev [] = src).
  { unfold at_ in E. destruct (day from <? 0)%Z; [discriminate|].
    now apply nth_error_nth. }
  assert (Hnot : ~ ((day from < 0)%Z \/ (Z.of_nat (List.length prev) <= day from)%Z)).
  { intros Hn. apply at_None in Hn. congruence. }
  rewrite Hd in H.
  destruct (Z.ltb_spec (index from) 0); [reflexivity|].
  destruct (Z.leb_spec (Z.of_nat (List.length src)) (index from)); [reflexivity|].
  exfalso. destruct H as [H|[H|[H|H]]]; try lia; apply Hnot; tauto.
Qed.

(** Claim C10.  Stale-drop safety: when the recorded source position is
    invalid at drop time (the source day does not exist, or the source index
    is negative or not less than the current length of that day), both
    [performReorder] and [performCrossDayMove] return the document they were
    given: nothing is removed and nothing is inserted. *)
Theorem stale_drop_is_noop (prev : StrictPlanDays) (from to : Pos)
        (toIndex : Z) (data : Item) :
  (day from < 0)%Z \/ (Z.of_nat (List.length prev) <= day from)%Z \/
  (index from < 0)%Z \/
  (Z.of_nat (List.length (nth (Z.to_nat (day from)) prev [])) <= index from)%Z ->
  performReorder prev (day from) (index from) toIndex = prev /\
  performCrossDayMove prev from to data = prev.
Proof.
  intros H. split;
    [now apply performReorder_stale | now apply performCrossDayMove_stale].
Qed.

Lemma stale_drop_is_noop_witness :
  let prev := [[activity "Zoo"; activity "Pier"]; [activity "Beach"]] in
  performReorder prev 0 2 0 = prev /\
  performCrossDayMove prev (mkPos 0 2) (mkPos 1 0) (activity "Museum") = prev.
Proof.
  apply (stale_drop_is_noop [[activity "Zoo"; activity "Pier"]; [activity "Beach"]]
           (mkPos 0 2) (mkPos 1 0) 0 (activity "Museum")).
  right. right. right. simpl. lia.
Defined.

(** *** The cross-day move *)

Lemma nth_error_removeAt_length {A} (l : list A) (i : nat) (x : A) :
  nth_error l i = Some x -> List.length (removeAt i l) + 1 = List.length l.
Proof.
  intros H. assert (Hi : i < List.length l) by (apply nth_error_Some; congruence).
  unfold removeAt. rewrite length_app, length_firstn, length_skipn. lia.
Qed.

Lemma computeFinalTarget_day1_slot0 d d0 d1 rest :
  computeFinalTarget d (Some (mkPos 1 0)) (d0 :: d1 :: rest) = mkPos 1 0.
Proof.
  unfold computeFinalTarget. cbn [day index].
  assert (Hlen : (Z.of_nat (List.length (d0 :: d1 :: rest)) - 1 >= 1)%Z)
    by (cbn [List.length]; lia).
  rewrite (Z.max_r 0 (Z.of_nat (List.length (d0 :: d1 :: rest)) - 1)) by lia.
  rewrite (Z.min_l 1) by lia. rewrite (Z.max_r 0 1) by lia.
  change (at_ (d0 :: d1 :: rest) 1) with (Some d1).
  rewrite Z.min_l by lia. reflexivity.
Qed.

Lemma performCrossDayMove_0_2_to_1_0 d0 d1 rest x data :
  nth_error d0 2 = Some x ->
  performCrossDayMove (d0 :: d1 :: rest) (mkPos 0 2) (mkPos 1 0) data
  = removeAt 2 d0 :: (x :: d1) :: rest.
Proof.
  intros Hx. unfold performCrossDayMove. cbn [day index].
  change (at_ (d0 :: d1 :: rest) 0) with (Some d0).
  change (at_ (d0 :: d1 :: rest) 1) with (Some d1). cbv beta iota.
  assert (Hlen : 2 < List.length d0) by (apply nth_error_Some; congruence).
  change (2 <? 0)%Z with false. cbn [orb].
  destruct (Z.leb_spec (Z.of_nat (List.length d0)) 2) as [Hle|_]; [lia|].
  change (Z.to_nat 2) with 2. rewrite Hx.
  change (0 =? 1)%Z with false. cbv beta iota zeta.
  unfold clamp. rewrite Z.min_l by lia. reflexivity.
Qed.

(** Claim C5.  In a document whose day 0 has an item [x] at index 2 and
    which has a day 1, the drop from (day 0, index 2) onto the slot
    (day 1, index 0) is the cross-day move to (1, 0).  After it day 0 is the
    old day 0 without its index 2 and has one item fewer; day 1 is [x]
    followed by the old day 1 and has one item more; every other day is
    unchanged and the number of days is the same.  The item taken out of
    day 0 is put into day 1 and nowhere else: the move makes no copy, the
    document holds the same items as before, each as often as before. *)
Theorem cross_day_move_postcondition (doc : StrictPlanDays) (d0 d1 : list Item)
        (x : Item) (drag : DragState) :
  nth_error doc 0 = Some d0 ->
  nth_error d0 2 = Some x ->
  nth_error doc 1 = Some d1 ->
  fromDay drag = 0%Z ->
  fromIndex drag = 2%Z ->
  let doc' := onGlobalPointerUp drag (Some (mkPos 1 0)) doc doc in
  doc' = performCrossDayMove doc (mkPos 0 2) (mkPos 1 0) (data drag) /\
  nth_error doc' 0 = Some (removeAt 2 d0) /\
  List.length (removeAt 2 d0) + 1 = List.length d0 /\
  nth_error doc' 1 = Some (x :: d1) /\
  List.length (x :: d1) = List.length d1 + 1 /\
  (forall k, 2 <= k -> nth_error doc' k = nth_error doc k) /\
  List.length doc' = List.length doc /\
  Permutation (List.concat doc') (List.concat doc).
Proof.
  intros H0 Hx H1 Hfd Hfi doc'.
  destruct doc as [|e0 [|e1 rest]]; try discriminate.
  injection H0 as ->. injection H1 as ->.
  assert (Hdoc' : doc' = removeAt 2 d0 :: (x :: d1) :: rest).
  { unfold doc', onGlobalPointerUp.
    rewrite computeFinalTarget_day1_slot0, Hfd, Hfi. cbn [day index negb].
    change (1 =? 0)%Z with false. cbn [negb].
    now apply performCrossDayMove_0_2_to_1_0. }
  split.
  { rewrite Hdoc'. symmetry. now apply performCrossDayMove_0_2_to_1_0. }
  rewrite Hdoc'.
  split; [reflexivity|].
  split; [now apply (nth_error_removeAt_length d0 2 x)|].
  split; [reflexivity|].
  split; [cbn [List.length]; lia|].
  split; [intros k Hk; destruct k as [|[|k]]; [lia | lia | reflexivity]|].
  split; [reflexivity|].
  cbn [List.concat]. unfold removeAt.
  assert (E : d0 = firstn 2 d0 ++ x :: skipn 3 d0)
    by (symmetry; now apply firstn_skipn_middle).
  set (a := firstn 2 d0) in *. set (b := skipn 3 d0) in *. clearbody a b.
  rewrite E, <- !app_assoc. apply Permutation_app_head. cbn [app].
  symmetry. apply Permutation_middle.
Qed.

Lemma cross_day_move_postcondition_witness :
  let doc := [[activity "Zoo"; activity "Pier"; activity "Museum"]; [activity "Beach"]] in
  let drag := mkDrag 0 2 (activity "Museum") in
  let doc' := onGlobalPointerUp drag (Some (mkPos 1 0)) doc doc in
  doc' = [[activity "Zoo"; activity "Pier"]; [activity "Museum"; activity "Beach"]] /\
  Permutation (List.concat doc') (List.concat doc).
Proof.
  intros doc drag doc'.
  destruct (cross_day_move_postcondition doc
              [activity "Zoo"; activity "Pier"; activity "Museum"] [activity "Beach"]
              (activity "Museum") drag eq_refl eq_refl eq_refl eq_refl eq_refl)
    as (_ & _ & _ & _ & _ & _ & _ & Hperm).
  split; [reflexivity | exact Hperm].
Defined.

End Moves.

(** ** The cost normalizer *)

Section Cost.

Import Js Server.

(** Claim C7.  The cost normalizer maps the example inputs of the
    specification exactly: ["$10"] to ["$10"], ["$25 to $40"] to
    ["$25–$40"] with an en dash, ["Free entry"] to ["free"], and the empty
    string to [undefined]. *)
Theorem coerceCost_examples :
  coerceCost (Some "$10") = Some "$10" /\
  coerceCost (Some "$25 to $40") = Some "$25–$40" /\
  coerceCost (Some "Free entry") = Some "free" /\
  coerceCost (Some EmptyString) = None.
Proof. repeat split; vm_compute; reflexivity. Qed.

(** *** Runs of dollar signs *)

Lemma dollars_length n : String.length (dollars n) = n.
Proof. induction n as [|n IH]; simpl; [reflexivity | now rewrite IH]. Qed.

Lemma dollars_allDollars n : allDollars (dollars n) = true.
Proof. induction n as [|n IH]; simpl; [reflexivity | exact IH]. Qed.

Lemma dollars_trimEnd n : trimEnd (dollars n) = dollars n.
Proof.
  induction n as [|n IH]; [reflexivity|].
  cbn [dollars trimEnd]. rewrite IH. now destruct n.
Qed.

Lemma dollars_trim n : trim (dollars n) = dollars n.
Proof.
  unfold trim. destruct n as [|n]; [reflexivity|].
  change (trimStart (dollars (S n))) with (dollars (S n)). apply dollars_trimEnd.
Qed.

Lemma dollars_toLowerCase n : toLowerCase (dollars n) = dollars n.
Proof. induction n as [|n IH]; simpl; [reflexivity | now rewrite IH]. Qed.

Lemma dollars_no_free n b : hasWordFrom "free" b (dollars n) = false.
Proof.
  revert b. induction n as [|n IH]; intros b; [reflexivity|].
  cbn [dollars hasWordFrom]. rewrite IH.
  change (wordHere "free" (String "$" (dollars n))) with false.
  now rewrite andb_false_r.
Qed.

Lemma dollars_no_zero n : hasDollarZero (dollars n) = false.
Proof.
  induction n as [|n IH]; [reflexivity|].
  cbn [dollars hasDollarZero]. rewrite IH, orb_false_r.
  destruct n; reflexivity.
Qed.

Lemma dollars_replaceDashes n : replaceDashes (dollars n) = dollars n.
Proof.
  induction n as [|n IH]; [reflexivity|].
  destruct n as [|[|n]]; try reflexivity.
  change (replaceDashes (dollars (S (S (S n)))))
    with (String "$"%char (replaceDashes (dollars (S (S n))))).
  now rewrite IH.
Qed.

Lemma dollars_replaceTo n b : replaceTo b (dollars n) = dollars n.
Proof.
  revert b. induction n as [|n IH]; intros b; [reflexivity|].
  destruct n as [|n]; [reflexivity|].
  destruct b.
  - change (replaceTo true (dollars (S (S n))))
      with (String "$"%char (replaceTo false (dollars (S n)))).
    now rewrite IH.
  - change (replaceTo false (dollars (S (S n))))
      with (String "$"%char (replaceTo false (dollars (S n)))).
    now rewrite IH.
Qed.

Lemma dollars_replaceTildeSpaces n b : replaceTildeSpaces b (dollars n) = dollars n.
Proof.
  revert b. induction n as [|n IH]; intros b; [reflexivity|].
  cbn [dollars replaceTildeSpaces].
  change (Ascii.eqb "$" "~") with false. change (is_space "$") with false.
  cbv iota. now rewrite IH.
Qed.

Lemma dollars_no_digits n : digitRuns EmptyString (dollars n) = [].
Proof.
  induction n as [|n IH]; [reflexivity|].
  cbn [dollars digitRuns]. change (is_digit "$") with false. cbv iota.
  exact IH.
Qed.

Lemma coerceCost_many_dollars n :
  4 <= n -> coerceCost (Some (dollars n)) = Some "$50–$100".
Proof.
  intros Hn. unfold coerceCost.
  destruct (String.eqb_spec (dollars n) EmptyString) as [E|_].
  { apply (f_equal String.length) in E. rewrite dollars_length in E. simpl in E. lia. }
  rewrite dollars_trim, dollars_toLowerCase, dollars_no_free, dollars_no_zero.
  cbn [orb].
  rewrite dollars_replaceDashes, dollars_replaceTo, dollars_replaceTildeSpaces,
    dollars_trim, dollars_no_digits.
  cbn [map]. rewrite dollars_allDollars, dollars_length. cbn [andb].
  destruct (Nat.eqb_spec n 2); [lia|]. destruct (Nat.eqb_spec n 3); [lia|].
  destruct (Nat.leb_spec 4 n); [reflexivity | lia].
Qed.

(** Claim C8, as the code has it.  The inputs ["$$"] and ["$$$"] and every
    run of four or more dollar signs are mapped to fixed bucket ranges of
    the form ["$A–$B"]: ["$10–$25"], ["$25–$50"] and ["$50–$100"]. *)
Theorem coerceCost_price_tiers (n : nat) :
  coerceCost (Some "$$") = Some "$10–$25" /\
  coerceCost (Some "$$$") = Some "$25–$50" /\
  coerceCost (Some "$$$$") = Some "$50–$100" /\
  (4 <= n -> coerceCost (Some (dollars n)) = Some "$50–$100").
Proof.
  split; [vm_compute; reflexivity|]. split; [vm_compute; reflexivity|].
  split; [vm_compute; reflexivity|]. apply coerceCost_many_dollars.
Qed.

Lemma coerceCost_price_tiers_witness :
  coerceCost (Some "$$$$$$") = Some "$50–$100".
Proof.
  apply (coerceCost_price_tiers 6). lia.
Defined.

(** Claim C8 as stated fails on the first tier: a single dollar sign has no
    rule and is not normalized. *)
Lemma coerceCost_single_dollar : coerceCost (Some "$") = None.
Proof. vm_compute. reflexivity. Qed.

End Cost.

(** ** The final clamp: backfill of an under-filled day *)

Section Backfill.

Import Js Server.

Lemma in_firstn_in {A} n : forall (l : list A) x, In x (firstn n l) -> In x l.
Proof.
  induction n as [|n IH]; intros l x H; [destruct H|].
  destruct l as [|a l]; [destruct H|].
  destruct H as [->|H]; [now left | right; now apply IH].
Qed.

Lemma in_skipn_in {A} n : forall (l : list A) x, In x (skipn n l) -> In x l.
Proof.
  induction n as [|n IH]; intros l x H; [exact H|].
  destruct l as [|a l]; [destruct H|]. right. now apply IH.
Qed.

(** *** The fallback pool *)

(** With at least one suggestion, all of them named, every entry of the
    pool is an item with a string title. *)
Lemma pool_defined suggestions nights dayp o :
  suggestions <> [] -> Forall Named suggestions ->
  In dayp (suggestionsToStrictDays suggestions nights) -> In o dayp -> o <> None.
Proof.
  intros Hne Hnamed Hd Ho. unfold suggestionsToStrictDays in Hd.
  apply in_map_iff in Hd. destruct Hd as [d [<- _]].
  apply in_firstn_in, in_skipn_in in Ho.
  apply in_map_iff in Ho. destruct Ho as [i [<- _]].
  assert (Hlen : 0 < List.length (map itemOfSuggestion suggestions)).
  { rewrite length_map. destruct suggestions; [congruence | simpl; lia]. }
  destruct (nth_error _ _) as [entry|] eqn:E.
  - apply nth_error_In, in_map_iff in E. destruct E as [s [<- Hs]].
    rewrite Forall_forall in Hnamed. specialize (Hnamed s Hs).
    unfold itemOfSuggestion, Named in *. destruct (name s); [discriminate | congruence].
  - apply nth_error_None in E. rewrite Nat.max_r in E by lia.
    pose proof (Nat.mod_upper_bound i (List.length (map itemOfSuggestion suggestions))).
    lia.
Qed.

(** Without suggestions, every entry of the pool is [undefined]. *)
Lemma pool_undefined nights dayp o :
  In dayp (suggestionsToStrictDays [] nights) -> In o dayp -> o = None.
Proof.
  intros Hd Ho. unfold suggestionsToStrictDays in Hd.
  apply in_map_iff in Hd. destruct Hd as [d [<- _]].
  apply in_firstn_in, in_skipn_in in Ho.
  apply in_map_iff in Ho. destruct Ho as [i [<- _]].
  cbn [map]. now destruct (i mod _).
Qed.

(** *** The fill loops *)

Lemma fillFromPool_cons o rest day titles :
  fillFromPool (o :: rest) day titles =
  match o with
  | None => None
  | Some cand =>
      if has (keyOf cand) titles then fillFromPool rest day titles
      else if needMin <=? List.length (day ++ [cand])
           then Some (day ++ [cand], keyOf cand :: titles)
           else fillFromPool rest (day ++ [cand]) (keyOf cand :: titles)
  end.
Proof. reflexivity. Qed.

Lemma has_In' key seen : has key seen = true <-> In key seen.
Proof. apply has_In. Qed.

(** One pass over a pool: the day grows by candidates with fresh keys, up to
    the minimum; if the minimum is not reached, every candidate of the pool
    has its key in the day. *)
Lemma fillFromPool_spec pool : forall day titles,
  Forall (fun o => o <> None) pool ->
  (forall k, In k titles <-> In k (map keyOf day)) ->
  NoDup (map keyOf day) ->
  List.length day < needMin ->
  exists day' titles' added,
    fillFromPool pool day titles = Some (day', titles') /\
    day' = day ++ added /\
    (forall k, In k titles' <-> In k (map keyOf day')) /\
    NoDup (map keyOf day') /\
    List.length day' <= needMin /\
    (List.length day' < needMin ->
     forall c, In (Some c) pool -> In (keyOf c) titles').
Proof.
  induction pool as [|o pool IH]; intros day titles Hdef Hiff Hnd Hlen.
  - exists day, titles, []. rewrite app_nil_r.
    repeat split; try assumption; try apply Hiff; try lia.
    intros _ c [].
  - rewrite fillFromPool_cons. inversion Hdef as [|? ? Ho Hdef']; subst.
    destruct o as [cand|]; [|congruence].
    destruct (has (keyOf cand) titles) eqn:Hh.
    + destruct (IH day titles Hdef' Hiff Hnd Hlen)
        as (day' & titles' & added & -> & -> & Hiff' & Hnd' & Hlen' & Hsat).
      exists (day ++ added), titles', added.
      repeat split; try assumption; try apply Hiff'.
      intros Hlt c [Hc|Hc]; [|now apply Hsat].
      injection Hc as ->. apply Hiff'. rewrite map_app. apply in_or_app. left.
      apply Hiff. now apply has_In'.
    + assert (Hfresh : ~ In (keyOf cand) (map keyOf day)).
      { intros Hin. apply Hiff in Hin. apply has_In' in Hin. congruence. }
      assert (Hiff1 : forall k, In k (keyOf cand :: titles)
                                <-> In k (map keyOf (day ++ [cand]))).
      { intros k. rewrite map_app, in_app_iff. cbn [map In]. rewrite Hiff. tauto. }
      assert (Hnd1 : NoDup (map keyOf (day ++ [cand]))).
      { rewrite map_app. now apply NoDup_snoc. }
      assert (Hlen1 : List.length (day ++ [cand]) = List.length day + 1).
      { rewrite length_app. reflexivity. }
      destruct (needMin <=? List.length (day ++ [cand])) eqn:E.
      * apply Nat.leb_le in E.
        exists (day ++ [cand]), (keyOf cand :: titles), [cand].
        repeat split; try assumption; try apply Hiff1; try lia.
      * apply Nat.leb_gt in E.
        destruct (IH (day ++ [cand]) (keyOf cand :: titles) Hdef' Hiff1 Hnd1 E)
          as (day' & titles' & added & -> & -> & Hiff' & Hnd' & Hlen' & Hsat).
        exists ((day ++ [cand]) ++ added), titles', (cand :: added).
        rewrite <- app_assoc.
        repeat split; try assumption.
        -- rewrite <- app_assoc in Hiff'. apply Hiff'.
        -- rewrite <- app_assoc in Hiff'. apply Hiff'.
        -- now rewrite <- app_assoc in Hnd'.
        -- now rewrite <- app_assoc in Hlen'.
        -- rewrite <- app_assoc in Hsat. intros Hlt c [Hc|Hc]; [|now apply Hsat].
           injection Hc as ->. apply Hiff'. rewrite map_app. apply in_or_app. left.
           apply Hiff1. now left.
Qed.

Lemma fillFromPools_spec pools : forall day titles,
  Forall (Forall (fun o => o <> None)) pools ->
  (forall k, In k titles <-> In k (map keyOf day)) ->
  NoDup (map keyOf day) ->
  List.length day < needMin ->
  exists day' added,
    fillFromPools pools day titles = Some day' /\
    day' = day ++ added /\
    NoDup (map keyOf day') /\
    List.length day' <= needMin /\
    (List.length day' < needMin ->
     forall pool c, In pool pools -> In (Some c) pool ->
                    In (keyOf c) (map keyOf day')).
Proof.
  induction pools as [|pool pools IH]; intros day titles Hdef Hiff Hnd Hlen.
  - exists day, []. rewrite app_nil_r. cbn [fillFromPools].
    repeat split; try assumption; try lia. intros _ pool c [].
  - inversion Hdef as [|? ? Hp Hdef']; subst. cbn [fillFromPools].
    destruct (fillFromPool_spec pool day titles Hp Hiff Hnd Hlen)
      as (day1 & titles1 & added1 & -> & -> & Hiff1 & Hnd1 & Hlen1 & Hsat1).
    destruct (needMin <=? List.length (day ++ added1)) eqn:E.
    + apply Nat.leb_le in E. exists (day ++ added1), added1.
      repeat split; try assumption. intros Hlt. lia.
    + apply Nat.leb_gt in E.
      destruct (IH (day ++ added1) titles1 Hdef' Hiff1 Hnd1 E)
        as (day' & added2 & -> & -> & Hnd' & Hlen' & Hsat').
      exists ((day ++ added1) ++ added2), (added1 ++ added2).
      repeat split; try assumption; [now rewrite app_assoc|].
      intros Hlt p c [<-|Hin] Hc; [|now apply (Hsat' Hlt p c)].
      rewrite map_app. apply in_or_app. left. apply Hiff1. now apply Hsat1.
Qed.

Lemma dedupeLoop_head day : forall seen x rest,
  dedupeLoop day seen = x :: rest -> In x day.
Proof.
  induction day as [|it day IH]; intros seen x rest H; [discriminate|].
  cbn [dedupeLoop] in H. destruct (has _ seen).
  - right. now apply (IH seen x rest).
  - injection H as -> _. now left.
Qed.

(** *** One day *)

Lemma enforceDay_backfill fallback planDays i day x cands :
  Forall (Forall (fun o => o <> None)) fallback ->
  nth_error planDays i = Some day ->
  dedupeWithinDayByTitle day = [x] ->
  4 <= List.length cands ->
  (forall c, In c cands -> In (Some c) (List.concat fallback)) ->
  NoDup (map keyOf cands) ->
  exists fill,
    enforceDay fallback planDays i = Some (x :: fill) /\
    List.length (x :: fill) = needMin /\
    NoDup (map keyOf (x :: fill)).
Proof.
  intros Hdef Hday Hx Hfour Hpool Hnd.
  unfold enforceDay. rewrite (nth_error_nth _ _ _ Hday), Hx.
  change (firstn 5 [x]) with [x]. cbn [List.length map].
  change (1 <? needMin) with true. cbv iota.
  assert (Hne : (0 <? List.length fallback) = true).
  { destruct cands as [|c cands]; [simpl in Hfour; lia|].
    pose proof (Hpool c (or_introl eq_refl)) as Hc.
    destruct fallback; [destruct Hc | reflexivity]. }
  rewrite Hne.
  set (pools := (match nth_error fallback i with Some p => [p] | None => [] end)
                  ++ [List.concat fallback]).
  assert (Hpools : Forall (Forall (fun o => o <> None)) pools).
  { apply Forall_app. split.
    - destruct (nth_error fallback i) as [p|] eqn:E; [|constructor].
      constructor; [|constructor].
      apply nth_error_In in E. rewrite Forall_forall in Hdef. now apply Hdef.
    - constructor; [|constructor]. apply Forall_forall. intros o Ho.
      apply in_concat in Ho. destruct Ho as [p [Hp Ho]].
      rewrite Forall_forall in Hdef. specialize (Hdef p Hp).
      rewrite Forall_forall in Hdef. now apply Hdef. }
  destruct (fillFromPools_spec pools [x] [normalizeTitleKey (title x)] Hpools)
    as (day' & added & Hfill & -> & Hnd' & Hlen' & Hsat).
  { intros k. reflexivity. }
  { constructor; [intros [] | constructor]. }
  { unfold needMin. simpl. lia. }
  rewrite Hfill. unfold option_map.
  assert (Hthree : List.length ([x] ++ added) = needMin).
  { destruct (Nat.lt_ge_cases (List.length ([x] ++ added)) needMin) as [Hlt|Hge];
      [exfalso | lia].
    assert (Hincl : incl (map keyOf cands) (map keyOf ([x] ++ added))).
    { intros k Hk. apply in_map_iff in Hk. destruct Hk as [c [<- Hc]].
      apply (Hsat Hlt (List.concat fallback) c).
      - unfold pools. apply in_or_app. right. now left.
      - now apply Hpool. }
    apply (NoDup_incl_length Hnd) in Hincl. rewrite !length_map in Hincl.
    unfold needMin in Hlt. lia. }
  exists added.
  rewrite firstn_all2 by (rewrite Hthree; unfold needMin; lia).
  repeat split; assumption.
Qed.

Lemma fillFromPool_total pool : forall day titles,
  Forall (fun o => o <> None) pool ->
  exists r, fillFromPool pool day titles = Some r.
Proof.
  induction pool as [|o pool IH]; intros day titles Hdef.
  - eexists. reflexivity.
  - rewrite fillFromPool_cons. inversion Hdef as [|? ? Ho Hdef']; subst.
    destruct o as [cand|]; [|congruence].
    destruct (has (keyOf cand) titles); [now apply IH|].
    destruct (needMin <=? _); [eexists; reflexivity | now apply IH].
Qed.

Lemma fillFromPools_total pools : forall day titles,
  Forall (Forall (fun o => o <> None)) pools ->
  exists r, fillFromPools pools day titles = Some r.
Proof.
  induction pools as [|pool pools IH]; intros day titles Hdef.
  - eexists. reflexivity.
  - inversion Hdef as [|? ? Hp Hdef']; subst. cbn [fillFromPools].
    destruct (fillFromPool_total pool day titles Hp) as [[d t] ->].
    destruct (needMin <=? _); [eexists; reflexivity | now apply IH].
Qed.

Lemma enforceDay_total fallback planDays i :
  Forall (Forall (fun o => o <> None)) fallback ->
  exists d, enforceDay fallback planDays i = Some d.
Proof.
  intros Hdef. unfold enforceDay.
  destruct (_ <? needMin); [|eexists; reflexivity].
  match goal with
  | |- context [fillFromPools ?ps ?d ?t] =>
      destruct (fillFromPools_total ps d t) as [r ->]
  end; [|eexists; reflexivity].
  apply Forall_app. split.
  - destruct (nth_error fallback i) as [p|] eqn:E; [|constructor].
    constructor; [|constructor].
    apply nth_error_In in E. rewrite Forall_forall in Hdef. now apply Hdef.
  - destruct (0 <? _); [|constructor].
    constructor; [|constructor]. apply Forall_forall. intros o Ho.
    apply in_concat in Ho. destruct Ho as [p [Hp Ho]].
    rewrite Forall_forall in Hdef. specialize (Hdef p Hp).
    rewrite Forall_forall in Hdef. now apply Hdef.
Qed.

Lemma sequence_map_total {A B} (f : A -> option B) (l : list A) :
  (forall a, In a l -> exists b, f a = Some b) ->
  exists out,
    sequence (map f l) = Some out /\
    forall k a, nth_error l k = Some a ->
                exists b, f a = Some b /\ nth_error out k = Some b.
Proof.
  induction l as [|a l IH]; intros H.
  - exists []. split; [reflexivity|]. intros [|k] a Hk; discriminate.
  - destruct (H a (or_introl eq_refl)) as [b Hb].
    destruct IH as [out [Hout Hnth]]; [intros a' Ha'; apply H; now right|].
    exists (b :: out). cbn [map sequence]. rewrite Hb, Hout.
    split; [reflexivity|].
    intros [|k] a' Hk; cbn [nth_error] in *.
    + injection Hk as <-. now exists b.
    + now apply Hnth.
Qed.

(** Claim C9, as the code has it.  Finalize backfill: when every candidate
    of the fallback pool derived from the suggestions has a string title
    (as it has when every suggestion has a string name), a day of the plan
    has exactly one valid item [x] (the day de-duplicates to [x] alone) and
    the pool holds at least 4 candidates whose normalized title keys are
    pairwise distinct and differ from the key of [x], then
    [enforceDayCount3to5] returns a plan whose day at that position is [x]
    followed by backfilled candidates, has at least [needMin] = 3 and at
    most 5 items, and has pairwise distinct keys: no backfilled candidate
    shares its key with an item already in the day. *)
Theorem finalize_backfills_to_minimum
        (planDays : list (list StrictItem)) (suggestions : list Suggestion)
        (nights : option Z) (i : nat) (day : list StrictItem) (x : StrictItem)
        (cands : list StrictItem) :
  Forall (Forall (fun o => o <> None)) (fallbackDays planDays suggestions nights) ->
  nth_error planDays i = Some day ->
  dedupeWithinDayByTitle day = [x] ->
  4 <= List.length cands ->
  (forall c, In c cands ->
             In (Some c) (List.concat (fallbackDays planDays suggestions nights))) ->
  NoDup (map keyOf cands) ->
  ~ In (keyOf x) (map keyOf cands) ->
  exists out fill,
    enforceDayCount3to5 planDays suggestions nights = Some out /\
    nth_error out i = Some (x :: fill) /\
    needMin <= List.length (x :: fill) <= 5 /\
    NoDup (map keyOf (x :: fill)).
Proof.
  intros Hdef Hday Hx Hfour Hpool Hnd _.
  unfold enforceDayCount3to5.
  destruct (sequence_map_total
              (enforceDay (fallbackDays planDays suggestions nights) planDays)
              (seq 0 (Nat.max (List.length planDays) 1)))
    as [out [Hout Hnth]].
  { intros a _. now apply enforceDay_total. }
  assert (Hi : i < List.length planDays) by (apply nth_error_Some; congruence).
  destruct (Hnth i i) as [b [Hb Hob]].
  { rewrite nth_error_seq. destruct (Nat.ltb_spec i (Nat.max (List.length planDays) 1));
      [reflexivity | lia]. }
  destruct (enforceDay_backfill _ planDays i day x cands Hdef Hday Hx Hfour Hpool Hnd)
    as [fill (Hfill & Hlen & Hnd')].
  rewrite Hfill in Hb. injection Hb as <-.
  exists out, fill. rewrite Hout.
  repeat split; try assumption; rewrite Hlen; unfold needMin; lia.
Qed.

End Backfill.

Lemma finalize_backfills_to_minimum_witness :
  let x := Server.mkStrictItem "Balboa Park" "Walk" None in
  let suggestions := map Server.place ["Zoo"; "Pier"; "Museum"; "Beach"] in
  exists out fill,
    Server.enforceDayCount3to5 [[x]] suggestions None = Some out /\
    nth_error out 0 = Some (x :: fill) /\
    Server.needMin <= List.length (x :: fill) <= 5 /\
    NoDup (map Server.keyOf (x :: fill)).
Proof.
  intros x suggestions.
  apply (finalize_backfills_to_minimum [[x]] suggestions None 0 [x] x
           (map Server.placeItem ["Zoo"; "Pier"; "Museum"; "Beach"])).
  - vm_compute. repeat constructor; discriminate.
  - reflexivity.
  - reflexivity.
  - simpl. lia.
  - intros c Hc. vm_compute in Hc. vm_compute.
    destruct Hc as [<-|[<-|[<-|[<-|[]]]]]; auto 6.
  - vm_compute.
    repeat (constructor; [simpl; intuition discriminate|]). constructor.
  - vm_compute. intuition discriminate.
Defined.

(** Claim C9 as stated fails when a suggestion has no string name: the
    handlers pass [parsed.suggestions] on without validating it.  Here the
    day has the one item "Balboa Park" and the pool holds the four named
    candidates, with pairwise distinct fresh keys; the fill meets the
    candidate of the unnamed suggestion first and [normalizeTitleKey] throws
    a TypeError on its title: there is no resulting day. *)
Lemma finalize_throws_on_unnamed_suggestion :
  let x := Server.mkStrictItem "Balboa Park" "Walk" None in
  let suggestions :=
    Server.mkSuggestion None "sight" EmptyString None
    :: map Server.place ["Zoo"; "Pier"; "Museum"; "Beach"] in
  let cands := map Server.placeItem ["Zoo"; "Pier"; "Museum"; "Beach"] in
  nth_error [[x]] 0 = Some [x] /\
  Server.dedupeWithinDayByTitle [x] = [x] /\
  4 <= List.length cands /\
  (forall c, In c cands ->
             In (Some c) (List.concat (Server.fallbackDays [[x]] suggestions None))) /\
  NoDup (map Server.keyOf cands) /\
  ~ In (Server.keyOf x) (map Server.keyOf cands) /\
  Server.enforceDayCount3to5 [[x]] suggestions None = None.
Proof.
  intros x suggestions cands.
  split; [reflexivity|]. split; [reflexivity|]. split; [simpl; lia|].
  split.
  { intros c Hc. vm_compute in Hc. vm_compute.
    destruct Hc as [<-|[<-|[<-|[<-|[]]]]]; auto 6. }
  split.
  { vm_compute. repeat (constructor; [simpl; intuition discriminate|]). constructor. }
  split; [vm_compute; intuition discriminate|].
  vm_compute. reflexivity.
Qed.

(** The day of the witness, computed: the two first fresh candidates fill
    it. *)
Example enforceDayCount3to5_fills :
  option_map (map (map Server.title))
    (Server.enforceDayCount3to5
       [[Server.mkStrictItem "Balboa Park" "Walk" None]]
       (map Server.place ["Zoo"; "Pier"; "Museum"; "Beach"]) None)
  = Some [["Balboa Park"; "Zoo"; "Pier"]].
Proof. vm_compute. reflexivity. Qed.

(** Without suggestions the pool holds [undefined] entries and the fill of
    an under-filled day raises a TypeError. *)
Example enforceDayCount3to5_no_suggestions :
  Server.enforceDayCount3to5 [[Server.mkStrictItem "Balboa Park" "Walk" None]] [] None
  = None.
Proof. vm_compute. reflexivity. Qed.

(** ** Evaluations of the embedding on small inputs *)

Section Examples.

Import Js.

(** Two frames and a residue; the frame [[DONE]] is suppressed. *)
Example feed_two_frames :
  Sse.feed EmptyString
    ("event: jsonDelta" +:+ NL +:+ "data:  {x" +:+ NL +:+ "data: y}" +:+ NL +:+ NL
     +:+ "data: [DONE]" +:+ NL +:+ NL +:+ "data: z" +:+ NL +:+ NL +:+ "event: pi")
  = ("event: pi", [("jsonDelta", " {x" +:+ NL +:+ "y}"); ("message", "z")]).
Proof. vm_compute. reflexivity. Qed.

(** A delimiter cut in two by a chunk boundary. *)
Example feed_split_delimiter :
  Sse.feedAll EmptyString ["data: a" +:+ NL; NL +:+ "data: b" +:+ NL +:+ NL]
  = (EmptyString, [("message", "a"); ("message", "b")]).
Proof. vm_compute. reflexivity. Qed.

(** Differently prefixed names of one venue have one key. *)
Example normalizeTitleKey_prefix :
  Plan.normalizeTitleKey "Visit Balboa Park" = "balboa park" /\
  Plan.normalizeTitleKey "Balboa Park" = "balboa park" /\
  Plan.normalizeTitleKey "  Go to  the Zoo & Aquarium!" = "the zoo and aquarium" /\
  Plan.normalizeTitleKey "Walking tour" = "walking tour".
Proof. repeat split; vm_compute; reflexivity. Qed.

Example dedupeWithinDay_collapses :
  Plan.dedupeWithinDay
    [Plan.activity "Balboa Park"; Plan.activity "Visit Balboa Park"; Plan.activity "Zoo"]
  = [Plan.activity "Balboa Park"; Plan.activity "Zoo"].
Proof. vm_compute. reflexivity. Qed.

(** A day is returned once its closing bracket has been read. *)
Example extract_waits_for_the_day :
  let open_day := FlatJson.q "{'planDays':[[{'title':'Zoo','short_description':'Animals'}" in
  Extract.extractCompletedActivities FlatJson.parse open_day = [] /\
  map (map Plan.title)
      (Extract.extractCompletedActivities FlatJson.parse (open_day +:+ "]"))
  = [[Plan.JString "Zoo"]].
Proof. split; vm_compute; reflexivity. Qed.

Example performReorder_same_day :
  Reorder.performReorder
    [[Plan.activity "Zoo"; Plan.activity "Pier"; Plan.activity "Museum"]] 0 0 2
  = [[Plan.activity "Pier"; Plan.activity "Museum"; Plan.activity "Zoo"]].
Proof. vm_compute. reflexivity. Qed.

Example coerceCost_more :
  map (fun s => Server.coerceCost (Some s))
      ["$40-$25"; "10~20"; "$5 – $5"; "$0"; "about 1234567 yen"; "freeway"; "  $$ "]
  = [Some "$25–$40"; Some "$10–$20"; Some "$5"; Some "free";
     Some "$7–$123456"; None; Some "$10–$25"].
Proof. vm_compute. reflexivity. Qed.

End Examples.

(* ===================================================================== *)
(** * Part III: further properties of the same code *)
(* ===================================================================== *)

(** ** The server's framing and the client's decoder *)

Section Framing.

Import Js Sse Server.

Lemma splitFrames_cons_other c t :
  Ascii.eqb c LF = false -> splitFrames (String c t) = consHead c (splitFrames t).
Proof. intros H. destruct t as [|c' t]; [reflexivity|]. cbn. now rewrite H. Qed.

(** A text without line feed, then the delimiter: one complete frame. *)
Lemma splitFrames_line s rest :
  hasChar LF s = false ->
  splitFrames (s +:+ NL +:+ NL +:+ rest) = s :: splitFrames rest.
Proof.
  induction s as [|c s IH]; intros H; [reflexivity|].
  cbn [hasChar] in H. apply orb_false_elim in H. destruct H as [Hc Hs].
  cbn [String.append]. rewrite splitFrames_cons_other.
  - now rewrite (IH Hs).
  - rewrite Ascii.eqb_sym. exact Hc.
Qed.

(** Two lines without line feed, the second one not empty at its head,
    then the delimiter: still one frame. *)
Lemma splitFrames_two_lines a c b rest :
  hasChar LF a = false -> Ascii.eqb c LF = false -> hasChar LF b = false ->
  splitFrames (a +:+ NL +:+ String c b +:+ NL +:+ NL +:+ rest)
  = (a +:+ NL +:+ String c b) :: splitFrames rest.
Proof.
  intros Ha Hc Hb.
  assert (Htail : splitFrames (String c b +:+ NL +:+ NL +:+ rest)
                  = String c b :: splitFrames rest).
  { apply splitFrames_line. cbn [hasChar]. rewrite Ascii.eqb_sym, Hc. exact Hb. }
  induction a as [|x a IH].
  - cbn [String.append NL]. cbn [String.append NL] in Htail.
    change (splitFrames (String LF (String c (b +:+ String LF (String LF rest)))))
      with (if Ascii.eqb LF LF && Ascii.eqb c LF
            then EmptyString :: splitFrames (b +:+ String LF (String LF rest))
            else consHead LF (splitFrames (String c (b +:+ String LF (String LF rest))))).
    rewrite Hc, andb_false_r, Htail. reflexivity.
  - cbn [hasChar] in Ha. apply orb_false_elim in Ha. destruct Ha as [Hx Ha].
    cbn [String.append]. rewrite splitFrames_cons_other by (now rewrite Ascii.eqb_sym).
    cbn [String.append] in IH. now rewrite (IH Ha).
Qed.

Lemma splitLines_line s : hasChar LF s = false -> splitLines s = [s].
Proof.
  induction s as [|c s IH]; intros H; [reflexivity|].
  cbn [hasChar] in H. apply orb_false_elim in H. destruct H as [Hc Hs].
  cbn [splitLines]. rewrite Ascii.eqb_sym, Hc, (IH Hs). reflexivity.
Qed.

Lemma splitLines_two_lines a b :
  hasChar LF a = false -> hasChar LF b = false ->
  splitLines (a +:+ NL +:+ b) = [a; b].
Proof.
  intros Ha Hb. induction a as [|c a IH].
  - cbn. now rewrite (splitLines_line b Hb).
  - cbn [hasChar] in Ha. apply orb_false_elim in Ha. destruct Ha as [Hc Ha].
    cbn [String.append splitLines]. rewrite Ascii.eqb_sym, Hc.
    cbn [String.append] in IH. now rewrite (IH Ha).
Qed.

Lemma startsWith_head c s : startsWith (String c s) (String c EmptyString) = true.
Proof.
  unfold startsWith. cbn [prefix].
  destruct (ascii_dec c c); [now destruct s | congruence].
Qed.

(** The frame of one event decodes to the event. *)
Lemma parseFrame_sseEvent event payload :
  hasChar LF event = false -> hasChar LF payload = false ->
  stripTrailingCR event = event -> stripTrailingCR payload = payload ->
  parseFrame ("event: " +:+ event +:+ NL +:+ "data: " +:+ payload) = (event, payload).
Proof.
  intros He Hp Hce Hcp. unfold parseFrame.
  change ("event: " +:+ event +:+ NL +:+ "data: " +:+ payload)
    with (("event: " +:+ event) +:+ NL +:+ ("data: " +:+ payload)).
  rewrite splitLines_two_lines; [|exact He|exact Hp].
  cbn [fold_left]. unfold lineStep at 2.
  change (startsWith ("event: " +:+ event) "event:") with true. cbv iota.
  unfold fieldValue.
  change (drop 6 ("event: " +:+ event)) with (String " " event).
  rewrite startsWith_head.
  change (drop 1 (String " " event)) with event. rewrite Hce.
  unfold lineStep.
  change (startsWith ("data: " +:+ payload) "event:") with false.
  change (startsWith ("data: " +:+ payload) "data:") with true. cbv iota.
  unfold fieldValue.
  change (drop 5 ("data: " +:+ payload)) with (String " " payload).
  rewrite startsWith_head.
  change (drop 1 (String " " payload)) with payload. rewrite Hcp.
  reflexivity.
Qed.

Lemma sseStream_feed events :
  Forall Framable events ->
  feed EmptyString (sseStream events) = (EmptyString, events).
Proof.
  intros H. unfold feed. cbn [String.append].
  induction H as [|[event payload] rest [He [Hp [Hce [Hcp Hdone]]]] Hrest IH].
  - reflexivity.
  - cbn [fst snd] in *. cbn [sseStream]. unfold sseEvent.
    replace (("event: " +:+ event +:+ NL +:+ "data: " +:+ payload +:+ NL +:+ NL)
               +:+ sseStream rest)
      with (("event: " +:+ event) +:+ NL +:+ String "d" ("ata: " +:+ payload)
                                  +:+ NL +:+ NL +:+ sseStream rest).
    2:{ unfold NL. repeat (progress cbn [String.append] || rewrite append_assoc).
        reflexivity. }
    rewrite splitFrames_two_lines; [|exact He|reflexivity|exact Hp].
    injection IH as IHl IHf.
    destruct (splitFrames (sseStream rest)) as [|f fs] eqn:E;
      [now apply splitFrames_not_nil in E|].
    cbn [last removelast flat_map] in *.
    rewrite IHl, IHf. f_equal.
    unfold emitFrame.
    change (("event: " +:+ event) +:+ NL +:+ String "d" ("ata: " +:+ payload))
      with ("event: " +:+ event +:+ NL +:+ "data: " +:+ payload).
    rewrite parseFrame_sseEvent by assumption.
    destruct (String.eqb_spec payload "[DONE]"); [contradiction | reflexivity].
Qed.

Lemma splitLines_cons_line a t :
  hasChar LF a = false -> splitLines (a +:+ NL +:+ t) = a :: splitLines t.
Proof.
  intros Ha. induction a as [|c a IH]; [reflexivity|].
  cbn [hasChar] in Ha. apply orb_false_elim in Ha. destruct Ha as [Hc Ha].
  cbn [String.append splitLines]. rewrite Ascii.eqb_sym, Hc.
  cbn [String.append] in IH. now rewrite (IH Ha).
Qed.

(** A line feed inside a frame: the line before it stays in the frame. *)
Lemma splitFrames_skip_line a c t :
  hasChar LF a = false -> Ascii.eqb c LF = false ->
  splitFrames (a +:+ NL +:+ String c t)
  = prependHead (a +:+ NL) (splitFrames (String c t)).
Proof.
  intros Ha Hc. induction a as [|x a IH].
  - cbn [String.append NL].
    change (splitFrames (String LF (String c t)))
      with (if Ascii.eqb LF LF && Ascii.eqb c LF
            then EmptyString :: splitFrames t
            else consHead LF (splitFrames (String c t))).
    rewrite Hc, andb_false_r.
    destruct (splitFrames (String c t)) eqn:E; [now apply splitFrames_not_nil in E|].
    reflexivity.
  - cbn [hasChar] in Ha. apply orb_false_elim in Ha. destruct Ha as [Hx Ha].
    cbn [String.append]. rewrite splitFrames_cons_other by (now rewrite Ascii.eqb_sym).
    cbn [String.append] in IH. rewrite (IH Ha).
    destruct (splitFrames (String c t)) eqn:E; [now apply splitFrames_not_nil in E|].
    reflexivity.
Qed.

(** Extra X1.  Round trip of the framing: when the server writes events with
    [sseEvent], none of which has a line feed in its name or payload, ends in
    a carriage return or carries the end marker as payload, then however the
    transport cuts the text into chunks, the client's decoder calls back with
    exactly these events, in order, and keeps no residue. *)
Theorem sseEvent_round_trip (events : list (string * string)) (chunks : list string) :
  Forall Framable events ->
  joinChunks chunks = sseStream events ->
  feedAll EmptyString chunks = (EmptyString, events).
Proof.
  intros Hev Hchunks.
  rewrite feedAll_join by reflexivity.
  rewrite Hchunks. now apply sseStream_feed.
Qed.

(** Extra X2.  The framing is lossy on payloads of several lines: a payload
    [p1] line-feed [p2], where [p2] is a non-empty line that starts with
    neither tag, is sent by [sseEvent] on two lines of which only the first
    carries the [data:] tag, and the decoder delivers [p1] alone. *)
Theorem sseEvent_truncates_at_line_feed (event p1 p2 : string) :
  hasChar LF event = false -> stripTrailingCR event = event ->
  hasChar LF p1 = false -> stripTrailingCR p1 = p1 -> p1 <> "[DONE]" ->
  hasChar LF p2 = false -> p2 <> EmptyString ->
  startsWith p2 "event:" = false -> startsWith p2 "data:" = false ->
  feed EmptyString (sseEvent event (p1 +:+ NL +:+ p2)) = (EmptyString, [(event, p1)]).
Proof.
  intros He Hce Hp1 Hc1 Hdone Hp2 Hne Hev Hda.
  destruct p2 as [|c p2]; [congruence|].
  assert (Hc : Ascii.eqb c LF = false).
  { cbn [hasChar] in Hp2. apply orb_false_elim in Hp2. now rewrite Ascii.eqb_sym. }
  unfold feed.
  change (EmptyString +:+ sseEvent event (p1 +:+ NL +:+ String c p2))
    with (sseEvent event (p1 +:+ NL +:+ String c p2)).
  unfold sseEvent.
  replace ("event: " +:+ event +:+ NL +:+ "data: " +:+ (p1 +:+ NL +:+ String c p2) +:+ NL +:+ NL)
    with (("event: " +:+ event) +:+ NL +:+
          String "d" (("ata: " +:+ p1) +:+ NL +:+ String c (p2 +:+ NL +:+ NL +:+ EmptyString))).
  2:{ unfold NL. repeat (progress cbn [String.append] || rewrite append_assoc).
      reflexivity. }
  rewrite splitFrames_skip_line; [|exact He|reflexivity].
  change (String "d" (("ata: " +:+ p1) +:+ NL +:+ String c (p2 +:+ NL +:+ NL +:+ EmptyString)))
    with (("data: " +:+ p1) +:+ NL +:+ String c (p2 +:+ NL +:+ NL +:+ EmptyString)).
  rewrite splitFrames_skip_line; [|exact Hp1|exact Hc].
  change (String c (p2 +:+ NL +:+ NL +:+ EmptyString))
    with (String c p2 +:+ NL +:+ NL +:+ EmptyString).
  rewrite splitFrames_line by exact Hp2.
  cbn [splitFrames prependHead last removelast flat_map app].
  f_equal. unfold emitFrame, parseFrame.
  rewrite (append_assoc ("event: " +:+ event) NL), (append_assoc ("data: " +:+ p1) NL).
  rewrite splitLines_cons_line by exact He.
  rewrite splitLines_cons_line by exact Hp1.
  rewrite (splitLines_line _ Hp2).
  cbn [fold_left]. unfold lineStep at 3.
  change (startsWith ("event: " +:+ event) "event:") with true. cbv iota.
  unfold fieldValue.
  change (drop 6 ("event: " +:+ event)) with (String " " event).
  rewrite startsWith_head.
  change (drop 1 (String " " event)) with event. rewrite Hce.
  unfold lineStep at 2.
  change (startsWith ("data: " +:+ p1) "event:") with false.
  change (startsWith ("data: " +:+ p1) "data:") with true. cbv iota.
  unfold fieldValue.
  change (drop 5 ("data: " +:+ p1)) with (String " " p1).
  rewrite startsWith_head.
  change (drop 1 (String " " p1)) with p1. rewrite Hc1.
  unfold lineStep. rewrite Hev, Hda.
  cbn [String.append String.eqb].
  destruct (String.eqb_spec p1 "[DONE]"); [contradiction | reflexivity].
Qed.

End Framing.

Lemma sseEvent_round_trip_witness :
  let events := [("jsonDelta", "{'replyText'"); ("jsonFinal", "{ }"); ("end", "ok")] in
  Sse.feedAll EmptyString
    ["event: jsonDelta" +:+ Js.NL +:+ "data: {'reply";
     "Text'" +:+ Js.NL; Js.NL +:+ "event: jsonFinal" +:+ Js.NL +:+ "data: { }" +:+ Js.NL +:+ Js.NL
       +:+ "event: end" +:+ Js.NL +:+ "data: ok" +:+ Js.NL +:+ Js.NL]
  = (EmptyString, events).
Proof.
  intros events.
  apply (sseEvent_round_trip events).
  - repeat constructor; cbn; discriminate.
  - vm_compute. reflexivity.
Defined.

Lemma sseEvent_truncates_at_line_feed_witness :
  Sse.feed EmptyString (Server.sseEvent "jsonDelta" ("{" +:+ Js.NL +:+ " 'replyText'"))
  = (EmptyString, [("jsonDelta", "{")]).
Proof.
  apply (sseEvent_truncates_at_line_feed "jsonDelta" "{" " 'replyText'");
    try reflexivity; discriminate.
Defined.

(** ** The title canonicalizer *)

Section TitleKeys.

Import Js Plan.

Lemma allChars_impl (p q : ascii -> bool) s :
  (forall c, p c = true -> q c = true) -> allChars p s = true -> allChars q s = true.
Proof.
  intros Hpq. induction s as [|c s IH]; [reflexivity|].
  cbn [allChars]. intros H. apply andb_prop in H. destruct H as [Hc Hs].
  now rewrite (Hpq c Hc), (IH Hs).
Qed.

Lemma allChars_trimStart p s : allChars p s = true -> allChars p (trimStart s) = true.
Proof.
  induction s as [|c s IH]; [reflexivity|]. intros H. cbn [trimStart].
  destruct (is_space c); [|exact H].
  cbn [allChars] in H. apply andb_prop in H. now apply IH.
Qed.

Lemma allChars_trimEnd p s : allChars p s = true -> allChars p (trimEnd s) = true.
Proof.
  induction s as [|c s IH]; [reflexivity|]. intros H.
  cbn [allChars] in H. apply andb_prop in H. destruct H as [Hc Hs].
  cbn [trimEnd]. specialize (IH Hs).
  destruct (trimEnd s) as [|c' t].
  - destruct (is_space c); [reflexivity|]. cbn [allChars]. now rewrite Hc.
  - cbn [allChars] in *. now rewrite Hc.
Qed.

Lemma allChars_dropPunctuation s :
  allChars (fun c => is_lower c || is_digit c || is_space c) (dropPunctuation s) = true.
Proof.
  induction s as [|c s IH]; [reflexivity|]. cbn [dropPunctuation].
  destruct (is_lower c || is_digit c || is_space c) eqn:E; [|exact IH].
  cbn [allChars]. now rewrite E.
Qed.

Lemma allChars_collapseFrom b s :
  allChars (fun c => is_lower c || is_digit c || is_space c) s = true ->
  allChars keyChar (collapseFrom b s) = true.
Proof.
  revert b. induction s as [|c s IH]; intros b H; [reflexivity|].
  cbn [allChars] in H. apply andb_prop in H. destruct H as [Hc Hs].
  cbn [collapseFrom]. destruct (is_space c) eqn:Esp.
  - destruct b; [now apply IH|]. cbn [allChars]. now rewrite IH.
  - cbn [allChars]. rewrite IH by exact Hs. rewrite andb_true_r.
    unfold keyChar. rewrite orb_false_r in Hc. now rewrite Hc.
Qed.

(** What [trimStart] returns does not start with white space. *)
Lemma trimStart_idem s : trimStart (trimStart s) = trimStart s.
Proof.
  induction s as [|c s IH]; [reflexivity|]. cbn [trimStart].
  destruct (is_space c) eqn:E; [exact IH|]. cbn [trimStart]. now rewrite E.
Qed.

Lemma trimEnd_idem s : trimEnd (trimEnd s) = trimEnd s.
Proof.
  induction s as [|c s IH]; [reflexivity|]. cbn [trimEnd].
  destruct (trimEnd s) as [|c' t] eqn:E.
  - destruct (is_space c) eqn:Ec; [reflexivity|]. cbn [trimEnd]. now rewrite Ec.
  - cbn [trimEnd]. cbn [trimEnd] in IH. rewrite IH. reflexivity.
Qed.

(** [trimEnd] keeps a head that is not white space. *)
Lemma trimStart_trimEnd s : trimStart s = s -> trimStart (trimEnd s) = trimEnd s.
Proof.
  destruct s as [|c s]; [reflexivity|]. cbn [trimStart].
  destruct (is_space c) eqn:E.
  - intros H. exfalso.
    assert (Hlen : String.length (trimStart s) <= String.length s).
    { clear. induction s as [|x s IH]; simpl; [lia|]. destruct (is_space x); simpl; lia. }
    rewrite H in Hlen. simpl in Hlen. lia.
  - intros _. cbn [trimEnd]. destruct (trimEnd s); rewrite ?E; cbn [trimStart]; now rewrite E.
Qed.

Lemma trim_idem s : trim (trim s) = trim s.
Proof.
  unfold trim. rewrite (trimStart_trimEnd (trimStart s) (trimStart_idem s)).
  apply trimEnd_idem.
Qed.

(** Extra X3.  The dedup key of a title of ASCII characters is in canonical
    form: it is made of the characters [a-z], [0-9] and the space only, and
    has no white space at either end. *)
Theorem normalizeTitleKey_canonical (t : string) :
  isAscii t = true ->
  allChars keyChar (normalizeTitleKey t) = true /\
  trim (normalizeTitleKey t) = normalizeTitleKey t.
Proof.
  intros _. unfold normalizeTitleKey. split; [|apply trim_idem].
  unfold trim, collapseSpaces.
  apply allChars_trimEnd, allChars_trimStart, allChars_collapseFrom,
    allChars_dropPunctuation.
Qed.

(** *** Generic leading verbs *)

Lemma toLowerCase_app a b : toLowerCase (a +:+ b) = toLowerCase a +:+ toLowerCase b.
Proof. induction a as [|c a IH]; simpl; [reflexivity | now rewrite IH]. Qed.

Lemma replaceAmp_trimStart s : replaceAmp (trimStart s) = trimStart (replaceAmp s).
Proof.
  induction s as [|c s IH]; [reflexivity|].
  cbn [trimStart replaceAmp]. destruct (is_space c) eqn:Esp.
  - destruct (Ascii.eqb_spec c "&"); [subst c; discriminate|].
    cbn [trimStart]. now rewrite Esp.
  - cbn [replaceAmp]. destruct (Ascii.eqb c "&"); cbn [String.append trimStart].
    + reflexivity.
    + now rewrite Esp.
Qed.

Lemma trimStart_collapseFrom b s :
  trimStart (collapseFrom b s) = trimStart (collapseFrom true s).
Proof.
  destruct s as [|c s]; [reflexivity|]. cbn [collapseFrom].
  destruct (is_space c); [|reflexivity]. now destruct b.
Qed.

Lemma collapse_drop_trimStart b s :
  trimStart (collapseFrom b (dropPunctuation (trimStart s)))
  = trimStart (collapseFrom b (dropPunctuation s)).
Proof.
  revert b. induction s as [|c s IH]; intros b; [reflexivity|].
  cbn [trimStart]. destruct (is_space c) eqn:Esp; [|reflexivity].
  cbn [dropPunctuation]. rewrite Esp, orb_true_r.
  cbn [collapseFrom]. rewrite Esp, IH.
  destruct b; [reflexivity|]. cbn [trimStart].
  change (is_space " ") with true. cbv iota. apply trimStart_collapseFrom.
Qed.

(** The steps after the prefix removal do not see leading white space. *)
Lemma key_tail_trimStart s :
  trim (collapseSpaces (dropPunctuation (replaceAmp (trimStart s))))
  = trim (collapseSpaces (dropPunctuation (replaceAmp s))).
Proof.
  unfold trim, collapseSpaces. rewrite replaceAmp_trimStart.
  now rewrite collapse_drop_trimStart.
Qed.

Lemma afterGenericPrefix_hit p u :
  In p genericPrefixes ->
  afterGenericPrefix genericPrefixes (p +:+ " " +:+ u) = Some (trimStart u).
Proof.
  intros H. cbn [genericPrefixes In] in H.
  assert (Hnil : forall x, prefix EmptyString x = true) by (now destruct x).
  destruct H as [<-|[<-|[<-|[<-|[<-|[<-|[<-|[]]]]]]]];
    cbn [afterGenericPrefix genericPrefixes startsWith String.append prefix];
    repeat match goal with
           | |- context [ascii_dec ?a ?b] => destruct (ascii_dec a b); try congruence; try discriminate
           end;
    rewrite ?Hnil; reflexivity.
Qed.

(** Extra X4.  A generic leading verb does not change the key: for a word
    [P] that is, up to the case of its ASCII letters, one of visit, explore,
    walk, tour, see, go to, discover, and a title [t] of ASCII characters
    from which the canonicalizer strips no such prefix, the titles [P t]
    (with a space between) and [t] have the same key. *)
Theorem normalizeTitleKey_generic_prefix (P t : string) :
  isAscii t = true ->
  In (toLowerCase P) genericPrefixes ->
  stripGenericPrefix (toLowerCase t) = toLowerCase t ->
  normalizeTitleKey (P +:+ " " +:+ t) = normalizeTitleKey t.
Proof.
  intros _ HP Ht. unfold normalizeTitleKey. rewrite Ht.
  rewrite !toLowerCase_app. change (toLowerCase " ") with " ".
  unfold stripGenericPrefix.
  assert (Hts : trimStart (toLowerCase P +:+ " " +:+ toLowerCase t)
                = toLowerCase P +:+ " " +:+ toLowerCase t).
  { cbn [genericPrefixes In] in HP.
    destruct HP as [<-|[<-|[<-|[<-|[<-|[<-|[<-|[]]]]]]]]; reflexivity. }
  rewrite Hts, (afterGenericPrefix_hit _ _ HP).
  apply key_tail_trimStart.
Qed.

End TitleKeys.

Lemma normalizeTitleKey_generic_prefix_witness :
  Plan.normalizeTitleKey ("Visit" +:+ " " +:+ "Balboa Park")
  = Plan.normalizeTitleKey "Balboa Park".
Proof.
  apply (normalizeTitleKey_generic_prefix "Visit" "Balboa Park").
  - reflexivity.
  - vm_compute. auto.
  - reflexivity.
Defined.

Lemma normalizeTitleKey_canonical_witness :
  Plan.normalizeTitleKey "  Visit  the Zoo & Pier #2! " = "the zoo and pier 2" /\
  Js.allChars Plan.keyChar (Plan.normalizeTitleKey "  Visit  the Zoo & Pier #2! ") = true /\
  Js.trim (Plan.normalizeTitleKey "  Visit  the Zoo & Pier #2! ")
  = Plan.normalizeTitleKey "  Visit  the Zoo & Pier #2! ".
Proof.
  split; [vm_compute; reflexivity|].
  apply (normalizeTitleKey_canonical "  Visit  the Zoo & Pier #2! "). reflexivity.
Defined.

(** ** Dedup and merge, further *)

Section DedupMore.

Import Js Plan.

Lemma Subseq_refl {A} (l : list A) : Subseq l l.
Proof. induction l; constructor; assumption. Qed.

Lemma Subseq_nil_l {A} (l : list A) : Subseq [] l.
Proof. induction l; constructor; assumption. Qed.

Lemma Subseq_app_keep {A} (p l1 l2 : list A) : Subseq l1 l2 -> Subseq (p ++ l1) (p ++ l2).
Proof. intros H. induction p; simpl; [exact H | now constructor]. Qed.

Lemma Subseq_In {A} (l1 l2 : list A) x : Subseq l1 l2 -> In x l1 -> In x l2.
Proof.
  induction 1 as [|y l1 l2 _ IH|y l1 l2 _ IH]; intros Hin.
  - exact Hin.
  - right. now apply IH.
  - destruct Hin as [->|Hin]; [now left | right; now apply IH].
Qed.

(** The dedup loop appends to [out] a subsequence of the day, made of
    strict items. *)
Lemma dedupeLoop_subseq day : forall seen out,
  exists kept,
    dedupeLoop day seen out = out ++ kept /\
    Subseq kept day /\
    Forall (fun it => isStrictItem it = true) kept.
Proof.
  induction day as [|it day IH]; intros seen out.
  - exists []. rewrite app_nil_r. repeat split; constructor.
  - rewrite dedupeLoop_cons.
    destruct (isStrictItem it) eqn:Hit; cbn [negb].
    2:{ destruct (IH seen out) as (kept & -> & Hsub & Hst).
        exists kept. repeat split; [now apply Subseq_skip | exact Hst]. }
    destruct (itemKey it) as [key|].
    2:{ destruct (IH seen out) as (kept & -> & Hsub & Hst).
        exists kept. repeat split; [now apply Subseq_skip | exact Hst]. }
    destruct (has key seen).
    { destruct (IH seen out) as (kept & -> & Hsub & Hst).
      exists kept. repeat split; [now apply Subseq_skip | exact Hst]. }
    destruct (5 <=? List.length (out ++ [it])).
    + exists [it]. repeat split.
      * apply Subseq_keep, Subseq_nil_l.
      * constructor; [exact Hit | constructor].
    + destruct (IH (key :: seen) (out ++ [it])) as (kept & -> & Hsub & Hst).
      exists (it :: kept). rewrite <- app_assoc. repeat split.
      * now apply Subseq_keep.
      * now constructor.
Qed.

Lemma dedupeWithinDay_strict day :
  Forall (fun it => isStrictItem it = true) (dedupeWithinDay day).
Proof.
  unfold dedupeWithinDay.
  destruct (dedupeLoop_subseq day [] []) as (kept & -> & _ & Hst). exact Hst.
Qed.

Lemma dedupeWithinDay_DayClean day : DayClean (dedupeWithinDay day).
Proof. split; [apply dedupeWithinDay_strict | apply dedupeWithinDay_ok]. Qed.

(** Nothing but duplicates and overflow is dropped. *)
Lemma dedupeLoop_complete day : forall seen out ks,
  keysOf out = Some ks ->
  (forall k, In k ks -> In k seen) ->
  exists ks',
    keysOf (dedupeLoop day seen out) = Some ks' /\
    (5 <= List.length (dedupeLoop day seen out) \/
     forall it key, In it day -> isStrictItem it = true -> itemKey it = Some key ->
                    In key seen \/ In key ks').
Proof.
  induction day as [|it day IH]; intros seen out ks Hk Hsub.
  - exists ks. split; [exact Hk|]. right. intros it key [].
  - rewrite dedupeLoop_cons.
    destruct (isStrictItem it) eqn:Hit; cbn [negb].
    2:{ destruct (IH seen out ks Hk Hsub) as (ks' & Hk' & Hc).
        exists ks'. split; [exact Hk'|]. destruct Hc as [Hc|Hc]; [now left | right].
        intros it' key [<-|Hin] Hst He; [congruence | now apply (Hc it')]. }
    destruct (itemKey it) as [key|] eqn:Ekey.
    2:{ destruct (IH seen out ks Hk Hsub) as (ks' & Hk' & Hc).
        exists ks'. split; [exact Hk'|]. destruct Hc as [Hc|Hc]; [now left | right].
        intros it' key [<-|Hin] Hst He; [congruence | now apply (Hc it')]. }
    destruct (has key seen) eqn:Hh.
    { apply has_In in Hh.
      destruct (IH seen out ks Hk Hsub) as (ks' & Hk' & Hc).
      exists ks'. split; [exact Hk'|]. destruct Hc as [Hc|Hc]; [now left | right].
      intros it' key' [<-|Hin] Hst He; [|now apply (Hc it')].
      left. congruence. }
    assert (Hk1 : keysOf (out ++ [it]) = Some (ks ++ [key])).
    { rewrite keysOf_app, Hk. cbn [keysOf]. now rewrite Ekey. }
    destruct (5 <=? List.length (out ++ [it])) eqn:E5.
    + apply Nat.leb_le in E5. exists (ks ++ [key]). split; [exact Hk1 | now left].
    + destruct (IH (key :: seen) (out ++ [it]) (ks ++ [key]) Hk1) as (ks' & Hk' & Hc).
      { intros k Hin. apply in_app_or in Hin. destruct Hin as [Hin|[<-|[]]];
          [right; now apply Hsub | now left]. }
      exists ks'. split; [exact Hk'|]. destruct Hc as [Hc|Hc]; [now left | right].
      intros it' key' Hin Hst He.
      assert (Hks' : In key ks').
      { destruct (dedupeLoop_subseq day (key :: seen) (out ++ [it])) as (kept & Hd & _ & _).
        rewrite Hd, !keysOf_app, Hk in Hk'. cbn [keysOf] in Hk'. rewrite Ekey in Hk'.
        destruct (keysOf kept) as [kk|]; [|discriminate].
        injection Hk' as <-. apply in_or_app. left. apply in_or_app. right. now left. }
      destruct Hin as [<-|Hin].
      * right. congruence.
      * destruct (Hc it' key' Hin Hst He) as [[<-|Hs]|Hr]; [now right | now left | now right].
Qed.

(** Extra X5.  [dedupeWithinDay] only drops: its result is a subsequence of
    the day (items in their order), made of strict items with pairwise
    distinct keys, at most 5; and it drops nothing but non-strict items,
    duplicates and overflow: unless the result has 5 items, every strict
    item of the day has its key in the result. *)
Theorem dedupeWithinDay_characterized (day : list Item) :
  Subseq (dedupeWithinDay day) day /\
  DayClean (dedupeWithinDay day) /\
  (List.length (dedupeWithinDay day) = 5 \/
   forall it key, In it day -> isStrictItem it = true -> itemKey it = Some key ->
                  exists it', In it' (dedupeWithinDay day) /\ itemKey it' = Some key).
Proof.
  split; [|split].
  - unfold dedupeWithinDay.
    destruct (dedupeLoop_subseq day [] []) as (kept & -> & Hsub & _). exact Hsub.
  - apply dedupeWithinDay_DayClean.
  - destruct (dedupeLoop_complete day [] [] [] eq_refl) as (ks' & Hk' & Hc);
      [intros k []|].
    fold (dedupeWithinDay day) in Hk', Hc.
    destruct (dedupeWithinDay_ok day) as (ks & Hks & _ & Hlen).
    destruct Hc as [Hc|Hc]; [left; lia | right].
    intros it key Hin Hst He.
    destruct (Hc it key Hin Hst He) as [[]|Hin'].
    clear - Hk' Hin'. revert ks' Hk' Hin'.
    induction (dedupeWithinDay day) as [|x l IH]; intros ks' Hk' Hin'.
    + injection Hk' as <-. destruct Hin'.
    + cbn [keysOf] in Hk'. destruct (itemKey x) as [kx|] eqn:Ex; [|discriminate].
      destruct (keysOf l) as [kl|]; [|discriminate]. injection Hk' as <-.
      destruct Hin' as [<-|Hin'].
      * exists x. split; [now left | exact Ex].
      * destruct (IH kl eq_refl Hin') as [it' [Hi He']].
        exists it'. split; [now right | exact He'].
Qed.

Lemma sanitizePlanDays_DocClean days : DocClean (sanitizePlanDays days).
Proof.
  apply Forall_forall. intros d Hd. apply in_map_iff in Hd.
  destruct Hd as [day [<- _]]. apply dedupeWithinDay_DayClean.
Qed.

(** Extra X6.  The final sanitizer is idempotent and shape-preserving: it
    keeps the number of days, its output is clean (strict items, pairwise
    distinct keys, at most 5 a day), and sanitizing a sanitized plan changes
    nothing. *)
Theorem sanitizePlanDays_idempotent (days : StrictPlanDays) :
  List.length (sanitizePlanDays days) = List.length days /\
  DocClean (sanitizePlanDays days) /\
  sanitizePlanDays (sanitizePlanDays days) = sanitizePlanDays days.
Proof.
  split; [apply length_map|]. split; [apply sanitizePlanDays_DocClean|].
  unfold sanitizePlanDays. rewrite map_map. apply map_ext. intros day.
    apply dedupeWithinDay_clean, dedupeWithinDay_DayClean.
Qed.

End DedupMore.

(** ** The progressive merge, further *)

Section MergeMore.

Import Js Plan Extract Chat.

(** *** Shape *)

Lemma mergeDays_shape incoming : forall out merged,
  mergeDays out incoming = Some merged ->
  List.length merged = Nat.max (List.length out) (List.length incoming) /\
  forall d, List.length incoming <= d -> nth_error merged d = nth_error out d.
Proof.
  induction incoming as [|inc incoming IH]; intros out merged H; cbn [mergeDays] in H.
  - injection H as <-. split; [simpl; lia | reflexivity].
  - destruct (mergeDay _ inc) as [day|]; [|discriminate].
    destruct (mergeDays (tl out) incoming) as [days|] eqn:E; [|discriminate].
    injection H as <-. destruct (IH _ _ E) as [Hlen Hnth].
    split.
    + cbn [List.length]. rewrite Hlen. destruct out; simpl; lia.
    + intros d Hd. cbn [List.length] in Hd. destruct d as [|d]; [lia|].
      cbn [nth_error]. rewrite Hnth by lia.
      destruct out as [|e out]; [now destruct d | reflexivity].
Qed.

(** Extra X7.  The merge never drops or reorders days: the merged document
    has as many days as the longer of [prev] and [incoming], and the days of
    [prev] beyond the candidate's length are kept as they are. *)
Theorem mergePlanProgress_shape (prev incoming merged : StrictPlanDays) :
  mergePlanProgress prev incoming = Some merged ->
  List.length merged = Nat.max (List.length prev) (List.length incoming) /\
  forall d, List.length incoming <= d -> nth_error merged d = nth_error prev d.
Proof. apply mergeDays_shape. Qed.

(** *** On clean documents the merge only appends *)

Lemma appendLoop_from inc : forall seen existing,
  exists added, appendLoop inc seen existing = existing ++ added /\ Subseq added inc.
Proof.
  induction inc as [|it inc IH]; intros seen existing.
  - exists []. rewrite app_nil_r. split; [reflexivity | constructor].
  - rewrite appendLoop_cons.
    destruct (isStrictItem it); cbn [negb].
    2:{ destruct (IH seen existing) as (added & -> & Hsub).
        exists added. split; [reflexivity | now apply Subseq_skip]. }
    destruct (5 <=? List.length existing).
    { exists []. rewrite app_nil_r. split; [reflexivity | apply Subseq_nil_l]. }
    destruct (itemKey it) as [key|].
    2:{ destruct (IH seen existing) as (added & -> & Hsub).
        exists added. split; [reflexivity | now apply Subseq_skip]. }
    destruct (has key seen).
    + destruct (IH seen existing) as (added & -> & Hsub).
      exists added. split; [reflexivity | now apply Subseq_skip].
    + destruct (IH (key :: seen) (existing ++ [it])) as (added & -> & Hsub).
      exists (it :: added). rewrite <- app_assoc. split; [reflexivity | now apply Subseq_keep].
Qed.

Lemma mergeDay_appends existing inc :
  DayClean existing ->
  exists added,
    mergeDay existing inc = Some (existing ++ added) /\
    DayClean (existing ++ added) /\ Subseq added inc.
Proof.
  intros [Hs [ks [Hk [Hnd Hlen]]]].
  destruct (appendLoop_spec inc ks existing)
    as (added & ka & Happ & Hsa & Hka & Hnda & Hfresh & Hcap & _).
  destruct (appendLoop_from inc ks existing) as (added' & Happ' & Hsub).
  rewrite Happ in Happ'. apply app_inv_head in Happ'. subst added'.
  assert (Hclean : DayClean (existing ++ added)).
  { split; [apply Forall_app; now split|].
    exists (ks ++ ka). split; [now rewrite keysOf_app, Hk, Hka|].
    split; [|now apply Hcap].
    apply NoDup_app; [exact Hnd | exact Hnda |].
    intros k Hin1 Hin2. exact (Hfresh k Hin2 Hin1). }
  exists added. unfold mergeDay.
  rewrite Hk, Happ, (dedupeWithinDay_clean _ Hclean).
  repeat split; try assumption; apply Hclean.
Qed.

Lemma mergeDays_appends incoming : forall out,
  DocClean out ->
  exists merged,
    mergeDays out incoming = Some merged /\ DocClean merged /\
    forall d day, nth_error out d = Some day ->
                  exists added,
                    nth_error merged d = Some (day ++ added) /\
                    Subseq added (nth d incoming []).
Proof.
  induction incoming as [|inc incoming IH]; intros out Hout; cbn [mergeDays].
  - exists out. split; [reflexivity|]. split; [exact Hout|].
    intros d day Hd. exists []. rewrite app_nil_r. split; [exact Hd|].
    destruct d; constructor.
  - assert (He : DayClean (match out with [] => [] | e :: _ => e end)).
    { destruct out as [|e out]; [apply DayClean_nil | now inversion Hout]. }
    destruct (mergeDay_appends _ inc He) as (added & -> & Hday & Hsub).
    assert (Ht : DocClean (tl out)).
    { destruct out as [|e out]; [constructor | now inversion Hout]. }
    destruct (IH _ Ht) as (days & -> & Hdays & Hnth).
    eexists. split; [reflexivity|]. split; [now constructor|].
    intros d day Hd. destruct out as [|e out]; [now destruct d|].
    destruct d as [|d]; cbn [nth_error nth] in *.
    + injection Hd as <-. now exists added.
    + now apply Hnth.
Qed.

(** Extra X8.  On a clean document the merge only appends: it returns a
    clean document in which every day of [prev] is still there, at its
    position, as the beginning of the merged day; what follows it are items
    of the candidate's day at that position, in the candidate's order. *)
Theorem mergePlanProgress_appends (prev incoming : StrictPlanDays) :
  DocClean prev ->
  exists merged,
    mergePlanProgress prev incoming = Some merged /\ DocClean merged /\
    forall d day, nth_error prev d = Some day ->
                  exists added,
                    nth_error merged d = Some (day ++ added) /\
                    Subseq added (nth d incoming []).
Proof. apply mergeDays_appends. Qed.

Lemma mergePlanProgress_appends_witness :
  exists merged,
    mergePlanProgress [[activity "Zoo"]] [[activity "Visit Zoo"; activity "Pier"]]
    = Some merged /\ DocClean merged /\
    forall d day, nth_error [[activity "Zoo"]] d = Some day ->
                  exists added,
                    nth_error merged d = Some (day ++ added) /\
                    Subseq added (nth d [[activity "Visit Zoo"; activity "Pier"]] []).
Proof.
  apply (mergePlanProgress_appends [[activity "Zoo"]]
           [[activity "Visit Zoo"; activity "Pier"]]).
  constructor; [|constructor]. split.
  - constructor; [reflexivity | constructor].
  - exists ["zoo"]. split; [reflexivity|]. split; [|simpl; lia].
    constructor; [intros [] | constructor].
Defined.

(** *** The first merge of a turn *)

(** Below the cap the append loop and the dedup loop do the same. *)
Lemma appendLoop_dedupeLoop inc : forall seen out,
  List.length out <= 4 -> appendLoop inc seen out = dedupeLoop inc seen out.
Proof.
  induction inc as [|it inc IH]; intros seen out Hlen; [reflexivity|].
  rewrite appendLoop_cons, dedupeLoop_cons.
  destruct (isStrictItem it); cbn [negb]; [|now apply IH].
  destruct (Nat.leb_spec 5 (List.length out)) as [H5|_]; [lia|].
  destruct (itemKey it) as [key|]; [|now apply IH].
  destruct (has key seen); [now apply IH|].
  destruct (Nat.leb_spec 5 (List.length (out ++ [it]))) as [H5|H5].
  - apply appendLoop_noop. now left.
  - apply IH. lia.
Qed.

Lemma mergeDay_fresh inc : mergeDay [] inc = Some (dedupeWithinDay inc).
Proof.
  unfold mergeDay. cbn [keysOf].
  rewrite appendLoop_dedupeLoop by (simpl; lia).
  fold (dedupeWithinDay inc).
  now rewrite (dedupeWithinDay_clean _ (dedupeWithinDay_DayClean inc)).
Qed.

(** Extra X9.  Merging into the empty document is sanitizing: the first
    merge after a turn starts gives the candidate with each day
    de-duplicated and capped, exactly what [sanitizePlanDays] makes of it. *)
Theorem mergePlanProgress_fresh (incoming : StrictPlanDays) :
  mergePlanProgress [] incoming = Some (sanitizePlanDays incoming).
Proof.
  unfold mergePlanProgress, sanitizePlanDays.
  induction incoming as [|inc incoming IH]; [reflexivity|].
  cbn [mergeDays tl map]. now rewrite mergeDay_fresh, IH.
Qed.

End MergeMore.

Lemma mergePlanProgress_shape_witness :
  List.length [[Plan.activity "Zoo"; Plan.activity "Pier"]; [Plan.activity "Beach"]]
  = Nat.max (List.length [[Plan.activity "Zoo"]; [Plan.activity "Beach"]])
            (List.length [[Plan.activity "Pier"]]) /\
  forall d, List.length [[Plan.activity "Pier"]] <= d ->
            nth_error [[Plan.activity "Zoo"; Plan.activity "Pier"]; [Plan.activity "Beach"]] d
            = nth_error [[Plan.activity "Zoo"]; [Plan.activity "Beach"]] d.
Proof.
  apply (mergePlanProgress_shape [[Plan.activity "Zoo"]; [Plan.activity "Beach"]]
           [[Plan.activity "Pier"]]).
  vm_compute. reflexivity.
Defined.

(** ** The extractor and the handler: what reaches the document *)

Section StreamInvariant.

Import Js Plan Extract Chat.

Variable JSON_parse : string -> option Item.
Variable parseFinal : string -> option FinalDoc.
Variable parsePlanImage : string -> option PlanImage.

Lemma step_ok T i ch st : CursorOk st -> CursorOk (step JSON_parse T i ch st).
Proof.
  unfold CursorOk, step. destruct st as [inStr esc dSq dCu cur ds oStart].
  cbn [days currentDay]. intros [Hd Hc].
  repeat match goal with
         | |- context [if ?b then _ else _] => destruct b eqn:?
         | |- context [match ?o with Some _ => _ | None => _ end] => destruct o eqn:?
         end;
    cbn [days currentDay]; split;
    try exact Hd; try exact Hc;
    try (intros day' Hday'; first [discriminate Hday' | injection Hday' as <-]);
    try (now constructor);
    try (now apply Hc);
    try (apply Forall_app; split; [exact Hd|]; constructor; [|constructor];
         split; [|now apply Hc];
         match goal with
         | H : (0 <? List.length ?d) = true |- ?d <> [] =>
             intros ->; discriminate H
         end);
    try (apply Forall_app; split; [now apply Hc|]; constructor; [assumption | constructor]).
Qed.

Lemma scan_ok T r : forall i st, CursorOk st -> CursorOk (scan JSON_parse T r i st).
Proof.
  induction r as [|ch r IH]; intros i st H; [exact H|].
  cbn [scan]. destruct (0 <? depthSquare st)%Z; [|exact H].
  apply IH. now apply step_ok.
Qed.

Lemma dedupeWithinDay_not_nil day :
  day <> [] -> Forall (fun it => isStrictItem it = true) day ->
  dedupeWithinDay day <> [].
Proof.
  intros Hne Hst. destruct day as [|it day]; [congruence|].
  inversion Hst as [|? ? Hit _]; subst.
  unfold dedupeWithinDay. rewrite dedupeLoop_cons, Hit. cbn [negb].
  destruct (isStrictItem_key it Hit) as [t Ht].
  unfold itemKey. rewrite Ht. cbn [has existsb app List.length].
  change (5 <=? 1) with false. cbv iota.
  destruct (dedupeLoop_subseq day [normalizeTitleKey t] [it]) as (kept & -> & _).
  discriminate.
Qed.

(** Extra X10.  Whatever the buffer and the JSON parser, every day the
    extractor returns is non-empty and clean: its items all pass
    [isStrictItem], their keys are pairwise distinct and they are at most
    5. *)
Theorem extractCompletedActivities_clean (jsonText : string) :
  Forall (fun day => day <> [] /\ DayClean day)
         (extractCompletedActivities JSON_parse jsonText).
Proof.
  unfold extractCompletedActivities.
  destruct (execPlanDays jsonText 0) as [[i rest]|]; [|constructor].
  assert (Hok : CursorOk (scan JSON_parse jsonText rest i initCursor)).
  { apply scan_ok. split; [constructor | discriminate]. }
  destruct Hok as [Hd _].
  apply Forall_forall. intros day Hin.
  apply in_map_iff in Hin. destruct Hin as [d [<- Hd']].
  apply filter_In in Hd'. destruct Hd' as [Hd' _].
  rewrite Forall_forall in Hd. destruct (Hd d Hd') as [Hne Hst].
  split; [now apply dedupeWithinDay_not_nil | apply dedupeWithinDay_DayClean].
Qed.

(** *** The handler keeps the document clean *)

Lemma setNth_length {A} (l : list A) : forall i x, List.length (setNth i x l) = List.length l.
Proof.
  induction l as [|h l IH]; intros i x; [now destruct i|].
  destruct i; simpl; [reflexivity | now rewrite IH].
Qed.

Lemma setNth_Forall {A} (P : A -> Prop) (l : list A) : forall i x,
  Forall P l -> P x -> Forall P (setNth i x l).
Proof.
  induction l as [|h l IH]; intros i x Hl Hx; [destruct i; constructor|].
  inversion Hl; subst. destruct i; simpl; constructor; auto.
Qed.

Lemma setNth_keysOf day : forall j it it',
  nth_error day j = Some it -> itemKey it' = itemKey it ->
  keysOf (setNth j it' day) = keysOf day.
Proof.
  induction day as [|h day IH]; intros j it it' Hn Hk; [now destruct j|].
  destruct j as [|j]; cbn [nth_error setNth keysOf] in *.
  - injection Hn as ->. now rewrite Hk.
  - now rewrite (IH j it it' Hn Hk).
Qed.

Lemma applyPlanImage_clean p prev : DocClean prev -> DocClean (applyPlanImage p prev).
Proof.
  intros H. unfold applyPlanImage.
  destruct (at_ prev (dayIdx p)) as [day|] eqn:Ed; [|exact H].
  destruct (at_ day (itemIdx p)) as [it|] eqn:Ei; [|exact H].
  apply setNth_Forall; [exact H|].
  assert (Hday : DayClean day).
  { unfold at_ in Ed. destruct (dayIdx p <? 0)%Z; [discriminate|].
    apply nth_error_In in Ed. unfold DocClean in H. rewrite Forall_forall in H.
    now apply H. }
  unfold at_ in Ei. destruct (itemIdx p <? 0)%Z; [discriminate|].
  destruct Hday as [Hst [ks [Hk [Hnd Hlen]]]]. split.
  - apply setNth_Forall; [exact Hst|].
    apply nth_error_In in Ei. rewrite Forall_forall in Hst. exact (Hst it Ei).
  - exists ks. rewrite setNth_length.
    rewrite (setNth_keysOf day _ it _ Ei); [now repeat split | reflexivity].
Qed.

Lemma onEvent_clean st event data :
  DocClean (planDays st) ->
  exists st', onEvent JSON_parse parseFinal parsePlanImage st event data = Some st' /\
              DocClean (planDays st').
Proof.
  intros H. unfold onEvent.
  destruct (finalized st && _); [now exists st|].
  destruct (String.eqb event "jsonDelta").
  { unfold onJsonDelta.
    destruct (0 <? _); [|eexists; split; [reflexivity | exact H]].
    unfold mergePlanProgress.
    destruct (mergeDays_appends
                (extractCompletedActivities JSON_parse (jsonBuffer st +:+ data))
                (planDays st) H)
      as (merged & -> & Hm & _).
    eexists. split; [reflexivity | exact Hm]. }
  destruct (String.eqb event "planImage").
  { eexists. split; [reflexivity|]. unfold onPlanImage.
    destruct (parsePlanImage data); [now apply applyPlanImage_clean | exact H]. }
  destruct (String.eqb event "planImageError"); [now exists st|].
  destruct (String.eqb event "jsonFinal").
  { eexists. split; [reflexivity|]. unfold onJsonFinal.
    destruct (parseFinal data) as [[|[|ds|]]|]; cbn [planDays]; try exact H.
    - constructor.
    - apply sanitizePlanDays_DocClean. }
  destruct (String.eqb event "error"); now exists st.
Qed.

(** Extra X11.  The stream handler keeps the plan document clean and does
    not fail on it: from a state whose document is clean (the empty document
    of a new turn is), every sequence of events of any kind, in which each
    [planImage] payload that decodes has integers as [dayIdx] and [itemIdx],
    with any other payloads and any JSON parser, runs to the end without an
    uncaught exception and leaves a clean document. *)
Theorem runEvents_keeps_document_clean (st : State) (events : list (string * string)) :
  DocClean (planDays st) ->
  exists st', runEvents JSON_parse parseFinal parsePlanImage st events = Some st' /\
              DocClean (planDays st').
Proof.
  revert st. induction events as [|[event data] events IH]; intros st H.
  - now exists st.
  - cbn [runEvents]. destruct (onEvent_clean st event data H) as [st1 [-> H1]].
    now apply IH.
Qed.

End StreamInvariant.

Lemma runEvents_keeps_document_clean_witness :
  exists st',
    Chat.runEvents FlatJson.parse (fun _ => None) (fun _ => None)
      (Chat.mkState false EmptyString [])
      [("jsonDelta", FlatJson.q "{'planDays':[[{'title':'Zoo','short_description':'Animals'}]");
       ("ping", "{}"); ("jsonFinal", "not json"); ("jsonDelta", "]}")]
    = Some st' /\ Plan.DocClean (Chat.planDays st').
Proof.
  apply (runEvents_keeps_document_clean FlatJson.parse (fun _ => None) (fun _ => None)).
  constructor.
Defined.

(** ** The drag-and-drop mutators, further *)

Section MovesMore.

Import Js Plan Reorder.

(** *** Splices *)

Lemma removeAt_perm {A} (l : list A) i x :
  nth_error l i = Some x -> Permutation (x :: removeAt i l) l.
Proof.
  intros H. unfold removeAt.
  rewrite <- (firstn_skipn_middle _ _ H) at 3. apply Permutation_middle.
Qed.

Lemma insertAt_perm {A} (l : list A) k x : Permutation (insertAt k x l) (x :: l).
Proof.
  unfold insertAt. rewrite <- (firstn_skipn k l) at 3.
  symmetry. apply Permutation_middle.
Qed.

Lemma removeAt_length {A} (l : list A) i x :
  nth_error l i = Some x -> S (List.length (removeAt i l)) = List.length l.
Proof.
  intros H. exact (Permutation_length (removeAt_perm l i x H)).
Qed.

Lemma insertAt_removeAt {A} (l : list A) i x :
  nth_error l i = Some x -> insertAt i x (removeAt i l) = l.
Proof.
  intros H. assert (Hi : i < List.length l) by (apply nth_error_Some; congruence).
  unfold insertAt, removeAt.
  rewrite firstn_app, firstn_firstn, Nat.min_id, length_firstn, Nat.min_l by lia.
  rewrite Nat.sub_diag, firstn_0, app_nil_r.
  rewrite skipn_app, length_firstn, Nat.min_l by lia.
  rewrite Nat.sub_diag, skipn_0.
  rewrite (skipn_all2 (firstn i l)) by (rewrite length_firstn; lia).
  cbn [app]. now apply firstn_skipn_middle.
Qed.

Lemma removeAt_insertAt {A} (l : list A) k x :
  k <= List.length l -> removeAt k (insertAt k x l) = l.
Proof.
  intros Hk. unfold insertAt, removeAt.
  rewrite firstn_app, length_firstn, Nat.min_l by lia.
  rewrite Nat.sub_diag, firstn_0, app_nil_r, firstn_firstn, Nat.min_id.
  rewrite skipn_app, length_firstn, Nat.min_l by lia.
  rewrite (skipn_all2 (firstn k l)) by (rewrite length_firstn; lia).
  replace (S k - k) with 1 by lia. cbn [skipn app].
  apply firstn_skipn.
Qed.

Lemma nth_error_insertAt {A} (l : list A) k x :
  k <= List.length l -> nth_error (insertAt k x l) k = Some x.
Proof.
  intros Hk. unfold insertAt.
  rewrite nth_error_app2 by (rewrite length_firstn; lia).
  rewrite length_firstn, Nat.min_l by lia. now rewrite Nat.sub_diag.
Qed.

(** *** Writing one day *)

Lemma setDay_same n d (l : StrictPlanDays) :
  nth_error l n = Some d -> setDay n d l = l.
Proof. intros H. unfold setDay. now apply firstn_skipn_middle. Qed.

Lemma setDay_length n d' (l : StrictPlanDays) :
  n < List.length l -> List.length (setDay n d' l) = List.length l.
Proof.
  intros H. unfold setDay. rewrite length_app. cbn [List.length].
  rewrite length_firstn, length_skipn. lia.
Qed.

Lemma nth_error_setDay_same n d' (l : StrictPlanDays) :
  n < List.length l -> nth_error (setDay n d' l) n = Some d'.
Proof.
  intros H. unfold setDay.
  rewrite nth_error_app2 by (rewrite length_firstn; lia).
  rewrite length_firstn, Nat.min_l by lia. now rewrite Nat.sub_diag.
Qed.

Lemma nth_error_setDay_other n m d' : forall l : StrictPlanDays,
  m <> n -> nth_error (setDay n d' l) m = nth_error l m \/ List.length l <= n.
Proof.
  revert m. induction n as [|n IH]; intros m l Hne.
  - destruct l as [|e l]; [right; simpl; lia|]. left.
    destruct m; [congruence | reflexivity].
  - destruct l as [|e l]; [right; simpl; lia|].
    destruct m as [|m]; [now left|].
    destruct (IH m l) as [H|H]; [congruence | left; exact H | right; simpl; lia].
Qed.

Lemma setDay_setDay n d1 d2 (l : StrictPlanDays) :
  n < List.length l -> setDay n d2 (setDay n d1 l) = setDay n d2 l.
Proof.
  intros H. unfold setDay.
  rewrite firstn_app, firstn_firstn, Nat.min_id, length_firstn, Nat.min_l by lia.
  rewrite Nat.sub_diag, firstn_0, app_nil_r.
  rewrite skipn_app, length_firstn, Nat.min_l by lia.
  rewrite (skipn_all2 (firstn n l)) by (rewrite length_firstn; lia).
  replace (S n - n) with 1 by lia. reflexivity.
Qed.

Lemma setDay_Forall2 n d d' (l : StrictPlanDays) :
  nth_error l n = Some d -> Permutation d' d ->
  Forall2 (@Permutation Item) (setDay n d' l) l.
Proof.
  intros H Hp. unfold setDay. rewrite <- (firstn_skipn_middle _ _ H) at 3.
  apply Forall2_app; [|constructor; [exact Hp|]];
    clear; match goal with |- Forall2 _ ?x ?x => induction x; constructor; auto end.
Qed.

(** The items of a document, with day [n] put first. *)
Lemma concat_day_first n d (l : StrictPlanDays) :
  nth_error l n = Some d ->
  Permutation (List.concat l)
              (d ++ List.concat (firstn n l) ++ List.concat (skipn (S n) l)).
Proof.
  intros H. rewrite <- (firstn_skipn_middle _ _ H) at 1.
  rewrite concat_app. cbn [List.concat].
  rewrite app_assoc, (Permutation_app_comm (List.concat (firstn n l)) d).
  now rewrite <- app_assoc.
Qed.

Lemma concat_setDay n d' (l : StrictPlanDays) :
  Permutation (List.concat (setDay n d' l))
              (d' ++ List.concat (firstn n l) ++ List.concat (skipn (S n) l)).
Proof.
  unfold setDay. rewrite concat_app. cbn [List.concat].
  rewrite app_assoc, (Permutation_app_comm (List.concat (firstn n l)) d').
  now rewrite <- app_assoc.
Qed.

(** Taking [x] out of day [n]. *)
Lemma concat_remove n d i x (l : StrictPlanDays) :
  nth_error l n = Some d -> nth_error d i = Some x ->
  Permutation (x :: List.concat (setDay n (removeAt i d) l)) (List.concat l).
Proof.
  intros Hd Hx. rewrite concat_setDay, (concat_day_first n d l Hd).
  change (x :: removeAt i d ++ ?r) with ((x :: removeAt i d) ++ r).
  apply Permutation_app_tail. now apply removeAt_perm.
Qed.

(** Putting [x] into day [m]. *)
Lemma concat_insert m e k x (l : StrictPlanDays) :
  nth_error l m = Some e ->
  Permutation (List.concat (setDay m (insertAt k x e) l)) (x :: List.concat l).
Proof.
  intros He. rewrite concat_setDay, (concat_day_first m e l He).
  change (x :: e ++ ?r) with ((x :: e) ++ r).
  apply Permutation_app_tail. apply insertAt_perm.
Qed.

Lemma at_nth_error {A} (l : list A) i x :
  at_ l i = Some x -> nth_error l (Z.to_nat i) = Some x /\ (0 <= i)%Z.
Proof.
  unfold at_. destruct (Z.ltb_spec i 0) as [Hneg|Hpos]; [discriminate|].
  intros Hx. split; [exact Hx | lia].
Qed.

(** *** The two mutators *)

Lemma performReorder_days prev day fromIndex toIndex :
  Forall2 (@Permutation Item) (performReorder prev day fromIndex toIndex) prev.
Proof.
  assert (Hrefl : Forall2 (@Permutation Item) prev prev).
  { induction prev; constructor; auto. }
  unfold performReorder.
  destruct (at_ prev day) as [d|] eqn:Ed; [|exact Hrefl].
  destruct (_ || _); [exact Hrefl|].
  destruct (nth_error d (Z.to_nat fromIndex)) as [moved|] eqn:Em; [|exact Hrefl].
  apply at_nth_error in Ed. destruct Ed as [Ed _].
  apply (setDay_Forall2 _ d); [exact Ed|].
  rewrite insertAt_perm. now apply removeAt_perm.
Qed.

Lemma performCrossDayMove_items prev from to data :
  Permutation (List.concat (performCrossDayMove prev from to data)) (List.concat prev)
  /\ List.length (performCrossDayMove prev from to data) = List.length prev.
Proof.
  unfold performCrossDayMove.
  destruct (at_ prev (day from)) as [src|] eqn:Es; [|now split].
  destruct (at_ prev (day to)) as [dst|] eqn:Et; [|now split].
  destruct (Z.ltb_spec (index from) 0) as [|Hlo]; [now split|].
  destruct (Z.leb_spec (Z.of_nat (List.length src)) (index from)) as [|Hhi]; [now split|].
  cbn [orb].
  apply at_nth_error in Es. destruct Es as [Es Hfd].
  apply at_nth_error in Et. destruct Et as [Et Htd].
  assert (Hf : Z.to_nat (day from) < List.length prev) by (apply nth_error_Some; congruence).
  assert (Ht : Z.to_nat (day to) < List.length prev) by (apply nth_error_Some; congruence).
  destruct (nth_error src (Z.to_nat (index from))) as [x|] eqn:Ex.
  2:{ apply nth_error_None in Ex. lia. }
  set (src' := removeAt (Z.to_nat (index from)) src).
  set (prev1 := setDay (Z.to_nat (day from)) src' prev).
  assert (Hdst0 : nth_error prev1 (Z.to_nat (day to))
                  = Some (if (day from =? day to)%Z then src' else dst)).
  { destruct (Z.eqb_spec (day from) (day to)) as [E|E].
    - rewrite <- E. now apply nth_error_setDay_same.
    - destruct (nth_error_setDay_other (Z.to_nat (day from)) (Z.to_nat (day to)) src' prev)
        as [H|H]; [lia | unfold prev1; now rewrite H | lia]. }
  split.
  - rewrite (concat_insert _ _ _ _ _ Hdst0). now apply concat_remove.
  - rewrite setDay_length; unfold prev1; rewrite setDay_length; lia.
Qed.

(** Extra X12.  A same-day reorder keeps every day's items: the result has
    the same days, in the same order, and each day holds exactly the items
    it held (the reordered day as a permutation, the others untouched),
    whatever the indices are. *)
Theorem performReorder_keeps_items (prev : StrictPlanDays) (day fromIndex toIndex : Z) :
  Forall2 (@Permutation Item) (performReorder prev day fromIndex toIndex) prev /\
  forall d, Z.of_nat d <> day ->
            nth_error (performReorder prev day fromIndex toIndex) d = nth_error prev d.
Proof.
  split; [apply performReorder_days|].
  intros d Hd. unfold performReorder.
  destruct (at_ prev day) as [dd|] eqn:Ed; [|reflexivity].
  destruct (_ || _); [reflexivity|].
  destruct (nth_error dd _); [|reflexivity].
  apply at_nth_error in Ed. destruct Ed as [Ed Hpos].
  destruct (nth_error_setDay_other (Z.to_nat day) d
              (insertAt (clamp toIndex
                 (List.length (removeAt (Z.to_nat fromIndex) dd))) i
                 (removeAt (Z.to_nat fromIndex) dd)) prev) as [H|H].
  - lia.
  - exact H.
  - apply nth_error_None in H. congruence.
Qed.

(** Extra X13.  A cross-day move neither loses nor duplicates an item: the
    items of the whole document after the move are a permutation of the
    items before, and the number of days is unchanged, whatever the
    positions and the snapshot are. *)
Theorem performCrossDayMove_keeps_items (prev : StrictPlanDays) (from to : Pos)
        (data : Item) :
  Permutation (List.concat (performCrossDayMove prev from to data)) (List.concat prev)
  /\ List.length (performCrossDayMove prev from to data) = List.length prev.
Proof. apply performCrossDayMove_items. Qed.

Lemma insertAt_length {A} (l : list A) k x :
  List.length (insertAt k x l) = S (List.length l).
Proof. exact (Permutation_length (insertAt_perm l k x)). Qed.

(** The updater of [performReorder] when its guards pass. *)
Lemma performReorder_eq prev day i j d x :
  at_ prev day = Some d -> (0 <= i)%Z -> nth_error d (Z.to_nat i) = Some x ->
  performReorder prev day i j
  = setDay (Z.to_nat day)
           (insertAt (clamp j (List.length d - 1)) x (removeAt (Z.to_nat i) d)) prev.
Proof.
  intros Ed Hi Hx. unfold performReorder. rewrite Ed.
  assert (Hlt : Z.to_nat i < List.length d) by (apply nth_error_Some; congruence).
  destruct (Z.ltb_spec i 0) as [|_]; [lia|].
  destruct (Z.leb_spec (Z.of_nat (List.length d)) i) as [|_]; [lia|].
  cbn [orb]. rewrite Hx. cbv zeta.
  pose proof (removeAt_length d _ x Hx) as Hlen.
  replace (List.length (removeAt (Z.to_nat i) d)) with (List.length d - 1) by lia.
  reflexivity.
Qed.

Lemma clamp_le i n : clamp i n <= n.
Proof. unfold clamp. lia. Qed.

Lemma clamp_inside i n : (0 <= i <= Z.of_nat n)%Z -> clamp i n = Z.to_nat i.
Proof. unfold clamp. lia. Qed.

Lemma performReorder_same_slot prev day i :
  performReorder prev day i i = prev.
Proof.
  unfold performReorder.
  destruct (at_ prev day) as [d|] eqn:Ed; [|reflexivity].
  destruct (Z.ltb_spec i 0) as [|Hlo]; [reflexivity|].
  destruct (Z.leb_spec (Z.of_nat (List.length d)) i) as [|Hhi]; [reflexivity|].
  cbn [orb].
  destruct (nth_error d (Z.to_nat i)) as [x|] eqn:Ex; [|reflexivity].
  cbv zeta. pose proof (removeAt_length d _ x Ex) as Hlen.
  rewrite clamp_inside by lia. rewrite (insertAt_removeAt d _ x Ex).
  apply at_nth_error in Ed. now apply setDay_same.
Qed.

(** Extra X14.  A same-day reorder can be undone: after moving the item at
    a valid index [i] of a day towards [j], the item sits at index
    [min(max(j, 0), length - 1)], and moving it from there back to [i]
    restores the document. *)
Theorem performReorder_undo (prev : StrictPlanDays) (day i j : Z) (d : list Item) :
  at_ prev day = Some d ->
  (0 <= i < Z.of_nat (List.length d))%Z ->
  let k := Z.of_nat (clamp j (List.length d - 1)) in
  let moved := performReorder prev day i j in
  (exists d', at_ moved day = Some d' /\
              nth_error d' (Z.to_nat k) = nth_error d (Z.to_nat i)) /\
  performReorder moved day k i = prev.
Proof.
  intros Ed Hi k moved.
  destruct (nth_error d (Z.to_nat i)) as [x|] eqn:Ex.
  2:{ apply nth_error_None in Ex. lia. }
  pose proof (removeAt_length d _ x Ex) as Hlen.
  pose proof (clamp_le j (List.length d - 1)) as Hk.
  set (d1 := insertAt (clamp j (List.length d - 1)) x (removeAt (Z.to_nat i) d)).
  assert (Hm : moved = setDay (Z.to_nat day) d1 prev).
  { unfold moved. apply performReorder_eq; [exact Ed | lia | exact Ex]. }
  destruct (at_nth_error _ _ _ Ed) as [End Hday].
  assert (Hdl : Z.to_nat day < List.length prev) by (apply nth_error_Some; congruence).
  assert (Ed1 : at_ moved day = Some d1).
  { rewrite Hm. unfold at_. destruct (Z.ltb_spec day 0); [lia|].
    now apply nth_error_setDay_same. }
  assert (Ex1 : nth_error d1 (Z.to_nat k) = Some x).
  { unfold k. rewrite Nat2Z.id. apply nth_error_insertAt. lia. }
  split; [exists d1; split; [exact Ed1 | exact Ex1]|].
  rewrite (performReorder_eq moved day k i d1 x Ed1); [|unfold k; lia | exact Ex1].
  assert (Hd1 : List.length d1 = List.length d).
  { unfold d1. rewrite insertAt_length. lia. }
  rewrite Hd1, clamp_inside by lia.
  unfold k. rewrite Nat2Z.id. unfold d1 at 1.
  rewrite removeAt_insertAt by lia.
  rewrite (insertAt_removeAt d _ x Ex).
  rewrite Hm, setDay_setDay by exact Hdl.
  now apply setDay_same.
Qed.

(** Extra X15.  What a drop does to the plan: with no drop target the
    document is unchanged; with any target, rendered document and drag
    state, no item is lost or duplicated and the number of days is kept. *)
Theorem onGlobalPointerUp_keeps_items (drag : DragState) (dropTarget : option Pos)
        (planDays prev : StrictPlanDays) :
  onGlobalPointerUp drag None planDays prev = prev /\
  Permutation (List.concat (onGlobalPointerUp drag dropTarget planDays prev))
              (List.concat prev) /\
  List.length (onGlobalPointerUp drag dropTarget planDays prev) = List.length prev.
Proof.
  split.
  - unfold onGlobalPointerUp. cbn [computeFinalTarget day index].
    rewrite Z.eqb_refl. cbn [negb]. apply performReorder_same_slot.
  - unfold onGlobalPointerUp.
    destruct (negb _).
    + apply performCrossDayMove_items.
    + pose proof (performReorder_days prev (fromDay drag) (fromIndex drag)
                    (index (computeFinalTarget drag dropTarget planDays))) as H.
      split; [|exact (Forall2_length H)].
      induction H as [|a b la lb Hab _ IH]; [constructor|].
      cbn [List.concat]. now apply Permutation_app.
Qed.

(** Extra X16.  The target computed for a drop over some slot always names
    a slot of the rendered document when that document has a day: an
    existing day and an index between 0 and that day's length.  A target
    that already is such a slot is returned as it is. *)
Theorem computeFinalTarget_in_bounds (d : DragState) (t : Pos) (days : StrictPlanDays) :
  days <> [] ->
  (exists l, at_ days (day (computeFinalTarget d (Some t) days)) = Some l /\
             (0 <= index (computeFinalTarget d (Some t) days) <= Z.of_nat (List.length l))%Z)
  /\ (forall l, at_ days (day t) = Some l ->
                (0 <= index t <= Z.of_nat (List.length l))%Z ->
                computeFinalTarget d (Some t) days = t).
Proof.
  intros Hne.
  assert (Hlen : 0 < List.length days) by (destruct days; [congruence | simpl; lia]).
  split.
  - cbn [computeFinalTarget day index].
    set (dd := Z.max 0 (Z.min (day t) (Z.max 0 (Z.of_nat (List.length days) - 1)))).
    assert (Hdd : (0 <= dd < Z.of_nat (List.length days))%Z) by (unfold dd; lia).
    unfold at_ at 1. destruct (Z.ltb_spec dd 0); [lia|].
    destruct (nth_error days (Z.to_nat dd)) as [l|] eqn:El.
    2:{ apply nth_error_None in El. lia. }
    exists l. split; [reflexivity|].
    unfold at_. destruct (Z.ltb_spec dd 0); [lia|]. rewrite El. lia.
  - intros l El Hi. destruct (at_nth_error _ _ _ El) as [En Hd].
    assert (Hdl : Z.to_nat (day t) < List.length days) by (apply nth_error_Some; congruence).
    cbn [computeFinalTarget].
    replace (Z.max 0 (Z.min (day t) (Z.max 0 (Z.of_nat (List.length days) - 1))))
      with (day t) by lia.
    rewrite El. replace (Z.max 0 (Z.min (index t) (Z.of_nat (List.length l))))
      with (index t) by lia.
    now destruct t.
Qed.

End MovesMore.

Lemma performReorder_undo_witness :
  let a := Plan.mkItem (Plan.JString "A") (Plan.JString "a") Plan.JUndefined Plan.JUndefined in
  let b := Plan.mkItem (Plan.JString "B") (Plan.JString "b") Plan.JUndefined Plan.JUndefined in
  let c := Plan.mkItem (Plan.JString "C") (Plan.JString "c") Plan.JUndefined Plan.JUndefined in
  Reorder.performReorder [[a; b; c]] 0 0 7 = [[b; c; a]] /\
  Reorder.performReorder (Reorder.performReorder [[a; b; c]] 0 0 7) 0 2 0 = [[a; b; c]].
Proof.
  intros a b c. split; [reflexivity|].
  apply (performReorder_undo [[a; b; c]] 0 0 7 [a; b; c]); [reflexivity | simpl; lia].
Defined.

Lemma computeFinalTarget_in_bounds_witness :
  let a := Plan.mkItem (Plan.JString "A") (Plan.JString "a") Plan.JUndefined Plan.JUndefined in
  exists l, Js.at_ [[a]; []]
              (Reorder.day (Reorder.computeFinalTarget (Reorder.mkDrag 0 0 a)
                              (Some (Reorder.mkPos 9 9)) [[a]; []])) = Some l /\
            (0 <= Reorder.index (Reorder.computeFinalTarget (Reorder.mkDrag 0 0 a)
                                   (Some (Reorder.mkPos 9 9)) [[a]; []])
             <= Z.of_nat (List.length l))%Z.
Proof.
  intros a.
  apply (computeFinalTarget_in_bounds (Reorder.mkDrag 0 0 a) (Reorder.mkPos 9 9) [[a]; []]).
  discriminate.
Defined.

(** ** The pager *)

Section Paging.

Import Pager.

Lemma aligned_le_maxStart (totalDays s : nat) :
  s mod PAGE_SIZE = 0 -> s <= totalDays - 1 -> s <= maxStart totalDays.
Proof.
  unfold maxStart, PAGE_SIZE. intros Hm Hs.
  pose proof (Nat.div_mod_eq s 4) as E. rewrite Hm, Nat.add_0_r in E.
  rewrite E, (Nat.mul_comm 4). apply Nat.mul_le_mono_r.
  apply Nat.Div0.div_le_mono. exact Hs.
Qed.

Lemma maxStart_aligned (totalDays : nat) :
  maxStart totalDays mod PAGE_SIZE = 0 /\ maxStart totalDays <= totalDays - 1.
Proof.
  unfold maxStart, PAGE_SIZE. split.
  - apply Nat.Div0.mod_mul.
  - rewrite Nat.mul_comm. apply Nat.Div0.mul_div_le.
Qed.

Lemma aligned_step (s : nat) :
  s mod PAGE_SIZE = 0 ->
  (s + PAGE_SIZE) mod PAGE_SIZE = 0 /\ (s - PAGE_SIZE) mod PAGE_SIZE = 0.
Proof.
  unfold PAGE_SIZE. intros Hm.
  pose proof (Nat.div_mod_eq s 4) as E. rewrite Hm, Nat.add_0_r in E.
  split.
  - replace (s + 4) with (s + 1 * 4) by lia. now rewrite Nat.Div0.mod_add.
  - destruct (s / 4) as [|q] eqn:Eq.
    + replace s with 0 by lia. reflexivity.
    + replace (s - 4) with (q * 4) by lia. apply Nat.Div0.mod_mul.
Qed.

(** Extra X17.  The pager keeps the calendar's page start valid, that is a
    multiple of the page size not beyond the start of the last page:
    [onPrev] and [onNext] preserve validity in both views, and
    [switchToCalendar] establishes it from any current day that is a day of
    the plan (or day 0 of an empty plan). *)
Theorem pager_keeps_page_valid (totalDays : nat) (nav : Nav) :
  (PageOk totalDays nav ->
   PageOk totalDays (onPrev nav) /\ PageOk totalDays (onNext totalDays nav)) /\
  (currentDay nav <= totalDays - 1 ->
   PageOk totalDays (switchToCalendar nav) /\
   pageStart (switchToCalendar nav) <= currentDay nav
     < pageStart (switchToCalendar nav) + PAGE_SIZE).
Proof.
  unfold PageOk. split.
  - intros [Hm Hs]. destruct (aligned_step _ Hm) as [Hup Hdown].
    destruct (maxStart_aligned totalDays) as [Hmm _].
    unfold onPrev, onNext. destruct (view nav); cbn [pageStart].
    + repeat split; assumption.
    + repeat split; [exact Hdown | lia | | apply Nat.le_min_l].
      destruct (Nat.min_spec (maxStart totalDays) (pageStart nav + PAGE_SIZE))
        as [[_ E]|[_ E]]; rewrite E; assumption.
  - intros Hc. unfold switchToCalendar. cbn [pageStart].
    pose proof (Nat.div_mod_eq (currentDay nav) PAGE_SIZE) as E.
    assert (Hlt : currentDay nav mod PAGE_SIZE < PAGE_SIZE)
      by (apply Nat.mod_upper_bound; discriminate).
    rewrite (Nat.mul_comm PAGE_SIZE) in E.
    split; [split|lia].
    + apply Nat.Div0.mod_mul.
    + apply aligned_le_maxStart; [apply Nat.Div0.mod_mul | lia].
Qed.

(** Extra X18.  A valid page start of a non-empty plan shows between one
    and four days, and they are the plan's days from the page start on. *)
Theorem daysForPage_nonempty {A : Type} (planDays : list A) (nav : Nav) :
  PageOk (List.length planDays) nav -> planDays <> [] ->
  1 <= List.length (daysForPage planDays nav) <= PAGE_SIZE /\
  daysForPage planDays nav = firstn PAGE_SIZE (skipn (pageStart nav) planDays).
Proof.
  intros [_ Hs] Hne.
  assert (Hlen : 0 < List.length planDays) by (destruct planDays; [congruence | simpl; lia]).
  destruct (maxStart_aligned (List.length planDays)) as [_ Hle].
  unfold daysForPage, pageEnd.
  assert (E : firstn (Nat.min (pageStart nav + PAGE_SIZE) (List.length planDays)
                      - pageStart nav) (skipn (pageStart nav) planDays)
              = firstn PAGE_SIZE (skipn (pageStart nav) planDays)).
  { destruct (Nat.min_spec (pageStart nav + PAGE_SIZE) (List.length planDays))
      as [[_ E]|[Hge E]]; rewrite E.
    - f_equal. lia.
    - rewrite !firstn_all2; [reflexivity | rewrite length_skipn; lia
                            | rewrite length_skipn; lia]. }
  split; [|exact E].
  rewrite E, length_firstn, length_skipn. unfold PAGE_SIZE in *. lia.
Qed.

(** Extra X19.  In the Calendar view with a valid page start: when
    [canNext] holds, [onNext] advances by exactly one page and [onPrev]
    comes back to the same page; when [canNext] does not hold, [onNext]
    leaves the page start where it is. *)
Theorem calendar_next_then_prev (totalDays : nat) (nav : Nav) :
  view nav = Calendar -> PageOk totalDays nav ->
  (canNext totalDays nav = true ->
   pageStart (onNext totalDays nav) = pageStart nav + PAGE_SIZE /\
   pageStart (onPrev (onNext totalDays nav)) = pageStart nav) /\
  (canNext totalDays nav = false ->
   pageStart (onNext totalDays nav) = pageStart nav).
Proof.
  intros Hv [Hm Hs]. unfold canNext, onNext, onPrev, pageEnd. rewrite Hv.
  cbn [view pageStart].
  destruct (aligned_step _ Hm) as [Hup _].
  destruct (maxStart_aligned totalDays) as [_ Hle].
  split; intros Hc.
  - apply Nat.ltb_lt in Hc.
    assert (Hin : pageStart nav + PAGE_SIZE <= maxStart totalDays)
      by (apply aligned_le_maxStart; [exact Hup | lia]).
    rewrite Nat.min_r by exact Hin. split; [reflexivity | lia].
  - apply Nat.ltb_ge in Hc.
    assert (Hmax : maxStart totalDays <= pageStart nav).
    { destruct (Nat.le_gt_cases (maxStart totalDays) (pageStart nav)) as [H|H]; [exact H|].
      exfalso. destruct (maxStart_aligned totalDays) as [Hmm _].
      pose proof (Nat.div_mod_eq (pageStart nav) PAGE_SIZE) as E1.
      pose proof (Nat.div_mod_eq (maxStart totalDays) PAGE_SIZE) as E2.
      rewrite Hm in E1. rewrite Hmm in E2. unfold PAGE_SIZE in *. lia. }
    lia.
Qed.

End Paging.

Lemma pager_keeps_page_valid_witness :
  Pager.PageOk 10 (Pager.onPrev (Pager.mkNav Pager.Calendar 4 4)) /\
  Pager.PageOk 10 (Pager.onNext 10 (Pager.mkNav Pager.Calendar 4 4)).
Proof.
  apply (pager_keeps_page_valid 10 (Pager.mkNav Pager.Calendar 4 4)).
  split; [reflexivity | vm_compute; lia].
Defined.

Lemma daysForPage_nonempty_witness :
  1 <= List.length (Pager.daysForPage [1; 2; 3; 4; 5; 6] (Pager.mkNav Pager.Calendar 4 4))
    <= Pager.PAGE_SIZE /\
  Pager.daysForPage [1; 2; 3; 4; 5; 6] (Pager.mkNav Pager.Calendar 4 4)
  = firstn Pager.PAGE_SIZE (skipn 4 [1; 2; 3; 4; 5; 6]).
Proof.
  apply (daysForPage_nonempty [1; 2; 3; 4; 5; 6] (Pager.mkNav Pager.Calendar 4 4)).
  - split; [reflexivity | vm_compute; lia].
  - discriminate.
Defined.

Lemma calendar_next_then_prev_witness :
  Pager.pageStart (Pager.onNext 10 (Pager.mkNav Pager.Calendar 4 4)) = 8 /\
  Pager.pageStart (Pager.onPrev (Pager.onNext 10 (Pager.mkNav Pager.Calendar 4 4))) = 4.
Proof.
  apply (calendar_next_then_prev 10 (Pager.mkNav Pager.Calendar 4 4)).
  - reflexivity.
  - split; [reflexivity | vm_compute; lia].
  - reflexivity.
Defined.

(** ** The server's normalizers, further *)

Section ServerMore.

Import Js Server.

(** *** Costs *)

Lemma coerceCost_CanonicalCost (input : option string) (out : string) :
  coerceCost input = Some out -> CanonicalCost out.
Proof.
  unfold coerceCost, CanonicalCost. intros H.
  destruct input as [s|]; [|discriminate].
  destruct (String.eqb s EmptyString); [discriminate|].
  cbv zeta in H.
  destruct (hasWordFrom _ _ _ || hasDollarZero _).
  { injection H as <-. now left. }
  destruct (map parseInt _) as [|a [|b rest]].
  - assert (T : forall a b : N, (a < b)%N ->
                out = "$" +:+ showN a +:+ enDash +:+ "$" +:+ showN b ->
                exists a b, (a < b)%N /\
                            out = "$" +:+ showN a +:+ enDash +:+ "$" +:+ showN b)
      by (intros a b Hab E; now exists a, b).
    right. right.
    destruct (_ && _); [injection H as <-; now apply (T 10%N 25%N)|].
    destruct (_ && _); [injection H as <-; now apply (T 25%N 50%N)|].
    destruct (_ && _); [injection H as <-; now apply (T 50%N 100%N)|].
    discriminate.
  - injection H as <-. right. left. now exists a.
  - destruct (N.ltb_spec b a) as [Hlt|Hge]; cbv beta iota in H.
    + destruct (N.eqb_spec b a) as [E|E]; injection H as <-.
      * right. left. now exists b.
      * right. right. exists b, a. split; [lia | reflexivity].
    + destruct (N.eqb_spec a b) as [E|E]; injection H as <-.
      * right. left. now exists a.
      * right. right. exists a, b. split; [lia | reflexivity].
Qed.

(** Extra X20.  Every cost that [coerceCost] returns has one of the three
    canonical forms: ["free"], ["$N"], or ["$A–$B"] with [A < B] and an en
    dash. *)
Theorem coerceCost_canonical (input : option string) (out : string) :
  coerceCost input = Some out -> CanonicalCost out.
Proof. apply coerceCost_CanonicalCost. Qed.

(** *** [normalizeStrictDays] *)

Lemma normalizeItem_spec it one :
  normalizeItem it = Some one -> NormalizedFrom it one.
Proof.
  unfold normalizeItem, NormalizedFrom. intros H.
  destruct (raw_title it) as [| |t|]; try discriminate.
  destruct (nullish (raw_short_description it) (raw_short_desc it)) as [| |sd|];
    try discriminate.
  injection H as <-. cbn [title short_description estimated_cost].
  repeat split. intros c Hc. now apply coerceCost_CanonicalCost in Hc.
Qed.

Lemma normalizeItems_spec items : forall d,
  normalizeItems items = Some d -> Forall2 NormalizedFrom items d.
Proof.
  induction items as [|it items IH]; intros d H; cbn [normalizeItems] in H.
  - injection H as <-. constructor.
  - destruct (normalizeItem it) as [one|] eqn:E1; [|discriminate].
    destruct (normalizeItems items) as [rest|]; [|discriminate].
    injection H as <-. constructor; [now apply normalizeItem_spec | now apply IH].
Qed.

(** Extra X21.  When [normalizeStrictDays] accepts an input, the input is
    an array of arrays, the result has one day per input day, every day has
    between 3 and 5 items, each item carries the raw title and description
    (the latter from [short_description], else [short_desc]), and every
    cost that is kept is canonical. *)
Theorem normalizeStrictDays_shape (input : RawPlan) (out : list (list StrictItem)) :
  normalizeStrictDays input = Some out ->
  exists days,
    input = PlanArray days /\
    Forall2 (fun rd d => exists items,
                 rd = DayArray items /\ 3 <= List.length d <= 5 /\
                 Forall2 NormalizedFrom items d) days out.
Proof.
  destruct input as [|days]; [discriminate|]. cbn [normalizeStrictDays].
  intros H. exists days. split; [reflexivity|].
  revert out H. induction days as [|rd days IH]; intros out H; cbn [normalizeDays] in H.
  - injection H as <-. constructor.
  - destruct (normalizeDay rd) as [d|] eqn:Ed; [|discriminate].
    destruct (normalizeDays days) as [rest|]; [|discriminate].
    injection H as <-. constructor; [|now apply IH].
    destruct rd as [|items]; [discriminate|]. cbn [normalizeDay] in Ed.
    destruct (Nat.ltb_spec (List.length items) 3); [discriminate|].
    destruct (Nat.ltb_spec 5 (List.length items)); [discriminate|].
    cbn [orb] in Ed. apply normalizeItems_spec in Ed.
    exists items. split; [reflexivity|]. split; [|exact Ed].
    rewrite <- (Forall2_length Ed). lia.
Qed.

(** *** The fallback pool *)

Lemma suggestionsToStrictDays_days suggestions nights :
  exists perDay,
    3 <= perDay <= 5 /\
    List.length (suggestionsToStrictDays suggestions nights)
    = Z.to_nat (Z.max 1 (match nights with Some n => n | None => 1%Z end)) /\
    Forall (fun d => List.length d = perDay) (suggestionsToStrictDays suggestions nights).
Proof.
  unfold suggestionsToStrictDays.
  set (days := Z.to_nat (Z.max 1 _)).
  set (items := map itemOfSuggestion suggestions).
  set (perDay := Nat.min 5 (Nat.max 3 _)).
  exists perDay. split; [unfold perDay; lia|].
  split; [now rewrite length_map, length_seq|].
  apply Forall_forall. intros d Hd. apply in_map_iff in Hd.
  destruct Hd as [k [<- Hk]]. apply in_seq in Hk.
  rewrite length_firstn, length_skipn, length_map, length_seq.
  apply Nat.min_l. nia.
Qed.

Lemma pool_entries suggestions nights dayp o :
  In dayp (suggestionsToStrictDays suggestions nights) -> In o dayp ->
  match o with
  | Some c => exists s, In s suggestions /\ itemOfSuggestion s = Some c
  | None => suggestions = [] \/ exists s, In s suggestions /\ name s = None
  end.
Proof.
  intros Hd Ho. unfold suggestionsToStrictDays in Hd.
  apply in_map_iff in Hd. destruct Hd as [d [<- _]].
  apply in_firstn_in, in_skipn_in in Ho.
  apply in_map_iff in Ho. destruct Ho as [i [<- _]].
  destruct (nth_error _ _) as [entry|] eqn:E.
  - apply nth_error_In, in_map_iff in E. destruct E as [s [<- Hs]].
    destruct (itemOfSuggestion s) as [c|] eqn:Ec; [now exists s|].
    right. exists s. split; [exact Hs|].
    unfold itemOfSuggestion in Ec. now destruct (name s).
  - apply nth_error_None in E. rewrite length_map in E.
    destruct suggestions as [|s l]; [now left|]. exfalso.
    cbn [List.length] in E. rewrite Nat.max_r in E by lia.
    pose proof (Nat.mod_upper_bound i (S (List.length l))). lia.
Qed.

(** Extra X22.  For [nights] an integer or absent, the fallback made from
    the suggestions has [max(1, nights)] days (one day when [nights] is
    absent) of one common size between 3 and 5.  An entry with a string
    title is the item made from one of the suggestions; an entry without
    one (an [undefined] entry, or an item whose title is not a string)
    occurs only when there is no suggestion or when some suggestion has no
    string name. *)
Theorem suggestionsToStrictDays_shape (suggestions : list Suggestion) (nights : option Z) :
  let out := suggestionsToStrictDays suggestions nights in
  List.length out = Z.to_nat (Z.max 1 (match nights with Some n => n | None => 1%Z end)) /\
  (exists perDay, 3 <= perDay <= 5 /\ Forall (fun d => List.length d = perDay) out) /\
  Forall (Forall (fun o =>
            match o with
            | Some c => exists s, In s suggestions /\ itemOfSuggestion s = Some c
            | None => suggestions = [] \/ exists s, In s suggestions /\ name s = None
            end)) out.
Proof.
  intros out. destruct (suggestionsToStrictDays_days suggestions nights)
    as [perDay (Hp & Hlen & Hall)].
  split; [exact Hlen|]. split; [now exists perDay|].
  apply Forall_forall. intros d Hd. apply Forall_forall. intros o Ho.
  now apply (pool_entries suggestions nights d o).
Qed.

(** *** [enforceDayCount3to5], in general *)

Lemma NoDup_firstn {A} n : forall l : list A, NoDup l -> NoDup (firstn n l).
Proof.
  induction n as [|n IH]; intros l H; [constructor|].
  destruct l as [|a l]; [constructor|]. cbn [firstn].
  inversion H as [|? ? Ha Hl]; subst. constructor; [|now apply IH].
  intros Hin. apply Ha. now apply (in_firstn_in n).
Qed.

Lemma dedupeLoop_keys day : forall seen,
  NoDup (map keyOf (dedupeLoop day seen)) /\
  forall x, In x (dedupeLoop day seen) -> ~ In (keyOf x) seen.
Proof.
  induction day as [|it day IH]; intros seen; cbn [dedupeLoop].
  - split; [constructor | intros x []].
  - destruct (has (normalizeTitleKey (title it)) seen) eqn:Hh; [apply IH|].
    destruct (IH (normalizeTitleKey (title it) :: seen)) as [Hnd Hout].
    split.
    + cbn [map]. constructor; [|exact Hnd].
      intros Hin. apply in_map_iff in Hin. destruct Hin as [x [Hk Hx]].
      apply (Hout x Hx). left. symmetry. exact Hk.
    + intros x [<-|Hx].
      * intros Hin. apply has_In' in Hin. unfold keyOf in Hin. congruence.
      * intros Hin. apply (Hout x Hx). now right.
Qed.

Lemma baseDay_keys planDays i :
  NoDup (map keyOf (baseDay planDays i)) /\ List.length (baseDay planDays i) <= 5.
Proof.
  unfold baseDay. split.
  - rewrite <- firstn_map. apply NoDup_firstn. apply dedupeLoop_keys.
  - rewrite length_firstn. lia.
Qed.

Lemma fillFromPool_from pool : forall day titles day' titles',
  fillFromPool pool day titles = Some (day', titles') ->
  exists added, day' = day ++ added /\ Forall (fun c => In (Some c) pool) added.
Proof.
  induction pool as [|o pool IH]; intros day titles day' titles' H.
  - injection H as <- <-. exists []. now rewrite app_nil_r.
  - rewrite fillFromPool_cons in H. destruct o as [cand|]; [|discriminate].
    assert (Hup : forall l, Forall (fun c => In (Some c) pool) l ->
                            Forall (fun c => In (Some c) (Some cand :: pool)) l).
    { intros l. apply Forall_impl. intros c Hc. now right. }
    destruct (has (keyOf cand) titles).
    + destruct (IH _ _ _ _ H) as [added [-> Hadd]]. exists added. split; auto.
    + destruct (needMin <=? _).
      * injection H as <- <-. exists [cand]. split; [reflexivity|].
        constructor; [now left | constructor].
      * destruct (IH _ _ _ _ H) as [added [-> Hadd]]. exists (cand :: added).
        rewrite <- app_assoc. split; [reflexivity|].
        constructor; [now left | auto].
Qed.

Lemma fillFromPools_from pools : forall day titles day',
  fillFromPools pools day titles = Some day' ->
  exists added, day' = day ++ added /\
                Forall (fun c => In (Some c) (List.concat pools)) added.
Proof.
  induction pools as [|pool pools IH]; intros day titles day' H; cbn [fillFromPools] in H.
  - injection H as <-. exists []. now rewrite app_nil_r.
  - destruct (fillFromPool pool day titles) as [[d1 t1]|] eqn:E; [|discriminate].
    destruct (fillFromPool_from _ _ _ _ _ E) as [a1 [-> H1]].
    assert (Hl : Forall (fun c => In (Some c) (List.concat (pool :: pools))) a1).
    { revert H1. apply Forall_impl. intros c Hc. cbn [List.concat].
      apply in_or_app. now left. }
    destruct (needMin <=? _).
    + injection H as <-. now exists a1.
    + destruct (IH _ _ _ H) as [a2 [-> H2]]. exists (a1 ++ a2).
      rewrite app_assoc. split; [reflexivity|].
      apply Forall_app. split; [exact Hl|].
      revert H2. apply Forall_impl. intros c Hc. cbn [List.concat].
      apply in_or_app. now right.
Qed.

(** The pools tried for day [i] hold entries of the fallback only. *)
Lemma tryPools_incl (fallback : list (list (option StrictItem))) i o :
  In o (List.concat ((match nth_error fallback i with Some p => [p] | None => [] end)
                       ++ (if 0 <? List.length fallback
                           then [List.concat fallback] else []))) ->
  In o (List.concat fallback).
Proof.
  rewrite concat_app, in_app_iff. intros [H|H].
  - destruct (nth_error fallback i) as [p|] eqn:E; [|destruct H].
    cbn [List.concat] in H. rewrite app_nil_r in H.
    apply in_concat. exists p. split; [now apply (nth_error_In _ i) | exact H].
  - destruct (0 <? _); [|destruct H]. cbn [List.concat] in H.
    now rewrite app_nil_r in H.
Qed.

Lemma tryPools_defined (fallback : list (list (option StrictItem))) i :
  Forall (Forall (fun o => o <> None)) fallback ->
  Forall (Forall (fun o => o <> None))
         ((match nth_error fallback i with Some p => [p] | None => [] end)
            ++ (if 0 <? List.length fallback then [List.concat fallback] else [])).
Proof.
  intros Hdef. apply Forall_forall. intros p Hp. apply Forall_forall. intros o Ho.
  assert (Hin : In o (List.concat fallback)).
  { apply tryPools_incl with (i := i). apply in_concat. now exists p. }
  apply in_concat in Hin. destruct Hin as [q [Hq Hoq]].
  rewrite Forall_forall in Hdef. specialize (Hdef q Hq).
  rewrite Forall_forall in Hdef. now apply Hdef.
Qed.

Lemma enforceDay_unfold fallback planDays i :
  enforceDay fallback planDays i =
  option_map (firstn 5)
    (if List.length (baseDay planDays i) <? needMin then
       fillFromPools
         ((match nth_error fallback i with Some p => [p] | None => [] end)
            ++ (if 0 <? List.length fallback then [List.concat fallback] else []))
         (baseDay planDays i) (map keyOf (baseDay planDays i))
     else Some (baseDay planDays i)).
Proof. reflexivity. Qed.

Lemma enforceDay_spec fallback planDays i :
  Forall (Forall (fun o => o <> None)) fallback ->
  exists added,
    enforceDay fallback planDays i = Some (baseDay planDays i ++ added) /\
    List.length (baseDay planDays i ++ added) <= 5 /\
    NoDup (map keyOf (baseDay planDays i ++ added)) /\
    (needMin <= List.length (baseDay planDays i) -> added = []) /\
    Forall (fun c => In (Some c) (List.concat fallback)) added.
Proof.
  intros Hdef. rewrite enforceDay_unfold.
  destruct (baseDay_keys planDays i) as [Hnd Hfive].
  destruct (Nat.ltb_spec (List.length (baseDay planDays i)) needMin) as [Hlt|Hge].
  - destruct (fillFromPools_spec _ (baseDay planDays i) (map keyOf (baseDay planDays i))
                (tryPools_defined fallback i Hdef))
      as (day' & added & Hfill & -> & Hnd' & Hlen' & _);
      [intros k; reflexivity | exact Hnd | exact Hlt |].
    destruct (fillFromPools_from _ _ _ _ Hfill) as [added' [Heq Hfrom]].
    apply app_inv_head in Heq. subst added'.
    exists added. rewrite Hfill. cbn [option_map].
    unfold needMin in *. rewrite firstn_all2 by lia.
    repeat split; [lia | exact Hnd' | lia |].
    revert Hfrom. apply Forall_impl. intros c. apply tryPools_incl.
  - exists []. rewrite app_nil_r. cbn [option_map].
    rewrite firstn_all2 by exact Hfive.
    repeat split; [exact Hfive | exact Hnd | constructor].
Qed.

Lemma sequence_Some {A B} (f : A -> option B) (h : A -> B) (l : list A) :
  (forall a, In a l -> f a = Some (h a)) -> sequence (map f l) = Some (map h l).
Proof.
  induction l as [|a l IH]; intros H; [reflexivity|].
  cbn [map sequence]. rewrite (H a (or_introl eq_refl)), IH; [reflexivity|].
  intros b Hb. apply H. now right.
Qed.

Lemma sequence_length {A} (l : list (option A)) : forall out,
  sequence l = Some out -> List.length out = List.length l.
Proof.
  induction l as [|o l IH]; intros out H; cbn [sequence] in H.
  - now injection H as <-.
  - destruct o as [x|]; [|discriminate].
    destruct (sequence l) as [xs|]; [|discriminate].
    injection H as <-. cbn [List.length]. f_equal. now apply IH.
Qed.

Lemma sequence_None {A B} (f : A -> option B) (l : list A) a :
  In a l -> f a = None -> sequence (map f l) = None.
Proof.
  induction l as [|b l IH]; intros Hin Hf; [destruct Hin|].
  cbn [map sequence]. destruct Hin as [->|Hin].
  - now rewrite Hf.
  - destruct (f b); [|reflexivity]. now rewrite IH.
Qed.

Lemma fallbackDays_defined planDays suggestions nights :
  suggestions <> [] -> Forall Named suggestions ->
  Forall (Forall (fun o => o <> None)) (fallbackDays planDays suggestions nights).
Proof.
  intros Hsug Hnamed. apply Forall_forall. intros p Hp. apply Forall_forall. intros o Ho.
  unfold fallbackDays in Hp. now apply (pool_defined _ _ _ _ Hsug Hnamed Hp Ho).
Qed.

Lemma enforceDayCount3to5_spec
        (planDays : list (list StrictItem)) (suggestions : list Suggestion)
        (nights : option Z) :
  suggestions <> [] -> Forall Named suggestions ->
  exists out,
    enforceDayCount3to5 planDays suggestions nights = Some out /\
    List.length out = Nat.max (List.length planDays) 1 /\
    forall i day, nth_error out i = Some day ->
      exists added,
        day = baseDay planDays i ++ added /\
        List.length day <= 5 /\
        NoDup (map keyOf day) /\
        (needMin <= List.length (baseDay planDays i) -> added = []) /\
        Forall (fun c => exists s, In s suggestions /\ itemOfSuggestion s = Some c) added.
Proof.
  intros Hsug Hnamed.
  pose proof (fallbackDays_defined planDays suggestions nights Hsug Hnamed) as Hdef.
  unfold enforceDayCount3to5.
  destruct (sequence_map_total
              (enforceDay (fallbackDays planDays suggestions nights) planDays)
              (seq 0 (Nat.max (List.length planDays) 1)))
    as [out [Hout Hnth]].
  { intros a _. now apply enforceDay_total. }
  exists out. split; [exact Hout|].
  assert (Hlen : List.length out = Nat.max (List.length planDays) 1).
  { rewrite (sequence_length _ _ Hout), length_map. apply length_seq. }
  split; [exact Hlen|].
  intros i day Hday.
  assert (Hi : i < Nat.max (List.length planDays) 1).
  { rewrite <- Hlen. apply nth_error_Some. congruence. }
  destruct (Hnth i i) as [b [Hb Hob]].
  { rewrite nth_error_seq. destruct (Nat.ltb_spec i (Nat.max (List.length planDays) 1));
      [reflexivity | lia]. }
  rewrite Hday in Hob. injection Hob as <-.
  destruct (enforceDay_spec (fallbackDays planDays suggestions nights) planDays i Hdef)
    as (added & He & Hfive & Hnd & Hfull & Hfrom).
  rewrite He in Hb. injection Hb as <-.
  exists added. repeat split; try assumption.
  revert Hfrom. apply Forall_impl. intros c Hc.
  apply in_concat in Hc. destruct Hc as [p [Hp Hc]].
  unfold fallbackDays in Hp. exact (pool_entries _ _ _ _ Hp Hc).
Qed.

(** Extra X23.  With at least one suggestion, every suggestion having a
    string name, and [nights] an integer or absent, [enforceDayCount3to5]
    returns a plan of [max(planDays.length, 1)] days.  Each day is the
    de-duplicated input day cut to 5 items, followed by backfilled items;
    it has at most 5 items with pairwise distinct title keys; nothing is
    backfilled into a day that already has 3 items; and every backfilled
    item is made from a suggestion. *)
Theorem enforceDayCount3to5_postcondition
        (planDays : list (list StrictItem)) (suggestions : list Suggestion)
        (nights : option Z) :
  suggestions <> [] -> Forall Named suggestions ->
  exists out,
    enforceDayCount3to5 planDays suggestions nights = Some out /\
    List.length out = Nat.max (List.length planDays) 1 /\
    forall i day, nth_error out i = Some day ->
      exists added,
        day = baseDay planDays i ++ added /\
        List.length day <= 5 /\
        NoDup (map keyOf day) /\
        (needMin <= List.length (baseDay planDays i) -> added = []) /\
        Forall (fun c => exists s, In s suggestions /\ itemOfSuggestion s = Some c) added.
Proof. apply enforceDayCount3to5_spec. Qed.

Lemma map_nth_seq {A B} (g : A -> B) (d : A) (l : list A) :
  map (fun i => g (nth i l d)) (seq 0 (List.length l)) = map g l.
Proof.
  induction l as [|a l IH] using rev_ind; [reflexivity|].
  rewrite length_app. cbn [List.length]. rewrite Nat.add_1_r, seq_S, !map_app.
  cbn [map plus]. rewrite app_nth2, Nat.sub_diag by lia. cbn [nth]. f_equal.
  rewrite <- IH. apply map_ext_in. intros i Hi. apply in_seq in Hi.
  now rewrite app_nth1 by lia.
Qed.

(** Extra X24.  On a plan whose days all keep at least 3 items after
    de-duplication, [enforceDayCount3to5] only de-duplicates each day and
    cuts it to 5 items; the suggestions and [nights] play no part. *)
Theorem enforceDayCount3to5_full_days
        (planDays : list (list StrictItem)) (suggestions : list Suggestion)
        (nights : option Z) :
  planDays <> [] ->
  Forall (fun d => needMin <= List.length (dedupeWithinDayByTitle d)) planDays ->
  enforceDayCount3to5 planDays suggestions nights
  = Some (map (fun d => firstn 5 (dedupeWithinDayByTitle d)) planDays).
Proof.
  intros Hne Hfull. unfold enforceDayCount3to5.
  assert (Hlen : Nat.max (List.length planDays) 1 = List.length planDays).
  { destruct planDays; [congruence | simpl; lia]. }
  rewrite Hlen, <- (map_nth_seq _ []).
  apply sequence_Some. intros i Hi. apply in_seq in Hi.
  rewrite enforceDay_unfold.
  assert (Hthree : needMin <= List.length (baseDay planDays i)).
  { unfold baseDay. rewrite length_firstn.
    rewrite Forall_forall in Hfull. specialize (Hfull (nth i planDays [])).
    unfold needMin in *. apply Nat.min_glb; [lia|]. apply Hfull. apply nth_In. lia. }
  destruct (Nat.ltb_spec (List.length (baseDay planDays i)) needMin); [lia|].
  cbn [option_map]. unfold baseDay. now rewrite firstn_firstn, Nat.min_id.
Qed.

Lemma fillFromPools_undefined p pools day titles :
  fillFromPools ((None :: p) :: pools) day titles = None.
Proof. reflexivity. Qed.

(** Without suggestions the fallback has a day, and each of its days starts
    with an [undefined] entry. *)
Lemma fallback_undefined nights :
  suggestionsToStrictDays [] nights <> [] /\
  Forall (fun d => exists p, d = None :: p) (suggestionsToStrictDays [] nights).
Proof.
  destruct (suggestionsToStrictDays_days [] nights) as [perDay (Hp & Hlen & Hall)].
  split.
  - intros E. rewrite E in Hlen. cbn [List.length] in Hlen. lia.
  - apply Forall_forall. intros d Hd.
    rewrite Forall_forall in Hall. specialize (Hall d Hd).
    destruct d as [|o p]; [cbn [List.length] in Hall; lia|].
    pose proof (pool_entries [] nights (o :: p) o Hd (or_introl eq_refl)) as Ho.
    destruct o as [c|]; [destruct Ho as [s [[] _]] | now exists p].
Qed.

(** Extra X25.  Without suggestions, [enforceDayCount3to5] raises a
    TypeError as soon as one of the [max(planDays.length, 1)] days keeps
    fewer than 3 items after de-duplication: the fallback pool then holds
    only [undefined] entries, and the fill reads [cand.title] on the first
    of them. *)
Theorem enforceDayCount3to5_without_suggestions
        (planDays : list (list StrictItem)) (nights : option Z) (i : nat) :
  i < Nat.max (List.length planDays) 1 ->
  List.length (dedupeWithinDayByTitle (nth i planDays [])) < needMin ->
  enforceDayCount3to5 planDays [] nights = None.
Proof.
  intros Hi Hshort. unfold enforceDayCount3to5.
  apply (sequence_None _ _ i); [apply in_seq; lia|].
  rewrite enforceDay_unfold.
  assert (Hb : List.length (baseDay planDays i) < needMin).
  { unfold baseDay. rewrite length_firstn. lia. }
  destruct (Nat.ltb_spec (List.length (baseDay planDays i)) needMin); [|lia].
  unfold fallbackDays.
  match goal with |- context [suggestionsToStrictDays [] ?n] =>
    destruct (fallback_undefined n) as [Hne Hall]; set (fb := suggestionsToStrictDays [] n) in *
  end.
  destruct (nth_error fb i) as [p|] eqn:Ep.
  - rewrite Forall_forall in Hall. destruct (Hall p (nth_error_In _ _ Ep)) as [p' ->].
    reflexivity.
  - destruct fb as [|d0 fb']; [congruence|].
    inversion Hall as [|? ? [p' ->] _]; subst. reflexivity.
Qed.

(** *** The plan steps of the two endpoints *)

(** Extra X26.  With no suggestion and no usable plan from the model (no
    [planDays], or [normalizeStrictDays] rejects it or returns no day), the
    plan steps of [postChat] and [postChatStream] end in a TypeError: the
    request is answered with an error instead of a plan. *)
Theorem planWithoutPlaces_needs_suggestions
        (planDays : option RawPlan) (nights : option Z) :
  (forall input d ds, planDays = Some input ->
                      normalizeStrictDays input <> Some (d :: ds)) ->
  planWithoutPlaces planDays [] nights = None.
Proof.
  intros Hbad. unfold planWithoutPlaces.
  assert (Hfall : sequence (map sequence (suggestionsToStrictDays [] nights)) = None).
  { destruct (fallback_undefined nights) as [Hne Hall].
    destruct (suggestionsToStrictDays [] nights) as [|d0 fb]; [congruence|].
    inversion Hall as [|? ? [p ->] _]; subst. reflexivity. }
  destruct planDays as [input|]; [|now rewrite Hfall].
  destruct (normalizeStrictDays input) as [[|d ds]|] eqn:E; try now rewrite Hfall.
  exfalso. exact (Hbad input d ds eq_refl E).
Qed.

Lemma sequence_defined {A} (l : list (option A)) :
  Forall (fun o => o <> None) l -> exists out, sequence l = Some out.
Proof.
  induction l as [|o l IH]; intros H; [now exists []|].
  inversion H as [|? ? Ho Hl]; subst. destruct o as [x|]; [|congruence].
  destruct (IH Hl) as [xs E]. exists (x :: xs). cbn [sequence]. now rewrite E.
Qed.

(** Extra X27.  With at least one suggestion, every suggestion having a
    string name, and [nights] an integer or absent, the plan steps of the
    two endpoints do not fail: whatever the model sent as [planDays], the
    reply has at least one day, and every day has at most 5 items with
    pairwise distinct title keys. *)
Theorem planWithoutPlaces_postcondition
        (planDays : option RawPlan) (suggestions : list Suggestion) (nights : option Z) :
  suggestions <> [] -> Forall Named suggestions ->
  exists out,
    planWithoutPlaces planDays suggestions nights = Some out /\
    out <> [] /\
    Forall (fun day => List.length day <= 5 /\ NoDup (map keyOf day)) out.
Proof.
  intros Hsug Hnamed. unfold planWithoutPlaces.
  assert (Hany : forall days, exists out,
             enforceDayCount3to5 days suggestions nights = Some out /\
             out <> [] /\
             Forall (fun day => List.length day <= 5 /\ NoDup (map keyOf day)) out).
  { intros days.
    destruct (enforceDayCount3to5_spec days suggestions nights Hsug Hnamed)
      as (out & Hout & Hlen & Hdays).
    exists out. split; [exact Hout|]. split.
    - intros ->. cbn [List.length] in Hlen. lia.
    - apply Forall_forall. intros day Hday.
      apply In_nth_error in Hday. destruct Hday as [i Hi].
      destruct (Hdays i day Hi) as (added & _ & Hfive & Hnd & _). now split. }
  assert (Hfall : exists days,
             sequence (map sequence (suggestionsToStrictDays suggestions nights))
             = Some days).
  { apply sequence_defined. apply Forall_forall. intros o Ho.
    apply in_map_iff in Ho. destruct Ho as [d [<- Hd]].
    destruct (sequence_defined d) as [xs ->]; [|discriminate].
    apply Forall_forall. intros o Ho.
    now apply (pool_defined _ _ _ _ Hsug Hnamed Hd Ho). }
  destruct Hfall as [fdays Hfall].
  destruct planDays as [input|]; [|rewrite Hfall; apply Hany].
  destruct (normalizeStrictDays input) as [[|d ds]|];
    [rewrite Hfall; apply Hany | apply Hany | rewrite Hfall; apply Hany].
Qed.

End ServerMore.

Lemma coerceCost_canonical_witness :
  Server.coerceCost (Some "about 30 to 12 dollars") = Some ("$12" +:+ Server.enDash +:+ "$30")
  /\ Server.CanonicalCost ("$12" +:+ Server.enDash +:+ "$30").
Proof.
  split; [vm_compute; reflexivity|].
  apply (coerceCost_canonical (Some "about 30 to 12 dollars")).
  vm_compute. reflexivity.
Defined.

Lemma normalizeStrictDays_shape_witness :
  let it := Server.mkRawItem (Server.RString "Zoo") Server.RNull (Server.RString "Animals")
              Server.RUndefined (Server.RString "$$") Server.ROther in
  exists days,
    Server.PlanArray [Server.DayArray [it; it; it]] = Server.PlanArray days /\
    Forall2 (fun rd d => exists items,
                 rd = Server.DayArray items /\ 3 <= List.length d <= 5 /\
                 Forall2 Server.NormalizedFrom items d) days
            [[Server.mkStrictItem "Zoo" "Animals" (Some ("$10" +:+ Server.enDash +:+ "$25"));
              Server.mkStrictItem "Zoo" "Animals" (Some ("$10" +:+ Server.enDash +:+ "$25"));
              Server.mkStrictItem "Zoo" "Animals" (Some ("$10" +:+ Server.enDash +:+ "$25"))]].
Proof.
  intros it.
  apply (normalizeStrictDays_shape (Server.PlanArray [Server.DayArray [it; it; it]])).
  vm_compute. reflexivity.
Defined.

Lemma enforceDayCount3to5_postcondition_witness :
  exists out,
    Server.enforceDayCount3to5
      [[Server.placeItem "Balboa Park"; Server.placeItem "Visit Balboa Park!"]]
      (map Server.place ["Zoo"]) None = Some out /\
    List.length out = 1.
Proof.
  destruct (enforceDayCount3to5_postcondition
              [[Server.placeItem "Balboa Park"; Server.placeItem "Visit Balboa Park!"]]
              (map Server.place ["Zoo"]) None) as (out & Hout & Hlen & _).
  - discriminate.
  - repeat constructor; discriminate.
  - exists out. split; [exact Hout | exact Hlen].
Defined.

Lemma enforceDayCount3to5_full_days_witness :
  Server.enforceDayCount3to5
    [map Server.placeItem ["Zoo"; "Pier"; "The Zoo"; "zoo"; "Museum"]] [] None
  = Some [map Server.placeItem ["Zoo"; "Pier"; "The Zoo"; "Museum"]].
Proof.
  apply (enforceDayCount3to5_full_days
           [map Server.placeItem ["Zoo"; "Pier"; "The Zoo"; "zoo"; "Museum"]] [] None).
  - discriminate.
  - constructor; [vm_compute; lia | constructor].
Defined.

Lemma enforceDayCount3to5_without_suggestions_witness :
  Server.enforceDayCount3to5 [map Server.placeItem ["Zoo"; "zoo"; "ZOO!"]] [] (Some 2%Z)
  = None.
Proof.
  apply (enforceDayCount3to5_without_suggestions
           [map Server.placeItem ["Zoo"; "zoo"; "ZOO!"]] (Some 2%Z) 0).
  - vm_compute. lia.
  - vm_compute. lia.
Defined.

Lemma planWithoutPlaces_needs_suggestions_witness :
  Server.planWithoutPlaces (Some Server.PlanNotArray) [] (Some 3%Z) = None.
Proof.
  apply (planWithoutPlaces_needs_suggestions (Some Server.PlanNotArray) (Some 3%Z)).
  intros input d ds E. injection E as <-. discriminate.
Defined.

Lemma planWithoutPlaces_postcondition_witness :
  exists out,
    Server.planWithoutPlaces None (map Server.place ["Zoo"; "Pier"]) (Some 2%Z) = Some out /\
    out <> [] /\
    Forall (fun day => List.length day <= 5 /\ NoDup (map Server.keyOf day)) out.
Proof.
  apply (planWithoutPlaces_postcondition None (map Server.place ["Zoo"; "Pier"]) (Some 2%Z)).
  - discriminate.
  - repeat constructor; discriminate.
Defined.

Lemma performReorder_keeps_items_witness :
  let a := Plan.mkItem (Plan.JString "A") (Plan.JString "a") Plan.JUndefined Plan.JUndefined in
  let b := Plan.mkItem (Plan.JString "B") (Plan.JString "b") Plan.JUndefined Plan.JUndefined in
  nth_error (Reorder.performReorder [[a; b]; [b]] 0 0 1) 1 = nth_error [[a; b]; [b]] 1.
Proof.
  intros a b.
  apply (performReorder_keeps_items [[a; b]; [b]] 0 0 1). discriminate.
Defined.

(** ** Image events *)

Section Images.

Import Js Plan Chat.

Lemma map_setNth {A B} (f : A -> B) x : forall (l : list A) i,
  map f (setNth i x l) = setNth i (f x) (map f l).
Proof.
  induction l as [|h l IH]; intros i; [now destruct i|].
  destruct i as [|i]; cbn [setNth map]; [reflexivity | now rewrite IH].
Qed.

Lemma setNth_same {A} (x : A) : forall l i, nth_error l i = Some x -> setNth i x l = l.
Proof.
  induction l as [|h l IH]; intros i H; [now destruct i|].
  destruct i as [|i]; cbn [setNth nth_error] in *.
  - now injection H as ->.
  - now rewrite IH.
Qed.

Lemma nth_error_setNth {A} (x : A) : forall l i,
  i < List.length l -> nth_error (setNth i x l) i = Some x.
Proof.
  induction l as [|h l IH]; intros i H; [cbn [List.length] in H; lia|].
  destruct i as [|i]; cbn [setNth nth_error]; [reflexivity|].
  apply IH. cbn [List.length] in H. lia.
Qed.

(** Extra X28.  A [planImage] event changes nothing but one image: the
    titles, descriptions and costs of the document are the same after the
    update, day by day and item by item; and when the addressed day and item
    exist, the item at that position is the old one with the event's
    [image_url]. *)
Theorem applyPlanImage_only_image (p : PlanImage) (prev : StrictPlanDays) :
  map (map (fun it => (title it, short_description it, estimated_cost it)))
      (applyPlanImage p prev)
  = map (map (fun it => (title it, short_description it, estimated_cost it))) prev
  /\ forall day it,
       at_ prev (dayIdx p) = Some day -> at_ day (itemIdx p) = Some it ->
       exists day',
         at_ (applyPlanImage p prev) (dayIdx p) = Some day' /\
         at_ day' (itemIdx p)
         = Some (mkItem (title it) (short_description it) (estimated_cost it)
                        (pi_image_url p)).
Proof.
  unfold applyPlanImage. split.
  - destruct (at_ prev (dayIdx p)) as [day|] eqn:Ed; [|reflexivity].
    destruct (at_ day (itemIdx p)) as [it|] eqn:Ei; [|reflexivity].
    cbv zeta. unfold at_ in Ed, Ei.
    destruct (dayIdx p <? 0)%Z; [discriminate|].
    destruct (itemIdx p <? 0)%Z; [discriminate|].
    rewrite map_setNth, map_setNth. cbn [title short_description estimated_cost].
    apply setNth_same. rewrite nth_error_map, Ed. cbn [option_map]. f_equal.
    symmetry. apply setNth_same. now rewrite nth_error_map, Ei.
  - intros day it Ed Ei. rewrite Ed, Ei. cbv zeta.
    unfold at_ in *.
    destruct (dayIdx p <? 0)%Z; [discriminate|].
    destruct (itemIdx p <? 0)%Z; [discriminate|].
    eexists. split.
    + apply nth_error_setNth. apply nth_error_Some. congruence.
    + cbv beta. apply nth_error_setNth. apply nth_error_Some. congruence.
Qed.

End Images.

Lemma applyPlanImage_only_image_witness :
  let a := Plan.mkItem (Plan.JString "A") (Plan.JString "a") Plan.JUndefined Plan.JUndefined in
  exists day',
    Js.at_ (Chat.applyPlanImage (Chat.mkPlanImage 0 0 (Plan.JString "u")) [[a]]) 0
    = Some day' /\
    Js.at_ day' 0
    = Some (Plan.mkItem (Plan.JString "A") (Plan.JString "a") Plan.JUndefined
              (Plan.JString "u")).
Proof.
  intros a.
  apply (proj2 (applyPlanImage_only_image (Chat.mkPlanImage 0 0 (Plan.JString "u")) [[a]])
           [a] a); reflexivity.
Defined.

(** ** The server's de-duplication *)

Section ServerDedup.

Import Js Server.

Lemma srv_dedupeLoop_subseq day : forall seen, Subseq (dedupeLoop day seen) day.
Proof.
  induction day as [|it day IH]; intros seen; cbn [dedupeLoop]; [constructor|].
  destruct (has _ seen); [apply Subseq_skip | apply Subseq_keep]; apply IH.
Qed.

Lemma srv_dedupeLoop_keyset day : forall seen k,
  In k (map keyOf (dedupeLoop day seen)) <-> In k (map keyOf day) /\ ~ In k seen.
Proof.
  induction day as [|it day IH]; intros seen k; cbn [dedupeLoop map].
  - cbn [In]. tauto.
  - destruct (has (normalizeTitleKey (title it)) seen) eqn:Hh.
    + rewrite IH. cbn [In]. apply has_In' in Hh. fold (keyOf it) in Hh.
      split; [tauto|]. intros [[E|H] Hn]; [subst; contradiction | tauto].
    + assert (Hn : ~ In (keyOf it) seen).
      { intros Hin. apply has_In' in Hin. unfold keyOf in Hin. congruence. }
      cbn [map In]. rewrite IH. cbn [In]. fold (keyOf it).
      destruct (string_dec (keyOf it) k) as [E|E].
      * subst k. tauto.
      * tauto.
Qed.

Lemma srv_dedupeLoop_id day : forall seen,
  NoDup (map keyOf day) -> (forall k, In k (map keyOf day) -> ~ In k seen) ->
  dedupeLoop day seen = day.
Proof.
  induction day as [|it day IH]; intros seen Hnd Hdis; [reflexivity|].
  cbn [dedupeLoop]. cbn [map] in Hnd, Hdis. inversion Hnd as [|? ? Hfresh Hnd']; subst.
  destruct (has (normalizeTitleKey (title it)) seen) eqn:Hh.
  - apply has_In' in Hh. exfalso. apply (Hdis (keyOf it)); [now left | exact Hh].
  - f_equal. apply IH; [exact Hnd'|].
    intros k Hk [E|Hin].
    + apply Hfresh. fold (keyOf it) in E. now rewrite E.
    + apply (Hdis k); [now right | exact Hin].
Qed.

(** Extra X29.  The server's [dedupeWithinDayByTitle] keeps one item per
    title key: its result is a subsequence of the day, its keys are
    pairwise distinct and are exactly the keys of the day (nothing is
    capped or filtered), and de-duplicating twice is de-duplicating once. *)
Theorem dedupeWithinDayByTitle_keys (day : list StrictItem) :
  Subseq (dedupeWithinDayByTitle day) day /\
  NoDup (map keyOf (dedupeWithinDayByTitle day)) /\
  (forall k, In k (map keyOf (dedupeWithinDayByTitle day)) <-> In k (map keyOf day)) /\
  dedupeWithinDayByTitle (dedupeWithinDayByTitle day) = dedupeWithinDayByTitle day.
Proof.
  unfold dedupeWithinDayByTitle. split; [apply srv_dedupeLoop_subseq|].
  split; [apply dedupeLoop_keys|]. split.
  - intros k. rewrite srv_dedupeLoop_keyset. cbn [In]. tauto.
  - apply srv_dedupeLoop_id; [apply dedupeLoop_keys | intros k _ []].
Qed.

End ServerDedup.
